(** * NASA space explorer: the nine-day gallery of [js/script.js]

    A shallow embedding of the date utilities, the feed loader and the
    range reconciler of [js/script.js], with the built-in [Date] object
    modelled after the ECMAScript specification (time values are integral
    milliseconds since the epoch, [None] standing for [NaN]).

    A string is held as bytes: the UTF-8 form of the text, a surrogate
    without its pair, which UTF-8 has no form for, being held as the three
    bytes its code would take ([ED], then a byte of [A0..BF], then one of
    [80..BF]).  The separators, the needles and the replaced characters of
    the script are all of one byte, so that searching, splitting and
    replacing read the same on the bytes as on the code units. *)

From Stdlib Require Import ZArith QArith Qround Lia String Ascii List DecimalString.
From stdpp Require Import base option list strings gmap.

Local Open Scope Z_scope.
Set Warnings "-register-all".

(** ** Completions: normal results and thrown exceptions *)

Inductive exn := Error | TypeError | RangeError | SyntaxError | URIError.

Inductive completion (A : Type) :=
  | Normal (a : A)
  | Throw (e : exn).
Arguments Normal {A} a.
Arguments Throw {A} e.

#[global] Instance exn_eq_dec : EqDecision exn.
Proof. solve_decision. Defined.
#[global] Instance completion_eq_dec `{EqDecision A} : EqDecision (completion A).
Proof. solve_decision. Defined.

#[global] Instance completion_ret : MRet completion := @Normal.
#[global] Instance completion_bind : MBind completion := fun A B k c =>
  match c with
  | Normal a => k a
  | Throw e => Throw e
  end.

(** [try { c } catch (err) { h }] *)
Definition try_catch {A} (c : completion A) (h : exn -> completion A) : completion A :=
  match c with
  | Normal a => Normal a
  | Throw e => h e
  end.

(** [arr.map(f)], and a [for] loop pushing [f i], where [f] may throw: the
    first exception aborts the traversal. *)
Fixpoint map_throwing {A B} (f : A -> completion B) (l : list A) : completion (list B) :=
  match l with
  | [] => Normal []
  | x :: l' => y ← f x; ys ← map_throwing f l'; Normal (y :: ys)
  end.

(** [arr.forEach(f)], threading the state that [f] mutates. *)
Fixpoint forEach {A S} (f : S -> A -> completion S) (s : S) (l : list A) : completion S :=
  match l with
  | [] => Normal s
  | x :: l' => s' ← f s x; forEach f s' l'
  end.

(** ** JSON data and JavaScript values *)

(** A number [JSON.parse] produces, a double: its value, a rational, or
    [None] for an infinity (a literal beyond the doubles), and the string
    [Number::toString] gives for it, which is kept with the number instead of
    being computed from the value.  Minus zero is held as zero: it is falsy,
    is written ["0"] and is the time value 0, as zero is. *)
Record number := {
  num_value : option Q;
  num_string : string;
}.

Definition decimal (n : Z) : string := NilZero.string_of_int (Z.to_int n).

(** An integer that [Number::toString] writes with all its digits. *)
Definition integer (n : Z) : number :=
  {| num_value := Some (inject_Z n); num_string := decimal n |}.

(** The values [JSON.parse] produces; object members are kept in source
    order and are read by their first occurrence. *)
Inductive json :=
  | JNull
  | JBool (b : bool)
  | JNum (x : number)
  | JStr (s : string)
  | JArr (items : list json)
  | JObj (fields : list (string * json)).

(** A time value: integral milliseconds since 1970-01-01T00:00:00Z, or NaN. *)
Definition timevalue := option Z.

(** What the functions of the script pass around: [undefined], JSON data, or
    a [Date] object holding its time value. *)
Inductive jsval :=
  | Undefined
  | Json (j : json)
  | DateObj (tv : timevalue).

(** [Boolean(v)]: the falsy values are [undefined], [null], [false], [0]
    and the empty string; objects and arrays are truthy. *)
Definition truthy_json (j : json) : bool :=
  match j with
  | JNull => false
  | JBool b => b
  | JNum x =>
      match num_value x with
      | Some q => negb (Qnum q =? 0)
      | None => true
      end
  | JStr s => negb (String.eqb s "")
  | JArr _ | JObj _ => true
  end.

Definition truthy (v : jsval) : bool :=
  match v with
  | Undefined => false
  | Json j => truthy_json j
  | DateObj _ => true
  end.

(** First member named [k] of an object literal. *)
Fixpoint assoc (k : string) (fields : list (string * json)) : option json :=
  match fields with
  | [] => None
  | (k', v) :: rest => if String.eqb k k' then Some v else assoc k rest
  end.

(** [item.date] on a value that is neither [null] nor [undefined]: only an
    object can carry the member; strings, numbers, booleans and arrays
    answer [undefined]. *)
Definition get_date (j : json) : jsval :=
  match j with
  | JObj fields => from_option Json Undefined (assoc "date" fields)
  | _ => Undefined
  end.

(** [item.date] in general: reading a member of [null] throws. *)
Definition member_date (j : json) : completion jsval :=
  match j with
  | JNull => Throw TypeError
  | _ => Normal (get_date j)
  end.

(** ** The ECMAScript [Date] abstract operations *)

Module ES.

Definition msPerDay : Z := 86400000.

Definition Day (t : Z) : Z := t / msPerDay.
Definition TimeWithinDay (t : Z) : Z := t mod msPerDay.

Definition DayFromYear (y : Z) : Z :=
  365 * (y - 1970) + (y - 1969) / 4 - (y - 1901) / 100 + (y - 1601) / 400.

Definition DaysInYear (y : Z) : Z :=
  if negb (y mod 4 =? 0) then 365
  else if negb (y mod 100 =? 0) then 366
  else if negb (y mod 400 =? 0) then 365
  else 366.

(** 1 in a leap year, 0 otherwise. *)
Definition InLeapYear (y : Z) : Z := DaysInYear y - 365.

(** The largest year whose first day is not after day [d]: an estimate from
    the mean year length, corrected by at most one year either way. *)
Definition YearFromDay (d : Z) : Z :=
  let y := 1970 + (400 * d) / 146097 in
  if DayFromYear (y + 1) <=? d then y + 1
  else if DayFromYear y <=? d then y
  else y - 1.

Definition YearFromTime (t : Z) : Z := YearFromDay (Day t).

Definition DayWithinYear (t : Z) : Z := Day t - DayFromYear (YearFromTime t).

(** Day number within the year on which month [m] (0 = January) starts. *)
Definition monthStart (m leap : Z) : Z :=
  match m with
  | 0 => 0
  | 1 => 31
  | 2 => 59 + leap
  | 3 => 90 + leap
  | 4 => 120 + leap
  | 5 => 151 + leap
  | 6 => 181 + leap
  | 7 => 212 + leap
  | 8 => 243 + leap
  | 9 => 273 + leap
  | 10 => 304 + leap
  | _ => 334 + leap
  end.

Definition monthOfYearDay (dwy leap : Z) : Z :=
  if dwy <? 31 then 0
  else if dwy <? 59 + leap then 1
  else if dwy <? 90 + leap then 2
  else if dwy <? 120 + leap then 3
  else if dwy <? 151 + leap then 4
  else if dwy <? 181 + leap then 5
  else if dwy <? 212 + leap then 6
  else if dwy <? 243 + leap then 7
  else if dwy <? 273 + leap then 8
  else if dwy <? 304 + leap then 9
  else if dwy <? 334 + leap then 10
  else 11.

Definition MonthFromTime (t : Z) : Z :=
  monthOfYearDay (DayWithinYear t) (InLeapYear (YearFromTime t)).

Definition DateFromTime (t : Z) : Z :=
  DayWithinYear t - monthStart (MonthFromTime t) (InLeapYear (YearFromTime t)) + 1.

Definition HourFromTime (t : Z) : Z := (t / 3600000) mod 24.
Definition MinFromTime (t : Z) : Z := (t / 60000) mod 60.
Definition SecFromTime (t : Z) : Z := (t / 1000) mod 60.
Definition msFromTime (t : Z) : Z := t mod 1000.

(** [MakeDay(year, month, date)]: the day number of the first of the month,
    months beyond the year carried into the year, plus [date - 1]. *)
Definition MakeDay (year month date : Z) : Z :=
  let ym := year + month / 12 in
  let mn := month mod 12 in
  DayFromYear ym + monthStart mn (InLeapYear ym) + date - 1.

Definition MakeDate (day time : Z) : Z := day * msPerDay + time.

(** [TimeClip]: time values beyond 100,000,000 days from the epoch are NaN. *)
Definition TimeClip (t : Z) : timevalue :=
  if Z.abs t <=? 8640000000000000 then Some t else None.

Definition DaysInMonth (y m : Z) : Z :=
  match m with
  | 1 => 28 + InLeapYear y
  | 3 | 5 | 8 | 10 => 30
  | _ => 31
  end.

End ES.

(** ** Decimal fields of date strings *)

Definition digit_char (n : Z) : ascii := ascii_of_nat (48 + Z.to_nat n).

(** The last [w] decimal digits of [n], most significant first. *)
Fixpoint pad (w : nat) (n : Z) : list ascii :=
  match w with
  | O => []
  | S w' => pad w' (n / 10) ++ [digit_char (n mod 10)]
  end.

Definition digit_val (c : ascii) : option Z :=
  let n := Z.of_nat (nat_of_ascii c) in
  if (48 <=? n) && (n <=? 57) then Some (n - 48) else None.

(** The number a run of decimal digits denotes, [acc] being the value of the
    digits already read; [None] when a character is not a digit. *)
Fixpoint read_digits (acc : Z) (cs : list ascii) : option Z :=
  match cs with
  | [] => Some acc
  | c :: cs' =>
      match digit_val c with
      | Some v => read_digits (10 * acc + v) cs'
      | None => None
      end
  end.

Definition chars (s : string) : list ascii := list_ascii_of_string s.
Definition str (cs : list ascii) : string := string_of_list_ascii cs.

(** ** [Date.prototype.toISOString] *)

(** The date part: four digits for the years 0 to 9999, a sign and six
    digits otherwise. *)
Definition iso_year (y : Z) : list ascii :=
  if (0 <=? y) && (y <=? 9999) then pad 4 y
  else (if 0 <=? y then "+"%char else "-"%char) :: pad 6 (Z.abs y).

Definition iso_date_chars (t : Z) : list ascii :=
  iso_year (ES.YearFromTime t) ++ "-"%char :: pad 2 (ES.MonthFromTime t + 1)
    ++ "-"%char :: pad 2 (ES.DateFromTime t).

Definition iso_time_chars (t : Z) : list ascii :=
  "T"%char :: pad 2 (ES.HourFromTime t) ++ ":"%char :: pad 2 (ES.MinFromTime t)
    ++ ":"%char :: pad 2 (ES.SecFromTime t) ++ "."%char :: pad 3 (ES.msFromTime t)
    ++ ["Z"%char].

(** Throws a [RangeError] on an invalid date. *)
Definition toISOString (tv : timevalue) : completion string :=
  match tv with
  | None => Throw RangeError
  | Some t => Normal (str (iso_date_chars t ++ iso_time_chars t))
  end.

(** [s.slice(0, 10)] *)
Definition slice_0_10 (s : string) : string := String.substring 0 10 s.

(** What [toISOString().slice(0, 10)] leaves of the time value [t]. *)
Definition date_key (t : Z) : string :=
  slice_0_10 (str (iso_date_chars t ++ iso_time_chars t)).

(** The calendar date, as [YYYY-MM-DD], of the day numbered [d] from the
    epoch. *)
Definition iso_day (d : Z) : string := str (iso_date_chars (d * ES.msPerDay)).

(** ** [Date.parse] *)

(** How a string fares against the date-only forms of the Date Time String
    Format ([YYYY], [YYYY-MM], [YYYY-MM-DD], the year possibly expanded to a
    sign and six digits): it denotes a time value, it has the form but an
    out-of-bounds field (NaN), or it is not of that form. *)
Inductive iso_result :=
  | IsoTime (t : Z)
  | IsoIllegal
  | IsoOther.

Definition parse_year (cs : list ascii) : option (Z * list ascii) :=
  match cs with
  | sg :: a :: b :: c :: d :: e :: f :: rest =>
      if Ascii.eqb sg "+" || Ascii.eqb sg "-" then
        match read_digits 0 [a; b; c; d; e; f] with
        | Some y => Some (if Ascii.eqb sg "-" then - y else y, rest)
        | None => None
        end
      else
        match read_digits 0 [sg; a; b; c] with
        | Some y => Some (y, d :: e :: f :: rest)
        | None => None
        end
  | a :: b :: c :: d :: rest =>
      match read_digits 0 [a; b; c; d] with
      | Some y => Some (y, rest)
      | None => None
      end
  | _ => None
  end.

(** The year "-000000" is not a year of the format: a string that begins
    with it is left to the host, as every string out of the format is. *)
Definition minus_zero_year (cs : list ascii) : bool :=
  match cs with
  | sg :: a :: b :: c :: d :: e :: f :: _ =>
      Ascii.eqb sg "-" && bool_decide (read_digits 0 [a; b; c; d; e; f] = Some 0)
  | _ => false
  end.

(** A day of the month past the month's length but no greater than 31 (the
    30th of February) is read differently by different engines: it is left
    to the host. *)
Definition iso_fields (y m d : Z) : iso_result :=
  if negb ((1 <=? m) && (m <=? 12)) then IsoIllegal
  else if negb ((1 <=? d) && (d <=? 31)) then IsoIllegal
  else if ES.DaysInMonth y (m - 1) <? d then IsoOther
  else IsoTime (ES.MakeDate (ES.MakeDay y (m - 1) d) 0).

Definition iso_parse (s : string) : iso_result :=
  match parse_year (chars s) with
  | None => IsoOther
  | Some (y, rest) =>
      if minus_zero_year (chars s) then IsoOther else
      match rest with
      | [] => iso_fields y 1 1
      | [dash; m1; m2] =>
          if Ascii.eqb dash "-" then
            match read_digits 0 [m1; m2] with
            | Some m => iso_fields y m 1
            | None => IsoOther
            end
          else IsoOther
      | [dash; m1; m2; dash'; d1; d2] =>
          if Ascii.eqb dash "-" && Ascii.eqb dash' "-" then
            match read_digits 0 [m1; m2], read_digits 0 [d1; d2] with
            | Some m, Some d => iso_fields y m d
            | _, _ => IsoOther
            end
          else IsoOther
      | _ => IsoOther
      end
  end.

(** A string of the shape [YYYY-MM-DD]: ten characters, digits around two
    hyphens. *)
Definition is_digit (c : ascii) : bool := bool_decide (is_Some (digit_val c)).

Definition canonical (s : string) : bool :=
  match chars s with
  | [y3; y2; y1; y0; h; m1; m0; h'; d1; d0] =>
      forallb is_digit [y3; y2; y1; y0; m1; m0; d1; d0]
      && Ascii.eqb h "-" && Ascii.eqb h' "-"
  | _ => false
  end.

(** ** The host environment *)

(** What the script takes from the engine it runs in: the local time zone,
    as the offset [LocalTZA(t, isUTC)] in milliseconds, and the parser's
    answer for the strings that are not in a date-only form (forms with a
    time of day, and whatever else the engine chooses to recognise). *)
Record Host := {
  LocalTZA : Z -> bool -> Z;
  host_parse : string -> timevalue;
}.

(** ** [ToString] and [ToPrimitive] on JSON data *)

(** An object made by [JSON.parse] has a member of its own exactly where the
    text names one. *)
Definition has_own (k : string) (fields : list (string * json)) : bool :=
  match assoc k fields with
  | Some _ => true
  | None => false
  end.

(** [ToString], which for an array or an object goes through [ToPrimitive].
    An array is joined by [Array.prototype.toString]: its elements are
    converted in turn, [null] written as nothing, and put together with
    commas.  An object answers
    [Object.prototype.toString], unless it has a [toString] of its own: a
    member read from JSON is data, not a function, [valueOf], its own or
    inherited, gives no primitive either, and the conversion throws a
    [TypeError].  The conversion to a primitive that [new Date] asks for
    tries [valueOf] first and ends the same way. *)
Fixpoint join_commas (parts : list string) : string :=
  match parts with
  | [] => ""
  | [a] => a
  | a :: rest => a +:+ "," +:+ join_commas rest
  end.

Fixpoint to_string (j : json) : completion string :=
  match j with
  | JNull => Normal "null"
  | JBool true => Normal "true"
  | JBool false => Normal "false"
  | JNum x => Normal (num_string x)
  | JStr s => Normal s
  | JArr items =>
      parts ← (fix each (l : list json) : completion (list string) :=
                 match l with
                 | [] => Normal []
                 | x :: l' =>
                     a ← match x with JNull => Normal "" | _ => to_string x end;
                     rest ← each l';
                     Normal (a :: rest)
                 end) items;
      Normal (join_commas parts)
  | JObj fields =>
      if has_own "toString" fields then Throw TypeError
      else Normal "[object Object]"
  end.

(** What [join] writes for an element. *)
Definition element_string (x : json) : completion string :=
  match x with
  | JNull => Normal ""
  | _ => to_string x
  end.

(** [TimeClip] of a number: NaN for an infinity and beyond 8.64e15,
    otherwise the number cut to its integral part. *)
Definition TimeClip_number (x : number) : timevalue :=
  match num_value x with
  | Some q =>
      if Z.abs (Qnum q) <=? 8640000000000000 * Z.pos (Qden q)
      then Some (Z.quot (Qnum q) (Z.pos (Qden q)))
      else None
  | None => None
  end.

Section WithHost.

Variable host : Host.

Definition LocalTime (t : Z) : Z := t + LocalTZA host t true.
Definition UTC (t : Z) : Z := t - LocalTZA host t false.

Definition Date_parse (s : string) : timevalue :=
  match iso_parse s with
  | IsoTime t => Some t
  | IsoIllegal => None
  | IsoOther => host_parse host s
  end.

(** [new Date(value)]: a [Date] is copied; otherwise the value is converted
    to a primitive, which may throw, a string is parsed and anything else is
    converted to a number; the result is clipped. *)
Definition new_Date (v : jsval) : completion timevalue :=
  match v with
  | DateObj tv => Normal (tv ≫= ES.TimeClip)
  | Undefined => Normal None
  | Json JNull => Normal (ES.TimeClip 0)
  | Json (JBool b) => Normal (ES.TimeClip (if b then 1 else 0))
  | Json (JNum x) => Normal (TimeClip_number x)
  | Json (JStr s) => Normal (Date_parse s ≫= ES.TimeClip)
  | Json j => s ← to_string j; Normal (Date_parse s ≫= ES.TimeClip)
  end.

(** [d.getDate()]: the local day of the month, NaN on an invalid date. *)
Definition getDate (tv : timevalue) : option Z :=
  t ← tv; Some (ES.DateFromTime (LocalTime t)).

(** [d.setDate(dt)]: the new time value of [d]. *)
Definition setDate (tv : timevalue) (dt : option Z) : timevalue :=
  match tv with
  | None => None
  | Some t0 =>
      let t := LocalTime t0 in
      match dt with
      | None => None
      | Some dt =>
          let newDate :=
            ES.MakeDate (ES.MakeDay (ES.YearFromTime t) (ES.MonthFromTime t) dt)
                        (ES.TimeWithinDay t) in
          ES.TimeClip (UTC newDate)
      end
  end.

(** ** The script *)

(** [formatDate]: lines 35-38. *)
Definition formatDate (date : jsval) : completion string :=
  d ← match date with
      | DateObj tv => Normal tv
      | _ => new_Date date
      end;
  s ← toISOString d;
  Normal (slice_0_10 s).

(** [nineDatesFrom]: lines 95-104. *)
Definition nineDatesFrom (startIso : string) : completion (list string) :=
  start ← new_Date (Json (JStr startIso));
  map_throwing (fun i =>
          d ← new_Date (DateObj start);
          let d := setDate d (n ← getDate start; Some (n + i)) in
          formatDate (DateObj d))
       (seqZ 0 9).

(** The zone's offset is steady over the window that starts at the time
    value [t0]: each of the nine local times the loop of [nineDatesFrom]
    sets is read with the offset in force at [t0]. *)
Definition offset_steady (t0 : Z) : Prop :=
  forall i, 0 <= i < 9 ->
    LocalTZA host (LocalTime t0 + i * ES.msPerDay) false = LocalTZA host t0 true.

(** *** The feed loader *)

(** How the request for the feed settles: the transport fails, or a
    response arrives with its status and a body that is JSON text or not. *)
Inductive body :=
  | BodyNotJson
  | BodyJson (j : json).

Inductive fetch_outcome :=
  | FetchFailed
  | Response (status : Z) (b : body).

(** [res.ok] *)
Definition ok (status : Z) : bool := (200 <=? status) && (status <=? 299).

(** [res.json()] *)
Definition res_json (b : body) : completion json :=
  match b with
  | BodyNotJson => Throw SyntaxError
  | BodyJson j => Normal j
  end.

(** The own enumerable members [{...item}] copies.  Those of a string are
    read here off its bytes; no item that is a string or an array is ever
    normalised, its [date] being [undefined]. *)
Definition spread (item : json) : list (string * json) :=
  match item with
  | JObj fields => fields
  | JArr items => imap (fun i x => (decimal (Z.of_nat i), x)) items
  | JStr s =>
      imap (fun i c => (decimal (Z.of_nat i), JStr (String c EmptyString)))
           (chars s)
  | _ => []
  end.

(** [{...fields, date: d}]: the member keeps its place when it is there. *)
Fixpoint with_date (fields : list (string * json)) (d : json) : list (string * json) :=
  match fields with
  | [] => [("date"%string, d)]
  | (k, v) :: rest =>
      if String.eqb "date" k then (k, d) :: rest else (k, v) :: with_date rest d
  end.

(** [item => ({ ...item, date: formatDate(item.date) })] *)
Definition normalize_item (item : json) : completion json :=
  let copied := spread item in
  date ← member_date item;
  d ← formatDate date;
  Normal (JObj (with_date copied (JStr d))).

(** [fetchClassFeed]: lines 57-74. *)
Definition fetchClassFeed (o : fetch_outcome) : completion (list json) :=
  try_catch
    (match o with
     | FetchFailed => Throw TypeError
     | Response status b =>
         if negb (ok status) then Normal []
         else
           json ← res_json b;
           match json with
           | JArr items => map_throwing normalize_item items
           | _ => Normal []
           end
     end)
    (fun err => Normal []).

(** [fetchApodRange], lines 79-82: the [start_date] and [end_date] of the
    request, which is not sent when either [formatDate] throws. *)
Definition apod_range (startIso : string) : completion (string * string) :=
  start ← new_Date (Json (JStr startIso));
  end_ ← new_Date (DateObj start);
  let end_ := setDate end_ (n ← getDate start; Some (n + 8)) in
  start_date ← formatDate (DateObj start);
  end_date ← formatDate (DateObj end_);
  Normal (start_date, end_date).

(** [fetchApodRange]: lines 77-92, for a request that settles as [o] when it
    is sent; the handling of the outcome throws where [fetchClassFeed]
    returns early. *)
Definition fetchApodRange (startIso : string) (o : fetch_outcome)
  : completion (list json) :=
  try_catch
    (range ← apod_range startIso;
     match o with
     | FetchFailed => Throw TypeError
     | Response status b =>
         if negb (ok status) then Throw Error
         else
           json ← res_json b;
           match json with
           | JArr items => map_throwing normalize_item items
           | _ => Throw Error
           end
     end)
    (fun err => Normal []).

(** *** The range reconciler *)

(** The body of the [forEach] at lines 218-220. *)
Definition index_entry (feedByDate : gmap string json) (entry : json)
  : completion (gmap string json) :=
  if truthy (Json entry) && truthy (get_date entry) then
    k ← formatDate (get_date entry);
    Normal (<[k := entry]> feedByDate)
  else Normal feedByDate.

(** The key under which [index_entry] files an entry, [None] for an entry
    it passes over. *)
Definition entry_key (entry : json) : completion (option string) :=
  if truthy (Json entry) && truthy (get_date entry) then
    k ← formatDate (get_date entry);
    Normal (Some k)
  else Normal None.

Definition has_key (k : string) (v : jsval) : bool :=
  match v with
  | Json e => bool_decide (entry_key e = Normal (Some k))
  | _ => false
  end.

(** The keys of the entries of a feed that are filed, in feed order. *)
Definition feed_keys (feed : list json) : list string :=
  omap (fun e => match entry_key e with
                 | Normal (Some k) => Some k
                 | _ => None
                 end) feed.

(** [feedByDate.get(date)] *)
Definition Map_get (m : gmap string json) (k : string) : jsval :=
  from_option Json Undefined (m !! k).

(** Lines 216-226 of [handleFetch]: the lookup, the window and the
    projection. *)
Definition reconcile (startIso : string) (feed : list json) : completion (list jsval) :=
  feedByDate ← forEach index_entry ∅ feed;
  wantedDates ← nineDatesFrom startIso;
  Normal (filter (fun v => truthy v) (map (Map_get feedByDate) wantedDates)).

End WithHost.

(** ** Two hosts *)

(** An engine in the UTC time zone whose parser recognises the standard
    forms only. *)
Definition utc_host : Host :=
  {| LocalTZA := fun _ _ => 0; host_parse := fun _ => None |}.

(** The same engine in the US Eastern zone, with the rules of the year 2021:
    daylight-saving time from 2021-03-14T07:00Z to 2021-11-07T06:00Z.  A
    local time the clocks skip or repeat is read with the offset in force
    before the transition. *)
Definition us_eastern_2021 : Host :=
  {| LocalTZA := fun t isUTC =>
       if isUTC then
         if (1615705200000 <=? t) && (t <? 1636264800000) then -14400000 else -18000000
       else
         if (1615690800000 <=? t) && (t <? 1636250400000) then -14400000 else -18000000;
     host_parse := fun _ => None |}.

(** ** The rest of the script *)

Section RestOfScript.

Variable host : Host.

(** [init], lines 251-254: the value the start-date input is given when the
    clock reads [now]. *)
Definition default_start (now : Z) : completion string :=
  let today := Some now in
  defaultStart ← new_Date host (DateObj today);
  let defaultStart := setDate host defaultStart (n ← getDate host today; Some (n - 8)) in
  formatDate host (DateObj defaultStart).

End RestOfScript.

(** *** Text inserted into markup *)

(** [s.replace(/c/g, r)] for a pattern of one character. *)
Fixpoint replace_all (c : ascii) (r : list ascii) (s : list ascii) : list ascii :=
  match s with
  | [] => []
  | x :: s' => (if Ascii.eqb x c then r else [x]) ++ replace_all c r s'
  end.

Section Escaping.

(** [Date.prototype.toString], whose format is the engine's. *)
Variable Date_toString : timevalue -> string.

(** [String(v)], and the conversion of a value put in a template or
    assigned where a string is expected. *)
Definition String_of (v : jsval) : completion string :=
  match v with
  | Undefined => Normal "undefined"
  | Json j => to_string j
  | DateObj tv => Normal (Date_toString tv)
  end.

(** [escapeHtml]: line 32. *)
Definition escapeHtml (s : jsval) : completion string :=
  if truthy s then
    t ← String_of s;
    Normal (str (replace_all ">" (chars "&gt;")
                   (replace_all "<" (chars "&lt;")
                      (replace_all "&" (chars "&amp;") (chars t)))))
  else Normal "".

End Escaping.

(** What [escapeHtml] writes for one character. *)
Definition escape_char (c : ascii) : list ascii :=
  if Ascii.eqb c "&" then chars "&amp;"
  else if Ascii.eqb c "<" then chars "&lt;"
  else if Ascii.eqb c ">" then chars "&gt;"
  else [c].

(** The first two bytes of a surrogate without its pair. *)
Definition surrogate_bytes (a b : ascii) : bool :=
  (nat_of_ascii a =? 237)%nat
  && (160 <=? nat_of_ascii b)%nat && (nat_of_ascii b <=? 191)%nat.

(** The string holds a surrogate without its pair. *)
Fixpoint lone_surrogate (cs : list ascii) : bool :=
  match cs with
  | [] => false
  | a :: tl =>
      match tl with
      | b :: _ => surrogate_bytes a b
      | [] => false
      end || lone_surrogate tl
  end.

(** The conversion to a [USVString], which the [src] of an image takes: each
    surrogate without its pair becomes U+FFFD. *)
Fixpoint usv (cs : list ascii) : list ascii :=
  match cs with
  | [] => []
  | a :: tl =>
      match tl with
      | b :: _ :: rest =>
          if surrogate_bytes a b
          then ascii_of_nat 239 :: ascii_of_nat 191 :: ascii_of_nat 189 :: usv rest
          else a :: usv tl
      | _ => a :: usv tl
      end
  end.

(** [encodeURIComponent]: a [URIError] on a surrogate without its pair;
    otherwise the unreserved characters stand for themselves and every other
    byte of the UTF-8 form is written as [%XX]. *)
Definition unreserved (c : ascii) : bool :=
  let n := nat_of_ascii c in
  ((48 <=? n) && (n <=? 57))%nat || ((65 <=? n) && (n <=? 90))%nat
  || ((97 <=? n) && (n <=? 122))%nat
  || existsb (Ascii.eqb c) (chars "-_.!~*'()").

Definition hex_digit (n : nat) : ascii :=
  if (n <? 10)%nat then ascii_of_nat (48 + n) else ascii_of_nat (55 + n).

Definition encode_byte (c : ascii) : list ascii :=
  if unreserved c then [c]
  else ["%"%char; hex_digit (nat_of_ascii c / 16); hex_digit (nat_of_ascii c mod 16)].

Definition encodeURIComponent (s : string) : completion string :=
  if lone_surrogate (chars s) then Throw URIError
  else Normal (str (flat_map encode_byte (chars s))).

(** *** The video embed of [openModal] *)

Fixpoint is_prefix (p s : list ascii) : bool :=
  match p, s with
  | [], _ => true
  | a :: p', b :: s' => Ascii.eqb a b && is_prefix p' s'
  | _ :: _, [] => false
  end.

(** A character [escapeHtml] leaves as it is. *)
Definition plain_char (c : ascii) : Prop :=
  c <> "&"%char /\ c <> "<"%char /\ c <> ">"%char.

(** What follows an ampersand that begins one of the entities [escapeHtml]
    writes. *)
Definition begins_entity (post : list ascii) : bool :=
  is_prefix (chars "amp;") post || is_prefix (chars "lt;") post
  || is_prefix (chars "gt;") post.

(** No occurrence of [sep] starts within [a] when [a] is followed by [tl]. *)
Definition no_early (sep a tl : list ascii) : Prop :=
  forall a1 a2, a = a1 ++ a2 -> a2 <> [] -> is_prefix sep (a2 ++ tl) = false.

(** [s.includes(sub)] *)
Fixpoint includes_chars (sub s : list ascii) : bool :=
  is_prefix sub s ||
  match s with
  | [] => false
  | _ :: s' => includes_chars sub s'
  end.

Definition includes (sub s : string) : bool := includes_chars (chars sub) (chars s).

(** [s.split(sep)] for a separator that is not empty: [cur] holds the piece
    being read, reversed, and [skip] the characters of a separator just
    found that are still to pass. *)
Fixpoint split_go (sep : list ascii) (skip : nat) (cur s : list ascii)
  : list (list ascii) :=
  match s with
  | [] => [rev cur]
  | c :: s' =>
      match skip with
      | S k => split_go sep k cur s'
      | O =>
          if is_prefix sep s then rev cur :: split_go sep (length sep - 1) [] s'
          else split_go sep 0 (c :: cur) s'
      end
  end.

Definition split_chars (sep s : list ascii) : list (list ascii) := split_go sep 0 [] s.

Definition split (sep s : string) : list string := str <$> split_chars (chars sep) (chars s).

(** Line 161, for a [url] that is a string: the piece after the first
    ["v="] up to the next ["&"], or else what follows the last ["/"].
    [None] stands for [undefined]; reading [split] of [undefined] throws. *)
Definition video_id (url : string) : completion (option string) :=
  if includes "v=" url then
    match split "v=" url !! 1%nat with
    | Some piece => Normal (split "&" piece !! 0%nat)
    | None => Throw TypeError
    end
  else Normal (last (split "/" url)).

Definition quote_char : ascii := ascii_of_nat 34.
Definition quoted (s : string) : string :=
  String quote_char (s +:+ String quote_char EmptyString).

(** The link of line 164, around an address already escaped. *)
Definition link_markup (href : string) : string :=
  "<a href=" +:+ quoted href
  +:+ " target=" +:+ quoted "_blank" +:+ " rel=" +:+ quoted "noopener"
  +:+ ">Open video in new tab</a>".

(** [a.includes(s)] on an array, for a string [s]. *)
Definition array_includes (s : string) (a : list json) : bool :=
  existsb (fun x => match x with JStr t => String.eqb t s | _ => false end) a.

Section Embed.

Variable Date_toString : timevalue -> string.

(** Lines 160-165, for a [url] that is a string: the markup of the embed. *)
Definition embed_markup (url : string) : completion string :=
  if negb (String.eqb url "")
     && (includes "youtube.com" url || includes "youtu.be" url) then
    vidId ← video_id url;
    encoded ← encodeURIComponent (from_option id "undefined" vidId);
    Normal ("<iframe width=" +:+ quoted "100%" +:+ " height=" +:+ quoted "480"
            +:+ " src=" +:+ quoted ("https://www.youtube.com/embed/" +:+ encoded)
            +:+ " frameborder=" +:+ quoted "0" +:+ " allowfullscreen></iframe>")
  else
    href ← escapeHtml Date_toString (Json (JStr url));
    Normal (link_markup href).

(** Lines 160-165 for any [item.url].  A falsy one takes the link.  A string
    is handled above.  An array has an [includes] of its own, which looks
    for an element, and no [split]; a number, [true], an object or a date
    has no [includes] to call. *)
Definition embed_innerHTML (url : jsval) : completion string :=
  match url with
  | Json (JStr s) => embed_markup s
  | Json (JArr a) =>
      if array_includes "youtube.com" a || array_includes "youtu.be" a
      then Throw TypeError
      else href ← escapeHtml Date_toString url; Normal (link_markup href)
  | _ =>
      if truthy url then Throw TypeError
      else href ← escapeHtml Date_toString url; Normal (link_markup href)
  end.

End Embed.

(** ** The cards, the page and the modal *)

(** [item.k] for an item read from JSON: only an object carries members of
    these names. *)
Definition member (k : string) (j : json) : jsval :=
  match j with
  | JObj fields => from_option Json Undefined (assoc k fields)
  | _ => Undefined
  end.

(** [item.k] for any value: reading a member of [null] or of [undefined]
    throws, and a [Date] has no member of these names. *)
Definition member_of (k : string) (v : jsval) : completion jsval :=
  match v with
  | Undefined | Json JNull => Throw TypeError
  | Json j => Normal (member k j)
  | DateObj _ => Normal Undefined
  end.

(** [a || b] *)
Definition or_else (a b : jsval) : jsval := if truthy a then a else b.

(** What [openModal] reads of its argument. *)
Record item := {
  item_media_type : jsval;
  item_url : jsval;
  item_title : jsval;
  item_date : jsval;
  item_explanation : jsval;
}.

(** [item.media_type === 'video'] *)
Definition is_video (v : jsval) : bool :=
  match v with
  | Json (JStr s) => String.eqb s "video"
  | _ => false
  end.

(** A line break of the card's template and the spaces that follow it. *)
Definition indent (n : nat) : string :=
  String (ascii_of_nat 10) (str (repeat " "%char n)).

(** The template of lines 124-133, around the six values put in it. *)
Definition card_html (label src alt heading datetime date : string) : string :=
  indent 8 +:+ "<div class=" +:+ quoted "thumb" +:+ " role=" +:+ quoted "button"
  +:+ " tabindex=" +:+ quoted "0" +:+ " aria-label=" +:+ quoted ("Open " +:+ label)
  +:+ ">"
  +:+ indent 10 +:+ "<img src=" +:+ quoted src +:+ " alt=" +:+ quoted alt
  +:+ " loading=" +:+ quoted "lazy" +:+ " />"
  +:+ indent 8 +:+ "</div>"
  +:+ indent 8 +:+ "<div class=" +:+ quoted "meta" +:+ ">"
  +:+ indent 10 +:+ "<h3>" +:+ heading +:+ "</h3>"
  +:+ indent 10 +:+ "<time datetime=" +:+ quoted datetime +:+ ">" +:+ date +:+ "</time>"
  +:+ indent 8 +:+ "</div>"
  +:+ indent 6.

(** *** The page *)

Record button := { disabled : bool; has_loading_class : bool }.

(** The gallery: as the page's markup has it, holding the placeholder, or
    holding cards, each card standing as the item it was made of. *)
Inductive gallery :=
  | Untouched
  | Placeholder
  | Cards (tiles : list jsval).

(** The elements the script looks up ([None]: not in the document), with
    the state it reads and writes, and the alerts shown so far. *)
Record Page := {
  startDateInput : option string;
  loadingEl : option bool;
  getImageBtn : option button;
  galleryEl : option gallery;
  alerts : list string;
}.

(** [setLoading]: lines 48-54. *)
Definition setLoading (show : bool) (p : Page) : Page :=
  match loadingEl p, getImageBtn p with
  | Some _, Some _ =>
      {| startDateInput := startDateInput p;
         loadingEl := Some (negb show);
         getImageBtn := Some {| disabled := show; has_loading_class := show |};
         galleryEl := galleryEl p;
         alerts := alerts p |}
  | _, _ => p
  end.

Definition alert (msg : string) (p : Page) : Page :=
  {| startDateInput := startDateInput p;
     loadingEl := loadingEl p;
     getImageBtn := getImageBtn p;
     galleryEl := galleryEl p;
     alerts := alerts p ++ [msg] |}.

(** What the gallery holds is replaced. *)
Definition set_gallery (g : gallery) (p : Page) : Page :=
  {| startDateInput := startDateInput p;
     loadingEl := loadingEl p;
     getImageBtn := getImageBtn p;
     galleryEl := Some g;
     alerts := alerts p |}.

Definition USE_APOD : bool := false.

(** One run of [handleFetch]: the page while the request is outstanding
    ([None] when none was issued) and the page once the handler is done. *)
Record run := {
  outstanding : option Page;
  settled : Page;
}.

Section ThePage.

Variable host : Host.
Variable Date_toString : timevalue -> string.

(** Lines 119-121 and 136: the three constants of a card, and with them the
    object its thumb opens the modal with,
    [{ ...item, url: imgUrl, title, explanation }].  The template of the
    title is evaluated only when the item has no title. *)
Definition card_item (v : jsval) : completion item :=
  url ← member_of "url" v;
  title ← member_of "title" v;
  title ←
    (if truthy title then Normal title
     else
       date ← member_of "date" v;
       s ← String_of Date_toString (or_else date (Json (JStr "")));
       Normal (Json (JStr ("Image " +:+ s))));
  explanation ← member_of "explanation" v;
  media_type ← member_of "media_type" v;
  date ← member_of "date" v;
  Normal {| item_media_type := media_type;
            item_url := or_else url (Json (JStr ""));
            item_title := title;
            item_date := date;
            item_explanation := or_else explanation (Json (JStr "")) |}.

(** Lines 119-133: the markup of the card of an item, the values of the
    template converted from left to right. *)
Definition card_markup (v : jsval) : completion string :=
  it ← card_item v;
  label ← escapeHtml Date_toString (item_title it);
  src ← String_of Date_toString (item_url it);
  alt ← escapeHtml Date_toString (item_title it);
  heading ← escapeHtml Date_toString (item_title it);
  datetime ← String_of Date_toString (or_else (item_date it) (Json (JStr "")));
  date ← String_of Date_toString (or_else (item_date it) (Json (JStr "")));
  Normal (card_html label src alt heading datetime date).

(** The [forEach] of lines 118-142: the cards are appended in order, up to
    the first whose making throws. *)
Fixpoint append_cards (tiles shown : list jsval) : list jsval * option exn :=
  match tiles with
  | [] => (shown, None)
  | tile :: rest =>
      match card_markup tile with
      | Normal _ => append_cards rest (shown ++ [tile])
      | Throw err => (shown, Some err)
      end
  end.

(** [renderGallery]: lines 107-143, with the exception it ends on, if any.
    The gallery is emptied first, which throws on a page without one. *)
Definition renderGallery (items : list jsval) (p : Page) : Page * option exn :=
  match galleryEl p with
  | None => (p, Some TypeError)
  | Some _ =>
      match items with
      | [] => (set_gallery Placeholder p, None)
      | _ =>
          let '(shown, thrown) := append_cards (take 9 items) [] in
          (set_gallery (Cards shown) p, thrown)
      end
  end.

(** [handleFetch]: lines 191-235, for a request that settles as [o].  The
    logging at lines 209-214 swallows its own exceptions and touches neither
    the feed nor the page; the [finally] block runs on every path, the early
    return included. *)
Definition handleFetch (p : Page) (o : fetch_outcome) : run :=
  match startDateInput p with
  | Some startIso =>
      if String.eqb startIso "" then
        {| outstanding := None;
           settled := setLoading false (alert "Please choose a start date first." p) |}
      else
        let p1 := setLoading true p in
        let '(p2, thrown) :=
          match (feed ← (if USE_APOD then fetchApodRange host startIso o
                         else fetchClassFeed host o);
                 reconcile host startIso feed) with
          | Normal results => renderGallery results p1
          | Throw err => (p1, Some err)
          end in
        let p3 :=
          match thrown with
          | Some err =>
              alert "An error occurred while fetching images. See the console for details." p2
          | None => p2
          end in
        {| outstanding := Some p1; settled := setLoading false p3 |}
  | None =>
      {| outstanding := None;
         settled := setLoading false (alert "Please choose a start date first." p) |}
  end.

End ThePage.

(** *** The modal *)

(** The modal of the page, with what the script reads and writes of it:
    [modalEl.hidden], the image's [style.display], [src] and [alt], the three
    texts, the [.modal-embed] elements of the modal in document order, each
    standing for its [innerHTML], and the [overflow] of the body.  The image,
    the texts, [.modal-content] and [.modal-meta] belong to the page's
    markup, which the script takes as given. *)
Record Modal := {
  modal_hidden : bool;
  image_display : string;
  image_src : string;
  image_alt : string;
  title_text : string;
  date_text : string;
  explanation_text : string;
  embeds : list string;
  body_overflow : string;
}.

Definition set_modal_hidden (b : bool) (m : Modal) : Modal :=
  {| modal_hidden := b; image_display := image_display m; image_src := image_src m;
     image_alt := image_alt m; title_text := title_text m; date_text := date_text m;
     explanation_text := explanation_text m; embeds := embeds m;
     body_overflow := body_overflow m |}.

Definition set_image_display (s : string) (m : Modal) : Modal :=
  {| modal_hidden := modal_hidden m; image_display := s; image_src := image_src m;
     image_alt := image_alt m; title_text := title_text m; date_text := date_text m;
     explanation_text := explanation_text m; embeds := embeds m;
     body_overflow := body_overflow m |}.

Definition set_image_src (s : string) (m : Modal) : Modal :=
  {| modal_hidden := modal_hidden m; image_display := image_display m; image_src := s;
     image_alt := image_alt m; title_text := title_text m; date_text := date_text m;
     explanation_text := explanation_text m; embeds := embeds m;
     body_overflow := body_overflow m |}.

Definition set_image_alt (s : string) (m : Modal) : Modal :=
  {| modal_hidden := modal_hidden m; image_display := image_display m;
     image_src := image_src m; image_alt := s; title_text := title_text m;
     date_text := date_text m; explanation_text := explanation_text m;
     embeds := embeds m; body_overflow := body_overflow m |}.

Definition set_title_text (s : string) (m : Modal) : Modal :=
  {| modal_hidden := modal_hidden m; image_display := image_display m;
     image_src := image_src m; image_alt := image_alt m; title_text := s;
     date_text := date_text m; explanation_text := explanation_text m;
     embeds := embeds m; body_overflow := body_overflow m |}.

Definition set_date_text (s : string) (m : Modal) : Modal :=
  {| modal_hidden := modal_hidden m; image_display := image_display m;
     image_src := image_src m; image_alt := image_alt m; title_text := title_text m;
     date_text := s; explanation_text := explanation_text m;
     embeds := embeds m; body_overflow := body_overflow m |}.

Definition set_explanation_text (s : string) (m : Modal) : Modal :=
  {| modal_hidden := modal_hidden m; image_display := image_display m;
     image_src := image_src m; image_alt := image_alt m; title_text := title_text m;
     date_text := date_text m; explanation_text := s;
     embeds := embeds m; body_overflow := body_overflow m |}.

Definition set_embeds (l : list string) (m : Modal) : Modal :=
  {| modal_hidden := modal_hidden m; image_display := image_display m;
     image_src := image_src m; image_alt := image_alt m; title_text := title_text m;
     date_text := date_text m; explanation_text := explanation_text m;
     embeds := l; body_overflow := body_overflow m |}.

Definition set_body_overflow (s : string) (m : Modal) : Modal :=
  {| modal_hidden := modal_hidden m; image_display := image_display m;
     image_src := image_src m; image_alt := image_alt m; title_text := title_text m;
     date_text := date_text m; explanation_text := explanation_text m;
     embeds := embeds m; body_overflow := s |}.

(** A statement that converts a value to a string and stores it: the string
    is stored when the conversion returns and the statements that follow are
    run; when the conversion throws the function ends there, what was
    written before staying written. *)
Definition assign (c : completion string) (set : string -> Modal -> Modal)
    (next : Modal -> Modal * option exn) (m : Modal) : Modal * option exn :=
  match c with
  | Normal s => next (set s m)
  | Throw err => (m, Some err)
  end.

(** The events the script listens to: a click on the thumb of the card of an
    entry or a key pressed on it (lines 136-139), a click on the close
    button, a click on the modal, on its backdrop or inside (lines 239-244),
    a key pressed elsewhere (lines 245-247). *)
Inductive event :=
  | ThumbClick (entry : json)
  | ThumbKeyDown (key : string) (entry : json)
  | CloseClick
  | ModalClick (on_backdrop : bool)
  | KeyDown (key : string).

Section TheModal.

Variable Date_toString : timevalue -> string.

(** [openModal]: lines 146-178, on the modal ([None]: the page has none),
    with the exception it ends on, if any.  The embed is put before
    [.modal-meta]; with one embed at most the place among the embeds does
    not matter. *)
Definition openModal (it : item) (modalEl : option Modal)
    : option Modal * option exn :=
  match modalEl with
  | None => (None, None)
  | Some m =>
      let text v := String_of Date_toString (or_else v (Json (JStr ""))) in
      let texts :=
        assign (text (item_title it)) set_title_text
          (assign (text (item_date it)) set_date_text
             (assign (text (item_explanation it)) set_explanation_text
                (fun m => (set_body_overflow "hidden" (set_modal_hidden false m), None)))) in
      let m := set_embeds (tail (embeds m)) m in
      let '(m, thrown) :=
        if is_video (item_media_type it) then
          assign (embed_innerHTML Date_toString (item_url it))
                 (fun markup m => set_embeds (embeds m ++ [markup]) m)
                 texts
                 (set_image_display "none" m)
        else
          assign (text (item_url it)) (fun s => set_image_src (str (usv (chars s))))
                 (assign (text (item_title it)) set_image_alt texts)
                 (set_image_display "" m) in
      (Some m, thrown)
  end.

(** [closeModal]: lines 181-188. *)
Definition closeModal (modalEl : option Modal) : option Modal :=
  match modalEl with
  | None => None
  | Some m =>
      Some (set_body_overflow ""
              (set_embeds (tail (embeds m))
                 (set_image_src "" (set_modal_hidden true m))))
  end.

(** [ev.key === 'Escape' && modalEl && !modalEl.hidden] *)
Definition escape_closes (key : string) (modalEl : option Modal) : bool :=
  String.eqb key "Escape"
  && match modalEl with Some m => negb (modal_hidden m) | None => false end.

(** A click on the thumb of the card of an entry; there is such a thumb
    only when the card was made. *)
Definition thumb_click (entry : json) (modalEl : option Modal) : option Modal :=
  match card_markup Date_toString (Json entry), card_item Date_toString (Json entry) with
  | Normal _, Normal it => fst (openModal it modalEl)
  | _, _ => modalEl
  end.

(** The listeners of lines 136-139 and 238-247.  An exception thrown in a
    listener is reported and the page goes on as it is.  A key pressed on a
    thumb reaches the listener of the window after the thumb's. *)
Definition listen (ev : event) (modalEl : option Modal) : option Modal :=
  match ev with
  | ThumbClick entry => thumb_click entry modalEl
  | ThumbKeyDown key entry =>
      let modalEl :=
        if String.eqb key "Enter" || String.eqb key " "
        then thumb_click entry modalEl
        else modalEl in
      if escape_closes key modalEl then closeModal modalEl else modalEl
  | CloseClick => closeModal modalEl
  | ModalClick on_backdrop => if on_backdrop then closeModal modalEl else modalEl
  | KeyDown key => if escape_closes key modalEl then closeModal modalEl else modalEl
  end.

(** The page after a sequence of events. *)
Definition after (evs : list event) (modalEl : option Modal) : option Modal :=
  foldl (fun m ev => listen ev m) modalEl evs.

End TheModal.

(** The modal holds one embed at most, and none beside a displayed image. *)
Definition tidy (m : Modal) : Prop :=
  (length (embeds m) <= 1)%nat
  /\ (embeds m = [] \/ image_display m = "none"%string).

Definition entry_picture : json :=
  JObj [("date", JStr "2021-06-20"); ("title", JStr "Solstice");
        ("media_type", JStr "image"); ("url", JStr "https://example.org/a.jpg")]%string.
Definition entry_video : json :=
  JObj [("date", JStr "2021-06-21"); ("media_type", JStr "video");
        ("url", JStr "https://www.youtube.com/watch?v=abc123&t=5")]%string.
Definition entry_video_numbered : json :=
  JObj [("date", JStr "2021-06-22"); ("media_type", JStr "video");
        ("url", JNum (integer 7))]%string.

(** An address that ends in a surrogate without its pair. *)
Definition surrogate_address : string :=
  "https://youtu.be/" +:+ str [ascii_of_nat 237; ascii_of_nat 160; ascii_of_nat 128].
Definition entry_video_surrogate : json :=
  JObj [("date", JStr "2021-06-23"); ("media_type", JStr "video");
        ("url", JStr surrogate_address)]%string.

(** An explanation that cannot be converted to a string. *)
Definition entry_video_unexplained : json :=
  JObj [("date", JStr "2021-06-24"); ("title", JStr "Eclipse");
        ("media_type", JStr "video"); ("url", JStr "https://youtu.be/abc123");
        ("explanation", JObj [("toString", JNum (integer 1))])]%string.

(** A title that cannot be converted to a string. *)
Definition entry_untitled : json :=
  JObj [("date", JStr "2021-06-21");
        ("title", JObj [("toString", JNum (integer 1))])]%string.

Definition closed_modal : Modal :=
  {| modal_hidden := true;
     image_display := "";
     image_src := "";
     image_alt := "";
     title_text := "";
     date_text := "";
     explanation_text := "";
     embeds := [];
     body_overflow := "" |}.

(** How often the character [c] occurs in a string. *)
Definition count_char (c : ascii) (s : string) : nat :=
  length (filter (fun x => x = c) (chars s)).

(** *** The fact of the day *)

Definition FACTS : list string :=
  ["Jupiter's Great Red Spot is a storm larger than Earth.";
   "A day on Venus is longer than its year.";
   "Neutron stars can spin hundreds of times per second.";
   "Moon footprints may last millions of years because there's no wind to erase them."
  ]%string.

(** [Math.floor(Math.random() * FACTS.length)] for the draw [r]: a draw is a
    number of [[0, 1)], and its product with the length, a small power of
    two, is exact. *)
Definition fact_index (r : Q) : Z :=
  Qfloor (Qmult r (inject_Z (Z.of_nat (length FACTS)))).

(** [FACTS[i]], [undefined] off the list. *)
Definition fact_at (i : Z) : option string :=
  if 0 <=? i then FACTS !! Z.to_nat i else None.

(** [showRandomFact]: lines 41-45, on the text of the box ([None]: the page
    has no box). *)
Definition showRandomFact (r : Q) (didYouKnowEl : option string) : option string :=
  match didYouKnowEl with
  | None => None
  | Some _ =>
      Some ("💡 " +:+ from_option id "undefined" (fact_at (fact_index r)))
  end.

(** The last entry of the feed that [index_entry] files under [k]. *)
Definition last_filed (host : Host) (k : string) (feed : list json) : option json :=
  last (filter (fun e => entry_key host e = Normal (Some k)) feed).

(** ** Sample entries *)

Definition entry_0620 : json :=
  JObj [("date", JStr "2021-06-20"); ("title", JStr "Solstice")]%string.
Definition entry_0622 : json :=
  JObj [("title", JStr "Nebula"); ("date", JStr "2021-06-22")]%string.
Definition entry_0622_again : json :=
  JObj [("date", JStr "2021-06-22"); ("title", JStr "Nebula, reissued")]%string.
Definition entry_0701 : json :=
  JObj [("date", JStr "2021-07-01"); ("title", JStr "Comet")]%string.
Definition entry_0314 : json :=
  JObj [("date", JStr "2021-03-14"); ("title", JStr "Pi Day")]%string.
Definition entry_0314_again : json :=
  JObj [("date", JStr "2021-03-14"); ("title", JStr "Pi Day, reissued")]%string.
Definition entry_month_13 : json :=
  JObj [("date", JStr "2021-13-01"); ("title", JStr "Misdated")]%string.
Definition entry_undated : json :=
  JObj [("title", JStr "Undated")]%string.

Definition window_0620 : list string :=
  ["2021-06-20"; "2021-06-21"; "2021-06-22"; "2021-06-23"; "2021-06-24";
   "2021-06-25"; "2021-06-26"; "2021-06-27"; "2021-06-28"]%string.

(** What a [Date] is written as in the sample runs, where none is
    converted to a string: what every engine writes for an invalid date. *)
Definition sample_Date_toString : timevalue -> string := fun _ => "Invalid Date"%string.

Definition sample_page : Page :=
  {| startDateInput := Some "2021-06-20"%string;
     loadingEl := Some true;
     getImageBtn := Some {| disabled := false; has_loading_class := false |};
     galleryEl := Some Untouched;
     alerts := [] |}.

Definition page_without_gallery : Page :=
  {| startDateInput := Some "2021-06-20"%string;
     loadingEl := Some true;
     getImageBtn := Some {| disabled := false; has_loading_class := false |};
     galleryEl := None;
     alerts := [] |}.

Definition year_sign (y : Z) : ascii := if 0 <=? y then "+"%char else "-"%char.

(** * Properties *)

(** ** The calendar *)

Module ESFacts.
Import ES.

Lemma YearFromDay_spec d :
  DayFromYear (YearFromDay d) <= d < DayFromYear (YearFromDay d + 1).
Proof.
  unfold YearFromDay.
  assert (Hlo : DayFromYear (1970 + 400 * d / 146097 - 1) <= d)
    by (unfold DayFromYear; Z.div_mod_to_equations; lia).
  assert (Hhi : d < DayFromYear (1970 + 400 * d / 146097 + 1 + 1))
    by (unfold DayFromYear; Z.div_mod_to_equations; lia).
  set (y := 1970 + 400 * d / 146097) in *.
  destruct (Z.leb_spec (DayFromYear (y + 1)) d).
  - lia.
  - destruct (Z.leb_spec (DayFromYear y) d).
    + lia.
    + replace (y - 1 + 1) with y by lia. lia.
Qed.

Lemma DayFromYear_succ y : DayFromYear (y + 1) = DayFromYear y + DaysInYear y.
Proof.
  unfold DayFromYear, DaysInYear.
  repeat match goal with
         | |- context [Z.eqb ?a ?b] => destruct (Z.eqb_spec a b); simpl
         end; Z.div_mod_to_equations; lia.
Qed.

Lemma InLeapYear_range y : InLeapYear y = 0 \/ InLeapYear y = 1.
Proof.
  unfold InLeapYear, DaysInYear.
  repeat match goal with
         | |- context [Z.eqb ?a ?b] => destruct (Z.eqb_spec a b); simpl
         end; lia.
Qed.

Lemma DayFromYear_mono y y' : y <= y' -> DayFromYear y <= DayFromYear y'.
Proof. unfold DayFromYear. intros. Z.div_mod_to_equations. lia. Qed.

(** The year of a day is determined by the two first-of-January days around it. *)
Lemma YearFromDay_unique d y :
  DayFromYear y <= d < DayFromYear (y + 1) -> YearFromDay d = y.
Proof.
  intros H. pose proof (YearFromDay_spec d) as Hs.
  destruct (Z.lt_trichotomy (YearFromDay d) y) as [Hlt | [Heq | Hgt]]; [| done |].
  - pose proof (DayFromYear_mono (YearFromDay d + 1) y ltac:(lia)). lia.
  - pose proof (DayFromYear_mono (y + 1) (YearFromDay d) ltac:(lia)). lia.
Qed.

Lemma DayWithinYear_range t :
  0 <= DayWithinYear t < 365 + InLeapYear (YearFromTime t).
Proof.
  unfold DayWithinYear, YearFromTime, InLeapYear.
  pose proof (YearFromDay_spec (Day t)) as H.
  rewrite DayFromYear_succ in H. lia.
Qed.

Lemma monthOfYearDay_range dwy leap : 0 <= monthOfYearDay dwy leap <= 11.
Proof.
  unfold monthOfYearDay.
  repeat match goal with
         | |- context [Z.ltb ?a ?b] => destruct (Z.ltb_spec a b)
         end; lia.
Qed.

Lemma MonthFromTime_range t : 0 <= MonthFromTime t <= 11.
Proof. apply monthOfYearDay_range. Qed.

Lemma DateFromTime_range t :
  1 <= DateFromTime t <= DaysInMonth (YearFromTime t) (MonthFromTime t).
Proof.
  unfold DateFromTime, MonthFromTime.
  pose proof (DayWithinYear_range t) as Hd.
  destruct (InLeapYear_range (YearFromTime t)) as [HL | HL];
    unfold DaysInMonth; rewrite HL in *;
    set (dwy := DayWithinYear t) in *; clearbody dwy;
    unfold monthOfYearDay;
    repeat match goal with
           | |- context [Z.ltb ?a ?b] => destruct (Z.ltb_spec a b)
           end; simpl; lia.
Qed.

Lemma DaysInMonth_le_31 y m : DaysInMonth y m <= 31.
Proof.
  unfold DaysInMonth. destruct (InLeapYear_range y); repeat case_match; lia.
Qed.

(** Setting the day of the month moves by whole days: the day number of
    "the month of [t], day [DateFromTime t + i]" is [Day t + i]. *)
Lemma MakeDay_shift t i :
  MakeDay (YearFromTime t) (MonthFromTime t) (DateFromTime t + i) = Day t + i.
Proof.
  unfold MakeDay.
  pose proof (MonthFromTime_range t) as Hm.
  rewrite Z.div_small, Z.mod_small, Z.add_0_r by lia.
  unfold DateFromTime, DayWithinYear. lia.
Qed.

Lemma MakeDate_shift t i :
  MakeDate (Day t + i) (TimeWithinDay t) = t + i * msPerDay.
Proof.
  unfold MakeDate, Day, TimeWithinDay, msPerDay. Z.div_mod_to_equations. lia.
Qed.

Lemma Day_shift t i : Day (t + i * msPerDay) = Day t + i.
Proof. unfold Day, msPerDay. Z.div_mod_to_equations. lia. Qed.

Lemma Day_of_midnight d : Day (d * msPerDay) = d.
Proof. unfold Day, msPerDay. Z.div_mod_to_equations. lia. Qed.

End ESFacts.

(** ** Decimal fields *)

Lemma digit_cases v : 0 <= v < 10 ->
  v = 0 \/ v = 1 \/ v = 2 \/ v = 3 \/ v = 4 \/ v = 5 \/ v = 6 \/ v = 7 \/ v = 8 \/ v = 9.
Proof. lia. Qed.

Ltac each_digit H :=
  apply digit_cases in H;
  repeat (destruct H as [H | H]); subst.

Lemma digit_val_char v : 0 <= v < 10 -> digit_val (digit_char v) = Some v.
Proof. intros H. each_digit H; reflexivity. Qed.

Lemma digit_char_not_plus v : 0 <= v < 10 -> Ascii.eqb (digit_char v) "+" = false.
Proof. intros H. each_digit H; reflexivity. Qed.

Lemma digit_char_not_minus v : 0 <= v < 10 -> Ascii.eqb (digit_char v) "-" = false.
Proof. intros H. each_digit H; reflexivity. Qed.

#[global] Arguments digit_char : simpl never.
#[global] Arguments digit_val : simpl never.

Lemma read_digits_cons acc v cs :
  0 <= v < 10 -> read_digits acc (digit_char v :: cs) = read_digits (10 * acc + v) cs.
Proof. intros H. cbn [read_digits]. by rewrite digit_val_char. Qed.

Lemma read_digits_app acc cs cs' :
  read_digits acc (cs ++ cs') = acc' ← read_digits acc cs; read_digits acc' cs'.
Proof.
  revert acc. induction cs as [|c cs IH]; intros acc; cbn [app read_digits]; [done|].
  destruct (digit_val c); [apply IH | done].
Qed.

(** Reading back a zero-padded field. *)
Lemma read_digits_pad w acc n :
  0 <= n < 10 ^ Z.of_nat w ->
  read_digits acc (pad w n) = Some (acc * 10 ^ Z.of_nat w + n).
Proof.
  revert acc n. induction w as [|w IH]; intros acc n Hn.
  - cbn [pad read_digits]. f_equal. change (10 ^ Z.of_nat 0) with 1 in *. lia.
  - rewrite Nat2Z.inj_succ, Z.pow_succ_r in * by lia.
    cbn [pad]. rewrite read_digits_app, IH by (Z.div_mod_to_equations; nia).
    cbn [mbind option_bind]. rewrite read_digits_cons by (apply Z.mod_pos_bound; lia).
    cbn [read_digits]. f_equal. Z.div_mod_to_equations. nia.
Qed.

Lemma length_pad w n : length (pad w n) = w.
Proof.
  revert n. induction w as [|w IH]; intros n; simpl; [done|].
  rewrite length_app, IH. simpl. lia.
Qed.

Lemma chars_str l : chars (str l) = l.
Proof. apply list_ascii_of_string_of_list_ascii. Qed.

Lemma str_chars s : str (chars s) = s.
Proof. apply string_of_list_ascii_of_string. Qed.

Lemma pad2_eq n : pad 2 n = [digit_char (n / 10 mod 10); digit_char (n mod 10)].
Proof. reflexivity. Qed.

Lemma pad4_eq n :
  pad 4 n = [digit_char (n / 10 / 10 / 10 mod 10); digit_char (n / 10 / 10 mod 10);
             digit_char (n / 10 mod 10); digit_char (n mod 10)].
Proof. reflexivity. Qed.

Lemma pad6_eq n :
  pad 6 n = [digit_char (n / 10 / 10 / 10 / 10 / 10 mod 10);
             digit_char (n / 10 / 10 / 10 / 10 mod 10);
             digit_char (n / 10 / 10 / 10 mod 10); digit_char (n / 10 / 10 mod 10);
             digit_char (n / 10 mod 10); digit_char (n mod 10)].
Proof. reflexivity. Qed.

Lemma slice_0_10_str c0 c1 c2 c3 c4 c5 c6 c7 c8 c9 rest :
  slice_0_10 (str (c0 :: c1 :: c2 :: c3 :: c4 :: c5 :: c6 :: c7 :: c8 :: c9 :: rest))
  = str [c0; c1; c2; c3; c4; c5; c6; c7; c8; c9].
Proof.
  unfold slice_0_10, str. cbn [string_of_list_ascii substring].
  by destruct (string_of_list_ascii rest).
Qed.

(** ** What [formatDate] returns *)

Lemma iso_date_chars_Day t : iso_date_chars (ES.Day t * ES.msPerDay) = iso_date_chars t.
Proof.
  unfold iso_date_chars, ES.DateFromTime, ES.MonthFromTime, ES.DayWithinYear,
    ES.YearFromTime.
  by rewrite ESFacts.Day_of_midnight.
Qed.

Lemma date_key_canonical t :
  0 <= ES.YearFromTime t <= 9999 -> date_key t = iso_day (ES.Day t).
Proof.
  intros Hy. unfold date_key, iso_day. rewrite iso_date_chars_Day.
  unfold iso_date_chars, iso_year.
  replace ((0 <=? ES.YearFromTime t) && (ES.YearFromTime t <=? 9999)) with true
    by (symmetry; apply andb_true_intro; split; apply Z.leb_le; lia).
  rewrite pad4_eq, !pad2_eq. cbn [app].
  by rewrite slice_0_10_str.
Qed.

(** ** What [Date.parse] reads *)

Lemma iso_parse_canonical y3 y2 y1 y0 m1 m0 d1 d0 :
  0 <= y3 < 10 -> 0 <= y2 < 10 -> 0 <= y1 < 10 -> 0 <= y0 < 10 ->
  0 <= m1 < 10 -> 0 <= m0 < 10 -> 0 <= d1 < 10 -> 0 <= d0 < 10 ->
  iso_parse (str [digit_char y3; digit_char y2; digit_char y1; digit_char y0; "-"%char;
                  digit_char m1; digit_char m0; "-"%char; digit_char d1; digit_char d0])
  = iso_fields (10 * (10 * (10 * (10 * 0 + y3) + y2) + y1) + y0)
               (10 * (10 * 0 + m1) + m0) (10 * (10 * 0 + d1) + d0).
Proof.
  intros. unfold iso_parse, minus_zero_year. rewrite chars_str. unfold parse_year.
  rewrite digit_char_not_plus, digit_char_not_minus by done.
  cbn [orb andb].
  rewrite !read_digits_cons by done.
  cbn [read_digits Ascii.eqb Bool.eqb andb].
  by rewrite !digit_val_char.
Qed.

Lemma iso_fields_of_time t :
  iso_fields (ES.YearFromTime t) (ES.MonthFromTime t + 1) (ES.DateFromTime t)
  = IsoTime (ES.Day t * ES.msPerDay).
Proof.
  pose proof (ESFacts.MonthFromTime_range t) as Hm.
  pose proof (ESFacts.DateFromTime_range t) as Hd.
  pose proof (ESFacts.DaysInMonth_le_31 (ES.YearFromTime t) (ES.MonthFromTime t)) as H31.
  unfold iso_fields.
  replace (ES.MonthFromTime t + 1 - 1) with (ES.MonthFromTime t) by lia.
  repeat match goal with
         | |- context [Z.leb ?a ?b] => destruct (Z.leb_spec a b); try lia
         | |- context [Z.ltb ?a ?b] => destruct (Z.ltb_spec a b); try lia
         end.
  cbn [negb andb]. f_equal.
  pose proof (ESFacts.MakeDay_shift t 0) as Hs. rewrite !Z.add_0_r in Hs.
  rewrite Hs. unfold ES.MakeDate. lia.
Qed.

(** Reading a calendar date written by [toISOString] gives the midnight
    that starts its day. *)
Lemma iso_parse_iso_day d :
  0 <= ES.YearFromDay d <= 9999 -> iso_parse (iso_day d) = IsoTime (d * ES.msPerDay).
Proof.
  intros Hy. unfold iso_day. set (t := d * ES.msPerDay).
  assert (Hd : ES.Day t = d) by apply ESFacts.Day_of_midnight.
  assert (Hy' : 0 <= ES.YearFromTime t <= 9999) by (unfold ES.YearFromTime; by rewrite Hd).
  pose proof (ESFacts.MonthFromTime_range t) as Hm.
  pose proof (ESFacts.DateFromTime_range t) as Hdt.
  pose proof (ESFacts.DaysInMonth_le_31 (ES.YearFromTime t) (ES.MonthFromTime t)) as H31.
  unfold iso_date_chars, iso_year.
  replace ((0 <=? ES.YearFromTime t) && (ES.YearFromTime t <=? 9999)) with true
    by (symmetry; apply andb_true_intro; split; apply Z.leb_le; lia).
  rewrite pad4_eq, !pad2_eq. cbn [app].
  rewrite iso_parse_canonical by (apply Z.mod_pos_bound; lia).
  replace (IsoTime t) with (IsoTime (ES.Day t * ES.msPerDay)) by (by rewrite Hd).
  rewrite <- iso_fields_of_time.
  f_equal; Z.div_mod_to_equations; lia.
Qed.

Lemma YearFromDay_mono d d' : d <= d' -> ES.YearFromDay d <= ES.YearFromDay d'.
Proof.
  intros Hd.
  pose proof (ESFacts.YearFromDay_spec d) as H1.
  pose proof (ESFacts.YearFromDay_spec d') as H2.
  destruct (Z.le_gt_cases (ES.YearFromDay d) (ES.YearFromDay d')) as [|Hgt]; [done|].
  pose proof (ESFacts.DayFromYear_mono (ES.YearFromDay d' + 1) (ES.YearFromDay d)
                ltac:(lia)).
  lia.
Qed.

Lemma canonical_year_days d :
  0 <= ES.YearFromDay d <= 9999 -> -719528 <= d < 2932897.
Proof.
  intros Hy. pose proof (ESFacts.YearFromDay_spec d) as Hs.
  pose proof (ESFacts.DayFromYear_mono 0 (ES.YearFromDay d) ltac:(lia)) as H0.
  pose proof (ESFacts.DayFromYear_mono (ES.YearFromDay d + 1) 10000 ltac:(lia)) as H1.
  change (ES.DayFromYear 0) with (-719528) in H0.
  change (ES.DayFromYear 10000) with 2932897 in H1.
  lia.
Qed.

Lemma TimeClip_in_range t :
  Z.abs t <= 8640000000000000 -> ES.TimeClip t = Some t.
Proof. intros H. unfold ES.TimeClip. by destruct (Z.leb_spec (Z.abs t) 8640000000000000); [|lia]. Qed.

Lemma TimeClip_Some t t' : ES.TimeClip t = Some t' -> t' = t /\ Z.abs t <= 8640000000000000.
Proof.
  unfold ES.TimeClip. destruct (Z.leb_spec (Z.abs t) 8640000000000000); [|done].
  intros [= <-]. done.
Qed.

(** A date written with a sign and six digits is not of the shape
    [YYYY-MM-DD]. *)
Lemma date_key_expanded_not_canonical t :
  ~ 0 <= ES.YearFromTime t <= 9999 -> canonical (date_key t) = false.
Proof.
  intros Hy. unfold date_key, iso_date_chars, iso_year.
  replace ((0 <=? ES.YearFromTime t) && (ES.YearFromTime t <=? 9999)) with false
    by (symmetry; apply andb_false_iff;
        destruct (Z.leb_spec 0 (ES.YearFromTime t)); [right; apply Z.leb_gt; lia | by left]).
  rewrite pad6_eq, !pad2_eq. cbn [app].
  rewrite slice_0_10_str. unfold canonical. rewrite chars_str.
  by destruct (0 <=? ES.YearFromTime t).
Qed.

Lemma canonical_date_key t :
  canonical (date_key t) = true -> 0 <= ES.YearFromTime t <= 9999.
Proof.
  intros Hc. destruct (decide (0 <= ES.YearFromTime t <= 9999)) as [|Hn]; [done|].
  apply date_key_expanded_not_canonical in Hn. congruence.
Qed.

Lemma Normal_inj {A} (a b : A) : Normal a = Normal b -> a = b.
Proof. intros H. by injection H. Qed.

Lemma map_throwing_Throw {A B} (f : A -> completion B) l err :
  map_throwing f l = Throw err -> exists x, x ∈ l /\ f x = Throw err.
Proof.
  induction l as [|x l IH]; cbn [map_throwing]; [done|].
  destruct (f x) as [y|err'] eqn:Hx.
  - cbn [mbind completion_bind]. destruct (map_throwing f l) as [ys|err'']; [done|].
    cbn [mbind completion_bind]. intros [= <-].
    destruct (IH eq_refl) as (x' & Hin & Hx'). exists x'. split; [by right | done].
  - cbn [mbind completion_bind]. intros [= <-]. exists x. split; [by left | done].
Qed.

(** ** What [ToString] throws *)

(** Induction on JSON data, the elements of an array taken as smaller than
    the array. *)
Lemma json_nested_ind (P : json -> Prop) :
  P JNull -> (forall b, P (JBool b)) -> (forall x, P (JNum x)) -> (forall s, P (JStr s)) ->
  (forall items, Forall P items -> P (JArr items)) ->
  (forall fields, P (JObj fields)) ->
  forall j, P j.
Proof.
  intros Hnull Hbool Hnum Hstr Harr Hobj. fix IH 1.
  intros [|b|x|s|items|fields];
    [exact Hnull | apply Hbool | apply Hnum | apply Hstr | | apply Hobj].
  apply Harr. revert items. fix IHl 1. intros [|x l]; constructor; [apply IH | apply IHl].
Qed.

Lemma to_string_JArr items :
  to_string (JArr items)
  = parts ← map_throwing element_string items; Normal (join_commas parts).
Proof.
  cbn [to_string]. f_equal. induction items as [|x l IH]; [done|].
  cbn [map_throwing]. by rewrite <- IH.
Qed.

(** The conversion of JSON data to a string throws nothing but a
    [TypeError]. *)
Lemma to_string_Throw j e : to_string j = Throw e -> e = TypeError.
Proof.
  revert e. induction j as [|b|x|s|items IH|fields] using json_nested_ind; intros e.
  - done.
  - by destruct b.
  - done.
  - done.
  - rewrite to_string_JArr.
    destruct (map_throwing element_string items) as [parts|e'] eqn:Hm; [done|].
    cbn [mbind completion_bind]. intros [= <-].
    apply map_throwing_Throw in Hm as (x & Hin & Hx).
    eapply Forall_forall in IH; [|exact Hin].
    destruct x; try done; by apply IH.
  - cbn [to_string]. destruct (has_own "toString" fields); [|done]. by intros [= <-].
Qed.

Section HostFacts.

Context (host : Host).

Lemma formatDate_Date t : formatDate host (DateObj (Some t)) = Normal (date_key t).
Proof. reflexivity. Qed.

Lemma formatDate_invalid : formatDate host (DateObj None) = Throw RangeError.
Proof. reflexivity. Qed.

(** [new Date] throws on a value without a primitive only, and then a
    [TypeError]. *)
Lemma new_Date_Throw v e : new_Date host v = Throw e -> e = TypeError.
Proof.
  destruct v as [|j|tv]; cbn [new_Date]; [done| |done].
  destruct j as [|b|x|s|items|fields]; try done.
  - destruct (to_string (JArr items)) as [s|e'] eqn:Hs; [done|].
    cbn [mbind completion_bind]. intros [= <-]. by eapply to_string_Throw.
  - destruct (to_string (JObj fields)) as [s|e'] eqn:Hs; [done|].
    cbn [mbind completion_bind]. intros [= <-]. by eapply to_string_Throw.
Qed.

(** [formatDate] yields the date of some time value, or throws: a
    [RangeError] on an invalid date, a [TypeError] on a value that has no
    primitive. *)
Lemma formatDate_cases v :
  (exists t, formatDate host v = Normal (date_key t))
  \/ formatDate host v = Throw RangeError
  \/ formatDate host v = Throw TypeError.
Proof.
  unfold formatDate.
  set (d := match v with DateObj tv => Normal tv | _ => new_Date host v end).
  assert (Hd : forall e, d = Throw e -> e = TypeError).
  { intros e. subst d. destruct v; try apply new_Date_Throw. done. }
  destruct d as [[t|]|e]; [left; by exists t | right; by left |].
  right; right. by rewrite (Hd e eq_refl).
Qed.

Lemma formatDate_Normal v s :
  formatDate host v = Normal s -> exists t, s = date_key t.
Proof.
  intros H. destruct (formatDate_cases v) as [[t Ht] | [Ht | Ht]]; [|congruence..].
  exists t. congruence.
Qed.

Lemma formatDate_Throw v e :
  formatDate host v = Throw e -> e = RangeError \/ e = TypeError.
Proof.
  intros H. destruct (formatDate_cases v) as [[t Ht] | [Ht | Ht]];
    [congruence | left; congruence | right; congruence].
Qed.

(** The date of a [Date] object is written or is invalid. *)
Lemma formatDate_DateObj_Throw tv e :
  formatDate host (DateObj tv) = Throw e -> e = RangeError.
Proof. destruct tv; cbn; [done|]. by intros [= <-]. Qed.

Lemma new_Date_iso_day d :
  0 <= ES.YearFromDay d <= 9999 ->
  new_Date host (Json (JStr (iso_day d))) = Normal (Some (d * ES.msPerDay)).
Proof.
  intros Hy. pose proof (canonical_year_days d Hy) as Hd.
  unfold new_Date, Date_parse. rewrite iso_parse_iso_day by done.
  cbn [mbind option_bind]. f_equal. apply TimeClip_in_range. unfold ES.msPerDay. lia.
Qed.

Lemma formatDate_iso_day d :
  0 <= ES.YearFromDay d <= 9999 ->
  formatDate host (Json (JStr (iso_day d))) = Normal (iso_day d).
Proof.
  intros Hy. unfold formatDate. rewrite new_Date_iso_day by done.
  cbn [toISOString mbind completion_bind].
  change (Normal (slice_0_10 ?s)) with (Normal (date_key (d * ES.msPerDay))).
  rewrite date_key_canonical, ESFacts.Day_of_midnight; [done|].
  unfold ES.YearFromTime. by rewrite ESFacts.Day_of_midnight.
Qed.

(** C9.  Normalising a date twice is normalising it once: when [formatDate]
    turns an input into a string of the shape [YYYY-MM-DD], it leaves that
    string as it is. *)
Theorem formatDate_idempotent (x : jsval) (s : string) :
  formatDate host x = Normal s ->
  canonical s = true ->
  formatDate host (Json (JStr s)) = Normal s.
Proof.
  intros Hx Hc. apply formatDate_Normal in Hx as [t ->].
  pose proof (canonical_date_key t Hc) as Hy.
  rewrite date_key_canonical by done.
  apply formatDate_iso_day. done.
Qed.

End HostFacts.

(** ** The window *)

Section Window.

Context (host : Host).

(** Setting the local day of the month to "today's plus [i]" moves the local
    time by [i] whole days, whatever the zone. *)
Lemma setDate_getDate t0 i :
  setDate host (Some t0) (n ← getDate host (Some t0); Some (n + i))
  = ES.TimeClip (UTC host (LocalTime host t0 + i * ES.msPerDay)).
Proof.
  cbn [getDate setDate mbind option_bind].
  by rewrite ESFacts.MakeDay_shift, ESFacts.MakeDate_shift.
Qed.

Lemma map_throwing_ext {A B} (f g : A -> completion B) l :
  (forall x, f x = g x) -> map_throwing f l = map_throwing g l.
Proof.
  intros H. induction l as [|x l IH]; cbn [map_throwing]; [done|].
  by rewrite H, IH.
Qed.

(** The loop of [nineDatesFrom], for a start that parses to [t0]. *)
Lemma nineDatesFrom_loop startIso t0 :
  new_Date host (Json (JStr startIso)) = Normal (Some t0) ->
  nineDatesFrom host startIso
  = map_throwing
      (fun i => formatDate host
                  (DateObj (ES.TimeClip (UTC host (LocalTime host t0 + i * ES.msPerDay)))))
      (seqZ 0 9).
Proof.
  intros Hs. unfold nineDatesFrom. rewrite Hs. cbn [mbind completion_bind].
  assert (Hc : new_Date host (DateObj (Some t0)) = Normal (Some t0)).
  { cbn [new_Date mbind option_bind]. f_equal.
    unfold new_Date in Hs. apply Normal_inj in Hs.
    destruct (Date_parse host startIso) as [t|]; [|done].
    cbn [mbind option_bind] in Hs. apply TimeClip_Some in Hs as [-> Hr].
    by apply TimeClip_in_range. }
  rewrite Hc. apply map_throwing_ext. intros i.
  cbn [mbind completion_bind]. cbv zeta. by rewrite setDate_getDate.
Qed.

(** A start that does not parse makes the first [formatDate] throw. *)
Lemma nineDatesFrom_invalid startIso :
  new_Date host (Json (JStr startIso)) = Normal None ->
  nineDatesFrom host startIso = Throw RangeError.
Proof. intros Hs. unfold nineDatesFrom. by rewrite Hs. Qed.

(** A start string is always read, as a time value or as NaN. *)
Lemma new_Date_string s :
  new_Date host (Json (JStr s)) = Normal (Date_parse host s ≫= ES.TimeClip).
Proof. reflexivity. Qed.

Lemma length_map_throwing {A B} (f : A -> completion B) l r :
  map_throwing f l = Normal r -> length r = length l.
Proof.
  revert r. induction l as [|x l IH]; intros r; cbn [map_throwing].
  - by intros [= <-].
  - destruct (f x) as [y|]; [|done]. cbn [mbind completion_bind].
    destruct (map_throwing f l) as [ys|]; [|done]. cbn [mbind completion_bind].
    intros [= <-]. cbn [length]. f_equal. by apply IH.
Qed.

Lemma map_throwing_Normal {A B} (f : A -> completion B) (g : A -> B) l :
  (forall x, x ∈ l -> f x = Normal (g x)) -> map_throwing f l = Normal (map g l).
Proof.
  induction l as [|x l IH]; intros H; cbn [map_throwing map]; [done|].
  rewrite H by left. cbn [mbind completion_bind].
  rewrite IH by (intros; apply H; by right). done.
Qed.

(** The window always holds nine strings. *)
Lemma length_nineDatesFrom startIso w :
  nineDatesFrom host startIso = Normal w -> length w = 9%nat.
Proof. intros H. by apply length_map_throwing in H. Qed.

(** In a zone whose offset is steady over the window, the window of the
    day numbered [d0] is that day and the eight after it. *)
Lemma nineDatesFrom_steady d0 :
  0 <= ES.YearFromDay d0 -> ES.YearFromDay (d0 + 8) <= 9999 ->
  offset_steady host (d0 * ES.msPerDay) ->
  nineDatesFrom host (iso_day d0)
  = Normal (map (fun i => iso_day (d0 + i)) (seqZ 0 9)).
Proof.
  intros Hlo Hhi Hst.
  assert (Hy0 : 0 <= ES.YearFromDay d0 <= 9999).
  { pose proof (YearFromDay_mono d0 (d0 + 8) ltac:(lia)). lia. }
  rewrite (nineDatesFrom_loop _ (d0 * ES.msPerDay)) by by apply new_Date_iso_day.
  apply map_throwing_Normal. intros i Hi.
  apply elem_of_seqZ in Hi.
  unfold UTC. rewrite Hst by lia. unfold LocalTime.
  replace (d0 * ES.msPerDay + LocalTZA host (d0 * ES.msPerDay) true + i * ES.msPerDay
           - LocalTZA host (d0 * ES.msPerDay) true)
    with ((d0 + i) * ES.msPerDay) by lia.
  assert (Hyi : 0 <= ES.YearFromDay (d0 + i) <= 9999).
  { pose proof (YearFromDay_mono d0 (d0 + i) ltac:(lia)).
    pose proof (YearFromDay_mono (d0 + i) (d0 + 8) ltac:(lia)). lia. }
  pose proof (canonical_year_days _ Hyi) as Hd.
  rewrite TimeClip_in_range by (unfold ES.msPerDay; lia).
  rewrite formatDate_Date, date_key_canonical, ESFacts.Day_of_midnight; [done|].
  unfold ES.YearFromTime. by rewrite ESFacts.Day_of_midnight.
Qed.

End Window.

(** ** The lookup *)

Section Lookup.

Context (host : Host).

Lemma index_entry_key m e :
  index_entry host m e
  = ok ← entry_key host e;
    Normal (match ok with Some k => <[k := e]> m | None => m end).
Proof.
  unfold index_entry, entry_key.
  destruct (truthy (Json e) && truthy (get_date e)); [|done].
  by destruct (formatDate host (get_date e)).
Qed.

Lemma forEach_app {A S} (f : S -> A -> completion S) s l1 l2 :
  forEach f s (l1 ++ l2) = s' ← forEach f s l1; forEach f s' l2.
Proof.
  revert s. induction l1 as [|x l1 IH]; intros s; cbn [app forEach]; [done|].
  destruct (f s x) as [s'|]; [|done]. apply IH.
Qed.

Lemma entry_key_Throw e err :
  entry_key host e = Throw err -> err = RangeError \/ err = TypeError.
Proof.
  unfold entry_key.
  destruct (truthy (Json e) && truthy (get_date e)); [|done].
  destruct (formatDate host (get_date e)) as [k|err'] eqn:Hf; [done|].
  apply formatDate_Throw in Hf. cbn. intros [= <-]. done.
Qed.

(** An entry that is filed is truthy, and so is its date. *)
Lemma entry_key_Some e k :
  entry_key host e = Normal (Some k) ->
  truthy (Json e) = true /\ truthy (get_date e) = true
  /\ formatDate host (get_date e) = Normal k.
Proof.
  unfold entry_key.
  destruct (truthy (Json e)), (truthy (get_date e)); cbn [andb]; try done.
  destruct (formatDate host (get_date e)); cbn; [|done].
  by intros [= ->].
Qed.


(** The lookup is built exactly when no entry's date fails to normalise;
    the exception it ends on is that of the first entry whose date fails. *)
Lemma forEach_index_Normal m feed :
  Forall (fun e => exists ok, entry_key host e = Normal ok) feed ->
  exists m', forEach (index_entry host) m feed = Normal m'.
Proof.
  intros H. revert m. induction H as [|e feed [ok He] _ IH]; intros m.
  - by exists m.
  - cbn [forEach]. rewrite index_entry_key, He. apply IH.
Qed.

Lemma forEach_index_Throw m feed err :
  forEach (index_entry host) m feed = Throw err ->
  (err = RangeError \/ err = TypeError)
  /\ Exists (fun e => entry_key host e = Throw err) feed.
Proof.
  revert m. induction feed as [|e feed IH]; intros m; cbn [forEach]; [done|].
  rewrite index_entry_key.
  destruct (entry_key host e) as [ok|err'] eqn:He.
  - intros H. apply IH in H as [Herr H]. split; [done|]. by right.
  - cbn. intros [= <-]. split; [by eapply entry_key_Throw | by left].
Qed.

Lemma forEach_index_Exists_Throw m feed :
  Exists (fun e => exists err, entry_key host e = Throw err) feed ->
  exists err, forEach (index_entry host) m feed = Throw err.
Proof.
  intros H. revert m. induction H as [e feed [err He] | e feed _ IH]; intros m.
  - exists err. cbn [forEach]. by rewrite index_entry_key, He.
  - cbn [forEach]. rewrite index_entry_key.
    destruct (entry_key host e) as [ok|err]; [apply IH | by exists err].
Qed.

(** With one kind of exception only, the exception does not depend on which
    entry throws first. *)
Lemma forEach_index_Exists_RangeError m feed :
  Forall (fun e => entry_key host e <> Throw TypeError) feed ->
  Exists (fun e => exists err, entry_key host e = Throw err) feed ->
  forEach (index_entry host) m feed = Throw RangeError.
Proof.
  intros Hall H. destruct (forEach_index_Exists_Throw m feed H) as [err Hf].
  rewrite Hf. apply forEach_index_Throw in Hf as [[->| ->] Hex]; [done|].
  apply Exists_exists in Hex as (e & Hin & He).
  eapply Forall_forall in Hall; [|exact Hin]. done.
Qed.

(** Whatever the lookup holds came from the feed under its own key, or was
    there before. *)
Lemma index_lookup feed m m' k e :
  forEach (index_entry host) m feed = Normal m' ->
  m' !! k = Some e ->
  m !! k = Some e \/ (e ∈ feed /\ entry_key host e = Normal (Some k)).
Proof.
  revert m. induction feed as [|x feed IH]; intros m; cbn [forEach].
  - intros [= <-] H. by left.
  - rewrite index_entry_key. destruct (entry_key host x) as [ok|] eqn:Hx; [|done].
    cbn. intros Hf Hm. destruct (IH _ Hf Hm) as [H | [H1 H2]].
    + destruct ok as [kx|]; [|by left].
      destruct (decide (kx = k)) as [->|Hne].
      * rewrite lookup_insert_eq in H. injection H as <-. right. split; [by left | done].
      * rewrite lookup_insert_ne in H by done. by left.
    + right. split; [by right | done].
Qed.

(** Entries that are not filed under [k] leave the entry of [k] alone. *)
Lemma index_others feed m m' k :
  Forall (fun e => entry_key host e <> Normal (Some k)) feed ->
  forEach (index_entry host) m feed = Normal m' ->
  m' !! k = m !! k.
Proof.
  intros H. revert m. induction H as [|x feed Hx _ IH]; intros m; cbn [forEach].
  - by intros [= <-].
  - rewrite index_entry_key. destruct (entry_key host x) as [ok|] eqn:Hk; [|done].
    cbn. intros Hf. rewrite (IH _ Hf).
    destruct ok as [kx|]; [|done].
    rewrite lookup_insert_ne; [done|]. intros ->. done.
Qed.

(** Last write wins: the entry filed under [k] is the last one of the feed
    with that key. *)
Lemma index_last l1 e l3 m m' k :
  forEach (index_entry host) m (l1 ++ e :: l3) = Normal m' ->
  entry_key host e = Normal (Some k) ->
  Forall (fun e' => entry_key host e' <> Normal (Some k)) l3 ->
  m' !! k = Some e.
Proof.
  intros Hf He Hl3. rewrite forEach_app in Hf.
  destruct (forEach (index_entry host) m l1) as [m1|]; [|done].
  cbn [mbind completion_bind forEach] in Hf.
  rewrite index_entry_key, He in Hf. cbn in Hf.
  rewrite (index_others _ _ _ _ Hl3 Hf). apply lookup_insert_eq.
Qed.

Lemma feed_keys_app l1 l2 :
  feed_keys host (l1 ++ l2) = feed_keys host l1 ++ feed_keys host l2.
Proof. apply omap_app. Qed.

Lemma feed_keys_cons e l :
  feed_keys host (e :: l)
  = match entry_key host e with
    | Normal (Some k) => k :: feed_keys host l
    | _ => feed_keys host l
    end.
Proof. unfold feed_keys. cbn. by destruct (entry_key host e) as [[]|]. Qed.

Lemma elem_of_feed_keys e k feed :
  e ∈ feed -> entry_key host e = Normal (Some k) -> k ∈ feed_keys host feed.
Proof.
  intros He Hk. unfold feed_keys. apply list_elem_of_omap.
  exists e. split; [done|]. by rewrite Hk.
Qed.

(** Without duplicate keys, every filed entry of the feed is in the lookup. *)
Lemma index_NoDup feed m' e k :
  NoDup (feed_keys host feed) ->
  forEach (index_entry host) ∅ feed = Normal m' ->
  e ∈ feed -> entry_key host e = Normal (Some k) ->
  m' !! k = Some e.
Proof.
  intros Hnd Hf He Hk.
  apply list_elem_of_split in He as (l1 & l3 & ->).
  apply (index_last l1 e l3 ∅); [done..|].
  rewrite feed_keys_app in Hnd. apply NoDup_app in Hnd as (_ & _ & Hnd).
  rewrite feed_keys_cons, Hk in Hnd.
  apply NoDup_cons in Hnd as [Hnotin _].
  apply Forall_forall. intros e' He' Hk'.
  apply Hnotin. by apply (elem_of_feed_keys e').
Qed.

End Lookup.

(** ** Dates beyond the four-digit years *)

Lemma date_key_expanded t :
  ~ 0 <= ES.YearFromTime t <= 9999 ->
  date_key t = str (year_sign (ES.YearFromTime t) :: pad 6 (Z.abs (ES.YearFromTime t))
                      ++ "-"%char :: pad 2 (ES.MonthFromTime t + 1)).
Proof.
  intros Hy. unfold date_key, iso_date_chars, iso_year.
  replace ((0 <=? ES.YearFromTime t) && (ES.YearFromTime t <=? 9999)) with false
    by (symmetry; apply andb_false_iff;
        destruct (Z.leb_spec 0 (ES.YearFromTime t)); [right; apply Z.leb_gt; lia | by left]).
  rewrite pad6_eq, !pad2_eq. cbn [app].
  by rewrite slice_0_10_str.
Qed.

Lemma month_cases m : 0 <= m <= 11 ->
  m = 0 \/ m = 1 \/ m = 2 \/ m = 3 \/ m = 4 \/ m = 5 \/ m = 6 \/ m = 7 \/ m = 8
  \/ m = 9 \/ m = 10 \/ m = 11.
Proof. lia. Qed.

(** The first day of a month lies in that month of that year. *)
Lemma first_of_month y m :
  0 <= m <= 11 ->
  let t := ES.MakeDate (ES.MakeDay y m 1) 0 in
  ES.YearFromTime t = y /\ ES.MonthFromTime t = m.
Proof.
  intros Hm t.
  assert (Hday : ES.Day t = ES.DayFromYear y + ES.monthStart m (ES.InLeapYear y)).
  { unfold t, ES.MakeDate. rewrite Z.add_0_r, ESFacts.Day_of_midnight.
    unfold ES.MakeDay. rewrite Z.div_small, Z.mod_small, Z.add_0_r by lia. lia. }
  assert (Hy : ES.YearFromTime t = y).
  { unfold ES.YearFromTime. apply ESFacts.YearFromDay_unique.
    rewrite Hday, ESFacts.DayFromYear_succ.
    fold (ES.InLeapYear y).
    assert (ES.DaysInYear y = 365 + ES.InLeapYear y) as -> by (unfold ES.InLeapYear; lia).
    destruct (ESFacts.InLeapYear_range y) as [-> | ->];
      apply month_cases in Hm; repeat (destruct Hm as [Hm | Hm]); subst m;
      cbn [ES.monthStart]; lia. }
  split; [done|].
  unfold ES.MonthFromTime, ES.DayWithinYear. rewrite Hy, Hday.
  replace (ES.DayFromYear y + ES.monthStart m (ES.InLeapYear y) - ES.DayFromYear y)
    with (ES.monthStart m (ES.InLeapYear y)) by lia.
  destruct (ESFacts.InLeapYear_range y) as [-> | ->];
    apply month_cases in Hm; repeat (destruct Hm as [Hm | Hm]); subst m; reflexivity.
Qed.

Lemma iso_parse_expanded sg y5 y4 y3 y2 y1 y0 m1 m0 :
  sg = "+"%char \/ sg = "-"%char ->
  0 <= y5 < 10 -> 0 <= y4 < 10 -> 0 <= y3 < 10 -> 0 <= y2 < 10 -> 0 <= y1 < 10 ->
  0 <= y0 < 10 -> 0 <= m1 < 10 -> 0 <= m0 < 10 ->
  let n := 10 * (10 * (10 * (10 * (10 * (10 * 0 + y5) + y4) + y3) + y2) + y1) + y0 in
  (sg = "-"%char -> n <> 0) ->
  iso_parse (str [sg; digit_char y5; digit_char y4; digit_char y3; digit_char y2;
                  digit_char y1; digit_char y0; "-"%char; digit_char m1; digit_char m0])
  = iso_fields (if Ascii.eqb sg "-" then - n else n) (10 * (10 * 0 + m1) + m0) 1.
Proof.
  intros Hsg ? ? ? ? ? ? ? ? n Hn.
  unfold iso_parse, minus_zero_year. rewrite chars_str. unfold parse_year.
  assert (Ascii.eqb sg "+" || Ascii.eqb sg "-" = true) as ->
    by (destruct Hsg as [-> | ->]; reflexivity).
  rewrite !read_digits_cons by done. cbn [read_digits]. fold n.
  assert (Ascii.eqb sg "-" && bool_decide (Some n = Some 0) = false) as ->.
  { destruct Hsg as [-> | ->]; [reflexivity|]. cbn [Ascii.eqb Bool.eqb andb].
    apply bool_decide_eq_false. intros [= Hz]. by apply Hn. }
  cbn [Ascii.eqb Bool.eqb andb].
  by rewrite !digit_val_char.
Qed.

Lemma DaysInMonth_ge_28 y m : 28 <= ES.DaysInMonth y m.
Proof.
  unfold ES.DaysInMonth. destruct (ESFacts.InLeapYear_range y); repeat case_match; lia.
Qed.

Lemma clipped_year t :
  Z.abs t <= 8640000000000000 -> Z.abs (ES.YearFromTime t) < 1000000.
Proof.
  intros Ht. unfold ES.YearFromTime.
  pose proof (ESFacts.YearFromDay_spec (ES.Day t)) as Hs.
  assert (Hd : -100000000 <= ES.Day t <= 100000000)
    by (unfold ES.Day, ES.msPerDay; Z.div_mod_to_equations; lia).
  set (y := ES.YearFromDay (ES.Day t)) in *. clearbody y.
  unfold ES.DayFromYear in Hs. Z.div_mod_to_equations. lia.
Qed.

Lemma digits6_sum n :
  0 <= n < 1000000 ->
  10 * (10 * (10 * (10 * (10 * (10 * 0 + n / 10 / 10 / 10 / 10 / 10 mod 10)
     + n / 10 / 10 / 10 / 10 mod 10) + n / 10 / 10 / 10 mod 10) + n / 10 / 10 mod 10)
     + n / 10 mod 10) + n mod 10 = n.
Proof.
  intros Hn. pose proof (read_digits_pad 6 0 n Hn) as H.
  rewrite pad6_eq in H. rewrite !read_digits_cons in H by (apply Z.mod_pos_bound; lia).
  cbn [read_digits] in H. injection H as H. rewrite H. lia.
Qed.

Lemma digits2_sum n : 0 <= n < 100 -> 10 * (10 * 0 + n / 10 mod 10) + n mod 10 = n.
Proof. intros Hn. Z.div_mod_to_equations. lia. Qed.

Lemma toISOString_slice t :
  toISOString (Some t) ≫= (fun s => Normal (slice_0_10 s)) = Normal (date_key t).
Proof. reflexivity. Qed.

Section Renormalise.

Context (host : Host).

(** What [formatDate] wrote, [formatDate] reads back unchanged, in the
    shape [YYYY-MM-DD] and in the expanded one alike (where it does not
    throw: the month of the earliest representable day starts too early). *)
Lemma formatDate_date_key t k :
  Z.abs t <= 8640000000000000 ->
  formatDate host (Json (JStr (date_key t))) = Normal k ->
  k = date_key t.
Proof.
  intros Ht. destruct (decide (0 <= ES.YearFromTime t <= 9999)) as [Hy|Hy].
  - rewrite date_key_canonical by done.
    rewrite formatDate_iso_day by done. by intros [= <-].
  - pose proof (clipped_year t Ht) as Hy6.
    pose proof (ESFacts.MonthFromTime_range t) as Hm.
    rewrite (date_key_expanded t Hy).
    set (y := ES.YearFromTime t) in *. set (m := ES.MonthFromTime t) in *.
    clearbody y m.
    rewrite pad6_eq, pad2_eq. cbn [app].
    unfold formatDate, new_Date, Date_parse.
    rewrite iso_parse_expanded; try (apply Z.mod_pos_bound; lia).
    2:{ unfold year_sign. destruct (0 <=? y); auto. }
    2:{ unfold year_sign. destruct (Z.leb_spec 0 y); [done|].
        intros _. rewrite digits6_sum by lia. lia. }
    rewrite digits6_sum, digits2_sum by lia.
    assert ((if Ascii.eqb (year_sign y) "-" then - Z.abs y else Z.abs y) = y) as ->.
    { unfold year_sign. destruct (Z.leb_spec 0 y); cbn [Ascii.eqb Bool.eqb andb]; lia. }
    unfold iso_fields.
    pose proof (DaysInMonth_ge_28 y (m + 1 - 1)).
    repeat match goal with
           | |- context [Z.leb ?a ?b] => destruct (Z.leb_spec a b); try lia
           | |- context [Z.ltb ?a ?b] => destruct (Z.ltb_spec a b); try lia
           end.
    cbn [negb andb mbind option_bind completion_bind].
    replace (m + 1 - 1) with m by lia.
    destruct (first_of_month y m Hm) as [Hy' Hm'].
    destruct (ES.TimeClip (ES.MakeDate (ES.MakeDay y m 1) 0)) as [t'|] eqn:Hc.
    2:{ intros Hx. discriminate Hx. }
    apply TimeClip_Some in Hc as [-> _].
    rewrite toISOString_slice, date_key_expanded by (rewrite Hy'; done).
    rewrite Hy', Hm', pad6_eq, pad2_eq. cbn [app].
    intros Hk. by apply Normal_inj in Hk.
Qed.

End Renormalise.

(** ** The reconciler *)

Section Reconcile.

Context (host : Host).

(** The lookup built from the empty map holds filed entries of the feed,
    each under its own key. *)
Lemma index_sound feed m k e :
  forEach (index_entry host) ∅ feed = Normal m ->
  m !! k = Some e ->
  e ∈ feed /\ entry_key host e = Normal (Some k).
Proof.
  intros Hf Hm. destruct (index_lookup host _ _ _ _ _ Hf Hm) as [H|H]; [|done].
  by rewrite lookup_empty in H.
Qed.

(** [.map(date => feedByDate.get(date)).filter(Boolean)] keeps the entries
    found, in the order of the dates. *)
Lemma projection (m : gmap string json) w :
  (forall k e, m !! k = Some e -> truthy (Json e) = true) ->
  filter (fun v => truthy v) (map (Map_get m) w) = Json <$> omap (m !!.) w.
Proof.
  intros Hm. induction w as [|k w IH]; [done|].
  cbn [map]. unfold Map_get at 1.
  change (omap (m !!.) (k :: w))
    with (match m !! k with Some e => e :: omap (m !!.) w | None => omap (m !!.) w end).
  destruct (m !! k) as [e|] eqn:Hk; cbn [from_option].
  - rewrite filter_cons_True by (rewrite (Hm _ _ Hk); done).
    by rewrite IH.
  - rewrite filter_cons_False by (cbn; tauto). done.
Qed.

Lemma reconcile_Normal startIso feed res :
  reconcile host startIso feed = Normal res ->
  exists m w,
    forEach (index_entry host) ∅ feed = Normal m
    /\ nineDatesFrom host startIso = Normal w
    /\ res = Json <$> omap (m !!.) w.
Proof.
  unfold reconcile. intros H.
  destruct (forEach (index_entry host) ∅ feed) as [m|] eqn:Hm; [|done].
  destruct (nineDatesFrom host startIso) as [w|] eqn:Hw; [|done].
  cbn [mbind completion_bind] in H. apply Normal_inj in H.
  exists m, w. repeat split. rewrite <- H. apply projection.
  intros k e Hk. apply (index_sound _ _ _ _ Hm) in Hk as [_ Hk].
  by apply entry_key_Some in Hk as [? _].
Qed.

Lemma length_omap_le {A B} (f : A -> option B) l : (length (omap f l) <= length l)%nat.
Proof.
  induction l as [|x l IH]; [done|].
  change (omap f (x :: l)) with (match f x with Some y => y :: omap f l | None => omap f l end).
  destruct (f x); cbn [length]; lia.
Qed.

End Reconcile.

Section ReconcilerFacts.

Context (host : Host).

Lemma quot_bound a b c : 0 < b -> 0 <= c -> Z.abs a <= c * b -> Z.abs (Z.quot a b) <= c.
Proof.
  intros Hb Hc Ha. rewrite <- Z.quot_abs by lia. rewrite (Z.abs_eq b) by lia.
  rewrite Z.quot_div_nonneg by lia. apply Z.div_le_upper_bound; lia.
Qed.

Lemma TimeClip_number_Some x t :
  TimeClip_number x = Some t -> Z.abs t <= 8640000000000000.
Proof.
  unfold TimeClip_number. destruct (num_value x) as [q|]; [|done].
  destruct (Z.leb_spec (Z.abs (Qnum q)) (8640000000000000 * Z.pos (Qden q))); [|done].
  intros [= <-]. apply quot_bound; lia.
Qed.

Lemma new_Date_clipped v t :
  new_Date host v = Normal (Some t) -> Z.abs t <= 8640000000000000.
Proof.
  assert (Hb : forall o : option Z, o ≫= ES.TimeClip = Some t -> Z.abs t <= 8640000000000000).
  { intros [x|]; [|done]. cbn [mbind option_bind]. intros H.
    by apply TimeClip_Some in H as [-> H]. }
  assert (Hc : forall x, ES.TimeClip x = Some t -> Z.abs t <= 8640000000000000).
  { intros x H. by apply TimeClip_Some in H as [-> H]. }
  assert (Hs : forall c : completion string,
            (s ← c; Normal (Date_parse host s ≫= ES.TimeClip)) = Normal (Some t) ->
            Z.abs t <= 8640000000000000).
  { intros [s|e]; [|done]. cbn [mbind completion_bind]. intros H%Normal_inj. by eapply Hb. }
  destruct v as [|j|tv]; cbn [new_Date]; [done| |intros H%Normal_inj; by eapply Hb].
  destruct j; try (intros H%Normal_inj); eauto using TimeClip_number_Some.
Qed.

(** The dates [formatDate] writes for JSON data are those of clipped time
    values. *)
Lemma formatDate_Json j s :
  formatDate host (Json j) = Normal s ->
  exists t, Z.abs t <= 8640000000000000 /\ s = date_key t.
Proof.
  unfold formatDate. destruct (new_Date host (Json j)) as [[t|]|] eqn:Ht; [|done..].
  cbn [mbind completion_bind]. rewrite toISOString_slice. intros H%Normal_inj.
  exists t. split; [by eapply new_Date_clipped | done].
Qed.


(** C2.  The reconciler returns at most nine entries; each was filed from
    the feed under a date of the window (and when the entry's own [date] is
    a string that [formatDate] wrote, as the loader leaves it, that very
    string is a date of the window); from an empty feed it returns
    nothing. *)
Theorem reconcile_within_window (startIso : string) (feed : list json)
    (res : list jsval) :
  reconcile host startIso feed = Normal res ->
  (length res <= 9)%nat
  /\ (exists w, nineDatesFrom host startIso = Normal w
        /\ forall r, r ∈ res ->
             exists e k, r = Json e /\ e ∈ feed
               /\ entry_key host e = Normal (Some k) /\ k ∈ w
               /\ (forall t, Z.abs t <= 8640000000000000 ->
                     get_date e = Json (JStr (date_key t)) -> date_key t ∈ w))
  /\ (feed = [] -> res = []).
Proof.
  intros H. apply reconcile_Normal in H as (m & w & Hm & Hw & ->).
  split; [|split].
  - rewrite length_fmap. pose proof (length_omap_le (m !!.) w) as Hl.
    apply length_nineDatesFrom in Hw. lia.
  - exists w. split; [done|]. intros r Hr.
    apply list_elem_of_fmap in Hr as (e & -> & He).
    apply list_elem_of_omap in He as (k & Hk & Hmk).
    destruct (index_sound host _ _ _ _ Hm Hmk) as [Hin Hkey].
    exists e, k. repeat split; try done.
    intros t Ht Hd. apply entry_key_Some in Hkey as (_ & _ & Hf).
    rewrite Hd in Hf. apply formatDate_date_key in Hf; [|done]. by rewrite <- Hf.
  - intros ->. cbn [forEach] in Hm. apply Normal_inj in Hm as <-.
    assert (Hnil : omap (fun k : string => (∅ : gmap string json) !! k) w = []).
    { clear Hw. induction w as [|k w IH]; [done|].
      change (omap (fun k : string => (∅ : gmap string json) !! k) (k :: w))
        with (match (∅ : gmap string json) !! k with
              | Some e => e :: omap (fun k : string => (∅ : gmap string json) !! k) w
              | None => omap (fun k : string => (∅ : gmap string json) !! k) w
              end).
      by rewrite lookup_empty. }
    by rewrite Hnil.
Qed.

(** In the projection, the entries filed under [k] are those the
    occurrences of [k] among the dates select. *)
Lemma projection_filter_key feed m (w : list string) k :
  forEach (index_entry host) ∅ feed = Normal m ->
  filter (fun r => has_key host k r) (Json <$> omap (m !!.) w)
  = Json <$> omap (m !!.) (filter (fun d => d = k) w).
Proof.
  intros Hm. induction w as [|d w IH]; [done|].
  change (omap (m !!.) (d :: w))
    with (match m !! d with Some e => e :: omap (m !!.) w | None => omap (m !!.) w end).
  destruct (decide (d = k)) as [->|Hne].
  - rewrite (filter_cons_True (fun d => d = k)) by done.
    change (omap (m !!.) (k :: filter (fun d => d = k) w))
      with (match m !! k with
            | Some e => e :: omap (m !!.) (filter (fun d => d = k) w)
            | None => omap (m !!.) (filter (fun d => d = k) w)
            end).
    destruct (m !! k) as [e|] eqn:Hk; [|done].
    cbn [fmap list_fmap]. destruct (index_sound host _ _ _ _ Hm Hk) as [_ Hkey].
    rewrite filter_cons_True; [by rewrite IH|].
    cbn [has_key]. by rewrite bool_decide_eq_true_2.
  - rewrite (filter_cons_False (fun d => d = k)) by done.
    destruct (m !! d) as [e|] eqn:Hd; [|done].
    cbn [fmap list_fmap]. destruct (index_sound host _ _ _ _ Hm Hd) as [_ Hkey].
    rewrite filter_cons_False; [done|].
    cbn [has_key]. rewrite bool_decide_eq_false_2; [tauto|]. congruence.
Qed.

(** X2.  Last write wins: of the entries of the feed filed under the date [k],
    the last one, and none but it, is returned for [k], once when [k]
    occurs once among the dates of the window. *)
Theorem reconcile_last_write_wins (startIso : string) (l1 l3 : list json) (e : json)
    (k : string) (res : list jsval) (w : list string) :
  reconcile host startIso (l1 ++ e :: l3) = Normal res ->
  nineDatesFrom host startIso = Normal w ->
  entry_key host e = Normal (Some k) ->
  Forall (fun e' => entry_key host e' <> Normal (Some k)) l3 ->
  length (filter (fun d => d = k) w) = 1%nat ->
  filter (fun r => has_key host k r) res = [Json e].
Proof.
  intros H Hw He Hl3 Hone.
  apply reconcile_Normal in H as (m & w' & Hm & Hw' & ->).
  assert (w' = w) as -> by congruence.
  rewrite (projection_filter_key _ _ _ _ Hm).
  assert (Hk : filter (fun d => d = k) w = [k]).
  { destruct (filter (fun d => d = k) w) as [|d [|]] eqn:Hf; try done.
    assert (Hd : d ∈ filter (fun d => d = k) w) by (rewrite Hf; left).
    apply list_elem_of_filter in Hd as [-> _]. done. }
  rewrite Hk.
  change (omap (m !!.) [k]) with (match m !! k with Some e => [e] | None => [] end).
  by rewrite (index_last host _ _ _ _ _ _ Hm He Hl3).
Qed.


End ReconcilerFacts.

Section OrderFacts.

Context (host : Host).

Lemma forEach_index_Forall m feed m' :
  forEach (index_entry host) m feed = Normal m' ->
  Forall (fun e => exists ok, entry_key host e = Normal ok) feed.
Proof.
  revert m. induction feed as [|e feed IH]; intros m; cbn [forEach]; [by constructor|].
  rewrite index_entry_key. destruct (entry_key host e) as [ok|] eqn:He; [|done].
  cbn. intros Hf. constructor; [by exists ok | by eapply IH].
Qed.

(** Without duplicate keys the lookup does not depend on the order of the
    feed. *)
Lemma index_Permutation feed1 feed2 :
  feed1 ≡ₚ feed2 -> NoDup (feed_keys host feed1) ->
  match forEach (index_entry host) ∅ feed1 with
  | Normal m1 => forEach (index_entry host) ∅ feed2 = Normal m1
  | Throw e1 =>
      exists e2, forEach (index_entry host) ∅ feed2 = Throw e2
        /\ (Forall (fun e => entry_key host e <> Throw TypeError) feed1 -> e2 = e1)
  end.
Proof.
  intros Hp Hnd.
  assert (Hnd2 : NoDup (feed_keys host feed2)).
  { unfold feed_keys in *. by rewrite <- Hp. }
  destruct (forEach (index_entry host) ∅ feed1) as [m1|err] eqn:H1.
  - pose proof (forEach_index_Forall _ _ _ H1) as Hall. rewrite Hp in Hall.
    destruct (forEach_index_Normal host ∅ _ Hall) as [m2 H2]. rewrite H2. f_equal.
    symmetry.
    apply map_eq. intros k.
    destruct (m1 !! k) as [e|] eqn:Hk1.
    + destruct (index_sound host _ _ _ _ H1 Hk1) as [Hin Hkey].
      rewrite Hp in Hin. symmetry. by eapply index_NoDup.
    + destruct (m2 !! k) as [e|] eqn:Hk2; [|done].
      destruct (index_sound host _ _ _ _ H2 Hk2) as [Hin Hkey].
      rewrite <- Hp in Hin.
      rewrite (index_NoDup host _ _ _ _ Hnd H1 Hin Hkey) in Hk1. done.
  - apply forEach_index_Throw in H1 as [Herr Hex].
    assert (Hex2 : Exists (fun e => exists err, entry_key host e = Throw err) feed2).
    { rewrite <- Hp. eapply Exists_impl; [exact Hex|]. intros e He. by exists err. }
    destruct (forEach_index_Exists_Throw host ∅ feed2 Hex2) as [e2 H2].
    exists e2. split; [done|]. intros Hall.
    assert (Hno : forall e', Exists (fun e => entry_key host e = Throw e') feed1 ->
                    e' = RangeError \/ e' = TypeError -> e' = RangeError).
    { intros e' Hex' [->| ->]; [done|]. apply Exists_exists in Hex' as (e & Hin & He).
      eapply Forall_forall in Hall; [|exact Hin]. done. }
    rewrite (Hno err Hex Herr).
    apply forEach_index_Throw in H2 as [Herr2 Hex2']. rewrite <- Hp in Hex2'.
    by apply Hno.
Qed.

(** The entries returned follow the order of the dates looked up. *)
Lemma projection_keys {I} feed m (f : I -> string) (idx : list I) :
  forEach (index_entry host) ∅ feed = Normal m ->
  Forall2 (fun r i => has_key host (f i) r = true)
          (Json <$> omap (m !!.) (map f idx))
          (filter (fun i => is_Some (m !! f i)) idx).
Proof.
  intros Hm. induction idx as [|i idx IH]; [constructor|].
  cbn [map].
  change (omap (m !!.) (f i :: map f idx))
    with (match m !! f i with
          | Some e => e :: omap (m !!.) (map f idx)
          | None => omap (m !!.) (map f idx)
          end).
  destruct (m !! f i) as [e|] eqn:Hk.
  - rewrite filter_cons_True by (by rewrite Hk).
    cbn [fmap list_fmap]. constructor; [|done].
    destruct (index_sound host _ _ _ _ Hm Hk) as [_ Hkey].
    cbn [has_key]. by apply bool_decide_eq_true_2.
  - rewrite filter_cons_False; [done|]. rewrite Hk. by intros [? ?].
Qed.

(** C3.  For feeds without duplicate dates the result does not depend on
    the order of the feed: the reconciler ends the same way in either order,
    with the same result, or with an exception in both, the same one
    whenever no date of the feed is an object without a primitive, as none
    is in a feed that was loaded; the result lists the entries found in the
    order of the window's dates, which in a zone of steady offset is the
    ascending order of the days [d0], ..., [d0 + 8]. *)
Theorem reconcile_order_independent (startIso : string) (feed1 feed2 : list json) :
  feed1 ≡ₚ feed2 ->
  NoDup (feed_keys host feed1) ->
  (reconcile host startIso feed1 = reconcile host startIso feed2
   \/ ((exists err, reconcile host startIso feed1 = Throw err)
       /\ (exists err, reconcile host startIso feed2 = Throw err)))
  /\ (Forall (fun e => entry_key host e <> Throw TypeError) feed1 ->
      reconcile host startIso feed1 = reconcile host startIso feed2)
  /\ (forall res w,
        reconcile host startIso feed1 = Normal res ->
        nineDatesFrom host startIso = Normal w ->
        exists found, found `sublist_of` w
          /\ Forall2 (fun r k => has_key host k r = true) res found)
  /\ (forall d0 res,
        startIso = iso_day d0 ->
        0 <= ES.YearFromDay d0 -> ES.YearFromDay (d0 + 8) <= 9999 ->
        offset_steady host (d0 * ES.msPerDay) ->
        reconcile host startIso feed1 = Normal res ->
        exists offsets, offsets `sublist_of` seqZ 0 9
          /\ Forall2 (fun r i => has_key host (iso_day (d0 + i)) r = true) res offsets).
Proof.
  intros Hp Hnd. pose proof (index_Permutation _ _ Hp Hnd) as Hidx.
  split; [|split; [|split]].
  - unfold reconcile.
    destruct (forEach (index_entry host) ∅ feed1) as [m1|e1]; [left; by rewrite Hidx|].
    destruct Hidx as (e2 & -> & _). right. split; [by exists e1 | by exists e2].
  - intros Hall. unfold reconcile.
    destruct (forEach (index_entry host) ∅ feed1) as [m1|e1]; [by rewrite Hidx|].
    destruct Hidx as (e2 & -> & He). by rewrite (He Hall).
  - intros res w H Hw. apply reconcile_Normal in H as (m & w' & Hm & Hw' & ->).
    assert (w' = w) as -> by congruence.
    exists (filter (fun k => is_Some (m !! k)) w). split; [apply sublist_filter|].
    pose proof (projection_keys _ _ (fun k => k) w Hm) as H.
    by rewrite map_id in H.
  - intros d0 res -> Hlo Hhi Hst H.
    apply reconcile_Normal in H as (m & w & Hm & Hw & ->).
    rewrite nineDatesFrom_steady in Hw by done. apply Normal_inj in Hw as <-.
    exists (filter (fun i => is_Some (m !! iso_day (d0 + i))) (seqZ 0 9)).
    split; [apply sublist_filter|].
    apply (projection_keys _ _ (fun i => iso_day (d0 + i)) _ Hm).
Qed.

(** The window throws on an invalid start only. *)
Lemma nineDatesFrom_Throw startIso err :
  nineDatesFrom host startIso = Throw err -> err = RangeError.
Proof.
  unfold nineDatesFrom. rewrite new_Date_string. cbn [mbind completion_bind]. intros H.
  apply map_throwing_Throw in H as (i & _ & H).
  cbn [new_Date mbind completion_bind] in H. cbv zeta in H.
  by apply formatDate_DateObj_Throw in H.
Qed.

(** The entries whose date throws a [TypeError]: the date is an object, or
    an array that holds one, with a [toString] member of its own. *)
Lemma entry_key_TypeError e :
  entry_key host e = Throw TypeError ->
  exists j, get_date e = Json j /\ to_string j = Throw TypeError.
Proof.
  unfold entry_key. destruct (truthy (Json e) && truthy (get_date e)); [|done].
  unfold formatDate. destruct (get_date e) as [|j|tv]; [done| |by destruct tv].
  intros H. exists j. split; [done|].
  destruct (to_string j) as [s|err] eqn:Hs.
  - exfalso. destruct j as [|b|x|s'|items|fields]; cbn [new_Date] in H;
      try rewrite Hs in H; cbn [mbind completion_bind] in H;
      match type of H with
      | context [toISOString ?tv] => destruct tv; discriminate H
      end.
  - f_equal. by eapply to_string_Throw.
Qed.

(** X3.  The reconciler returns a result exactly when no entry's date fails
    to normalise and the window can be computed.  It throws nothing but a
    [RangeError], on an invalid date, and a [TypeError], on an entry whose
    date has no primitive: an object, or an array that holds one, with a
    [toString] member of its own. *)
Theorem reconcile_returns_iff (startIso : string) (feed : list json) :
  ((exists res, reconcile host startIso feed = Normal res)
   <-> Forall (fun e => exists ok, entry_key host e = Normal ok) feed
       /\ exists w, nineDatesFrom host startIso = Normal w)
  /\ (forall err, reconcile host startIso feed = Throw err ->
        err = RangeError \/ err = TypeError)
  /\ (reconcile host startIso feed = Throw TypeError ->
      exists e j, e ∈ feed /\ get_date e = Json j /\ to_string j = Throw TypeError).
Proof.
  split; [split|split].
  - intros [res H]. apply reconcile_Normal in H as (m & w & Hm & Hw & _).
    split; [by eapply forEach_index_Forall | by exists w].
  - intros [Hall [w Hw]]. destruct (forEach_index_Normal host ∅ _ Hall) as [m Hm].
    unfold reconcile. rewrite Hm, Hw. eauto.
  - intros err. unfold reconcile.
    destruct (forEach (index_entry host) ∅ feed) as [m|err'] eqn:Hm.
    + cbn [mbind completion_bind].
      destruct (nineDatesFrom host startIso) as [w|err''] eqn:Hw; [done|].
      cbn [mbind completion_bind]. intros [= <-]. left. by eapply nineDatesFrom_Throw.
    + cbn [mbind completion_bind]. intros [= <-].
      by apply forEach_index_Throw in Hm as [? _].
  - unfold reconcile.
    destruct (forEach (index_entry host) ∅ feed) as [m|err'] eqn:Hm.
    + cbn [mbind completion_bind].
      destruct (nineDatesFrom host startIso) as [w|err''] eqn:Hw; [done|].
      cbn [mbind completion_bind]. intros [= ->].
      by apply nineDatesFrom_Throw in Hw.
    + cbn [mbind completion_bind]. intros [= ->].
      apply forEach_index_Throw in Hm as [_ Hex].
      apply Exists_exists in Hex as (e & Hin & He).
      apply entry_key_TypeError in He as (j & Hj & Hs). by exists e, j.
Qed.

End OrderFacts.

(** ** The feed loader *)

Lemma is_digit_char v : 0 <= v < 10 -> is_digit (digit_char v) = true.
Proof. intros H. each_digit H; reflexivity. Qed.

Lemma canonical_iso_day d : 0 <= ES.YearFromDay d <= 9999 -> canonical (iso_day d) = true.
Proof.
  intros Hy. unfold iso_day, iso_date_chars, iso_year.
  assert (ES.YearFromTime (d * ES.msPerDay) = ES.YearFromDay d) as ->
    by (unfold ES.YearFromTime; by rewrite ESFacts.Day_of_midnight).
  replace ((0 <=? ES.YearFromDay d) && (ES.YearFromDay d <=? 9999)) with true
    by (symmetry; apply andb_true_intro; split; apply Z.leb_le; lia).
  rewrite pad4_eq, !pad2_eq. cbn [app]. unfold canonical. rewrite chars_str.
  cbn [forallb]. rewrite !is_digit_char by (apply Z.mod_pos_bound; lia).
  reflexivity.
Qed.

Lemma assoc_with_date fields d : assoc "date" (with_date fields d) = Some d.
Proof.
  induction fields as [|[k v] fields IH]; [done|].
  cbn [with_date]. destruct (String.eqb "date" k) eqn:Hk; cbn [assoc]; by rewrite Hk.
Qed.

Lemma get_date_with_date fields d : get_date (JObj (with_date fields d)) = Json d.
Proof. cbn [get_date]. by rewrite assoc_with_date. Qed.

Lemma map_throwing_Forall2 {A B} (f : A -> completion B) l r :
  map_throwing f l = Normal r -> Forall2 (fun x y => f x = Normal y) l r.
Proof.
  revert r. induction l as [|x l IH]; intros r; cbn [map_throwing].
  - intros [= <-]. constructor.
  - destruct (f x) as [y|] eqn:Hx; [|done]. cbn [mbind completion_bind].
    destruct (map_throwing f l) as [ys|]; [|done]. cbn [mbind completion_bind].
    intros [= <-]. constructor; [done | by apply IH].
Qed.

Lemma map_throwing_Exists {A B} (f : A -> completion B) l :
  Exists (fun x => exists err, f x = Throw err) l ->
  exists err, map_throwing f l = Throw err.
Proof.
  induction 1 as [x l [err Hx] | x l _ [err IH]]; cbn [map_throwing].
  - exists err. by rewrite Hx.
  - destruct (f x) as [y|err']; [|by exists err'].
    exists err. cbn [mbind completion_bind]. by rewrite IH.
Qed.

Section Loader.

Context (host : Host).

(** An item is normalised exactly when its [date] converts to a valid
    date; the copy then carries the string [formatDate] wrote. *)
Lemma normalize_item_Normal item e :
  normalize_item host item = Normal e ->
  exists t, Z.abs t <= 8640000000000000
    /\ formatDate host (get_date item) = Normal (date_key t)
    /\ e = JObj (with_date (spread item) (JStr (date_key t)))
    /\ get_date e = Json (JStr (date_key t)).
Proof.
  unfold normalize_item. intros H.
  assert (Hm : member_date item = Normal (get_date item) \/ member_date item = Throw TypeError)
    by (destruct item; auto).
  destruct Hm as [Hm|Hm]; rewrite Hm in H; [|done].
  cbn [mbind completion_bind] in H.
  destruct (formatDate host (get_date item)) as [s|] eqn:Hf; [|done].
  cbn [mbind completion_bind] in H. apply Normal_inj in H as <-.
  destruct (get_date item) as [|j|tv] eqn:Hd.
  - done.
  - apply formatDate_Json in Hf as (t & Ht & ->).
    exists t. repeat split; try done. apply get_date_with_date.
  - by destruct item as [| | | | |fields]; cbn in Hd; try destruct (assoc "date" fields).
Qed.

(** An item whose [date] does not convert is not normalised: the
    conversion throws. *)
Lemma normalize_item_Throw item err :
  formatDate host (get_date item) = Throw err ->
  exists err', normalize_item host item = Throw err'.
Proof.
  intros Hf. unfold normalize_item. destruct item; cbn [member_date mbind completion_bind];
    try (rewrite Hf; by exists err). by exists TypeError.
Qed.

(** The outcomes of the loader, one by one.  It never throws.  It returns
    the empty sequence when the transport fails, when the status is not a
    success, when the body is not JSON or not an array, and also when
    normalising some element of the array throws; when every element of the
    array is normalised, it returns each with its [date] replaced by the
    string [formatDate] wrote, which has the shape [YYYY-MM-DD] for the
    years 0 to 9999. *)
Theorem fetchClassFeed_outcomes :
  (forall o, exists feed, fetchClassFeed host o = Normal feed)
  /\ fetchClassFeed host FetchFailed = Normal []
  /\ (forall status b, ok status = false ->
        fetchClassFeed host (Response status b) = Normal [])
  /\ (forall status, fetchClassFeed host (Response status BodyNotJson) = Normal [])
  /\ (forall status j, (forall items, j <> JArr items) ->
        fetchClassFeed host (Response status (BodyJson j)) = Normal [])
  /\ (forall status items err, ok status = true ->
        map_throwing (normalize_item host) items = Throw err ->
        fetchClassFeed host (Response status (BodyJson (JArr items))) = Normal [])
  /\ (forall status items feed, ok status = true ->
        map_throwing (normalize_item host) items = Normal feed ->
        fetchClassFeed host (Response status (BodyJson (JArr items))) = Normal feed
        /\ Forall2 (fun item e =>
             exists t, Z.abs t <= 8640000000000000
               /\ formatDate host (get_date item) = Normal (date_key t)
               /\ e = JObj (with_date (spread item) (JStr (date_key t)))
               /\ get_date e = Json (JStr (date_key t))
               /\ (0 <= ES.YearFromTime t <= 9999 -> canonical (date_key t) = true))
             items feed).
Proof.
  split; [|split; [|split; [|split; [|split; [|split]]]]].
  - intros o. unfold fetchClassFeed.
    match goal with |- exists feed, try_catch ?c _ = _ => destruct c as [feed|]; cbn end;
      eauto.
  - reflexivity.
  - intros status b Hok. unfold fetchClassFeed. by rewrite Hok.
  - intros status. unfold fetchClassFeed. by destruct (ok status).
  - intros status j Hj. unfold fetchClassFeed. destruct (ok status); [|done].
    destruct j; try done. by destruct (Hj items).
  - intros status items err Hok Hm. unfold fetchClassFeed. rewrite Hok.
    cbn [negb res_json mbind completion_bind]. by rewrite Hm.
  - intros status items feed Hok Hm. split.
    + unfold fetchClassFeed. rewrite Hok. cbn [negb res_json mbind completion_bind].
      by rewrite Hm.
    + apply map_throwing_Forall2 in Hm. eapply Forall2_impl; [exact Hm|].
      intros item e He. cbn beta in He.
      apply normalize_item_Normal in He as (t & Ht & Hf & -> & Hd).
      exists t. repeat split; try done.
      intros Hy. rewrite date_key_canonical by done. by apply canonical_iso_day.
Qed.

(** One element whose [date] does not convert empties the feed: the
    exception of [formatDate] leaves [map] and is caught with those of the
    request. *)
Lemma misdated_element_empties_feed (e : json) (err : exn) (status : Z)
    (items : list json) :
  formatDate host (get_date e) = Throw err ->
  ok status = true -> e ∈ items ->
  fetchClassFeed host (Response status (BodyJson (JArr items))) = Normal [].
Proof.
  intros Hf Hok Hin.
  destruct (map_throwing_Exists (normalize_item host) items) as [err' Herr].
  { apply Exists_exists. exists e. split; [done|]. by eapply normalize_item_Throw. }
  unfold fetchClassFeed. rewrite Hok. cbn [negb res_json mbind completion_bind].
  by rewrite Herr.
Qed.

End Loader.

(** ** The page *)

Section PageFacts.

Context (host : Host) (Date_toString : timevalue -> string).

Lemma setLoading_present show p hidden btn :
  loadingEl p = Some hidden -> getImageBtn p = Some btn ->
  loadingEl (setLoading show p) = Some (negb show)
  /\ getImageBtn (setLoading show p)
     = Some {| disabled := show; has_loading_class := show |}.
Proof. intros Hl Hb. unfold setLoading. by rewrite Hl, Hb. Qed.

Lemma renderGallery_controls items p :
  loadingEl (fst (renderGallery Date_toString items p)) = loadingEl p
  /\ getImageBtn (fst (renderGallery Date_toString items p)) = getImageBtn p.
Proof.
  unfold renderGallery. destruct (galleryEl p); [|done].
  destruct items; [done|]. by destruct (append_cards _ _ _).
Qed.

(** A run of the handler with a start chosen, by what the body of its [try]
    leaves: the page, and the exception if it throws. *)
Lemma handleFetch_run p o s :
  startDateInput p = Some s -> s <> ""%string ->
  handleFetch host Date_toString p o
  = let body :=
      match (feed ← fetchClassFeed host o; reconcile host s feed) with
      | Normal results => renderGallery Date_toString results (setLoading true p)
      | Throw err => (setLoading true p, Some err)
      end in
    {| outstanding := Some (setLoading true p);
       settled :=
         setLoading false
           (match snd body with
            | Some err =>
                alert "An error occurred while fetching images. See the console for details."
                      (fst body)
            | None => fst body
            end) |}.
Proof.
  intros Hs Hne. unfold handleFetch. rewrite Hs.
  destruct (String.eqb_spec s "") as [|_]; [done|].
  change (if USE_APOD then fetchApodRange host s o else fetchClassFeed host o)
    with (fetchClassFeed host o).
  cbv zeta.
  by destruct (match _ ≫= _ with Normal results => _ | Throw err => _ end).
Qed.

(** C7.  On a page that has the loading indicator and the button, a run of
    [handleFetch] with a start date chosen has the button disabled while the
    request is outstanding and enabled once the handler is done, however
    the request settles and whether or not the rest of the handler throws. *)
Theorem handleFetch_reenables_button (p : Page) (o : fetch_outcome) (startIso : string)
    (hidden : bool) (btn : button) :
  startDateInput p = Some startIso ->
  startIso <> ""%string ->
  loadingEl p = Some hidden ->
  getImageBtn p = Some btn ->
  (exists p1, outstanding (handleFetch host Date_toString p o) = Some p1
              /\ disabled <$> getImageBtn p1 = Some true)
  /\ disabled <$> getImageBtn (settled (handleFetch host Date_toString p o)) = Some false.
Proof.
  intros Hs Hne Hl Hb. rewrite (handleFetch_run p o startIso Hs Hne). cbv zeta.
  destruct (setLoading_present true p hidden btn Hl Hb) as [Hl1 Hb1].
  cbn [outstanding settled]. split.
  - exists (setLoading true p). by rewrite Hb1.
  - set (body := match _ ≫= _ with Normal results => _ | Throw err => _ end).
    assert (Hbody : loadingEl (fst body) = loadingEl (setLoading true p)
                    /\ getImageBtn (fst body) = getImageBtn (setLoading true p)).
    { subst body. destruct (_ ≫= _) as [results|err]; [|done].
      apply renderGallery_controls. }
    destruct Hbody as [Hlb Hbb].
    match goal with
    | |- context [setLoading false ?q] =>
        assert (Hq : loadingEl q = Some false /\ exists b, getImageBtn q = Some b)
    end.
    { destruct (snd body); cbn [alert loadingEl getImageBtn];
        rewrite Hlb, Hbb, Hl1, Hb1; eauto. }
    destruct Hq as (Hlq & b & Hbq).
    destruct (setLoading_present false _ _ b Hlq Hbq) as [_ ->]. done.
Qed.

End PageFacts.

(** ** The worked example, and the window across a clock change *)

Section Example.

Context (host : Host).

Lemma entry_key_string e s k :
  get_date e = Json (JStr s) -> s <> ""%string ->
  formatDate host (Json (JStr s)) = Normal k ->
  entry_key host e = Normal (Some k).
Proof.
  intros Hd Hs Hf. unfold entry_key. rewrite Hd, Hf.
  assert (truthy (Json e) = true) as ->.
  { destruct e as [| | | | |fields]; try done. }
  cbn [truthy truthy_json]. by destruct (String.eqb_spec s "").
Qed.

Lemma forEach_index_cons m e k l :
  entry_key host e = Normal (Some k) ->
  forEach (index_entry host) m (e :: l) = forEach (index_entry host) (<[k := e]> m) l.
Proof. intros He. cbn [forEach]. by rewrite index_entry_key, He. Qed.

Lemma forEach_index_three m e1 e2 e3 k1 k2 k3 :
  entry_key host e1 = Normal (Some k1) ->
  entry_key host e2 = Normal (Some k2) ->
  entry_key host e3 = Normal (Some k3) ->
  forEach (index_entry host) m [e1; e2; e3]
  = Normal (<[k3 := e3]> (<[k2 := e2]> (<[k1 := e1]> m))).
Proof.
  intros H1 H2 H3.
  by rewrite (forEach_index_cons _ _ _ _ H1), (forEach_index_cons _ _ _ _ H2),
    (forEach_index_cons _ _ _ _ H3).
Qed.

Lemma reconcile_built startIso feed m w :
  forEach (index_entry host) ∅ feed = Normal m ->
  nineDatesFrom host startIso = Normal w ->
  reconcile host startIso feed
  = Normal (filter (fun v => truthy v) (map (Map_get m) w)).
Proof. intros Hm Hw. unfold reconcile. by rewrite Hm, Hw. Qed.

(** C8.  In a zone whose offset is steady from 2021-06-20 on, the window of
    2021-06-20 runs to 2021-06-28, and of three entries dated 2021-06-20,
    2021-06-22 and 2021-07-01 the reconciler returns the first two, in that
    order. *)
Theorem example_2021_06_20 (e1 e2 e3 : json) :
  offset_steady host 1624147200000 ->
  get_date e1 = Json (JStr "2021-06-20") ->
  get_date e2 = Json (JStr "2021-06-22") ->
  get_date e3 = Json (JStr "2021-07-01") ->
  nineDatesFrom host "2021-06-20"
  = Normal ["2021-06-20"; "2021-06-21"; "2021-06-22"; "2021-06-23"; "2021-06-24";
            "2021-06-25"; "2021-06-26"; "2021-06-27"; "2021-06-28"]%string
  /\ reconcile host "2021-06-20" [e1; e2; e3] = Normal [Json e1; Json e2].
Proof.
  intros Hst H1 H2 H3.
  assert (E20 : iso_day 18798 = "2021-06-20"%string) by (vm_compute; reflexivity).
  assert (E22 : iso_day 18800 = "2021-06-22"%string) by (vm_compute; reflexivity).
  assert (E01 : iso_day 18809 = "2021-07-01"%string) by (vm_compute; reflexivity).
  assert (Ew : map (fun i => iso_day (18798 + i)) (seqZ 0 9)
               = ["2021-06-20"; "2021-06-21"; "2021-06-22"; "2021-06-23"; "2021-06-24";
                  "2021-06-25"; "2021-06-26"; "2021-06-27"; "2021-06-28"]%string)
    by (vm_compute; reflexivity).
  assert (Y0 : 0 <= ES.YearFromDay 18798 <= 9999) by (vm_compute; split; discriminate).
  assert (Y2 : 0 <= ES.YearFromDay 18800 <= 9999) by (vm_compute; split; discriminate).
  assert (Y9 : 0 <= ES.YearFromDay 18809 <= 9999) by (vm_compute; split; discriminate).
  assert (Y8 : ES.YearFromDay (18798 + 8) <= 9999) by (vm_compute; discriminate).
  assert (Et : 18798 * ES.msPerDay = 1624147200000) by (vm_compute; reflexivity).
  assert (Hw : nineDatesFrom host "2021-06-20"
               = Normal ["2021-06-20"; "2021-06-21"; "2021-06-22"; "2021-06-23";
                         "2021-06-24"; "2021-06-25"; "2021-06-26"; "2021-06-27";
                         "2021-06-28"]%string).
  { rewrite <- Ew, <- E20. apply nineDatesFrom_steady; [lia | done | by rewrite Et]. }
  split; [exact Hw|].
  assert (Hk1 : entry_key host e1 = Normal (Some "2021-06-20"%string)).
  { apply (entry_key_string e1 "2021-06-20"); [exact H1 | discriminate |].
    rewrite <- E20. by apply formatDate_iso_day. }
  assert (Hk2 : entry_key host e2 = Normal (Some "2021-06-22"%string)).
  { apply (entry_key_string e2 "2021-06-22"); [exact H2 | discriminate |].
    rewrite <- E22. by apply formatDate_iso_day. }
  assert (Hk3 : entry_key host e3 = Normal (Some "2021-07-01"%string)).
  { apply (entry_key_string e3 "2021-07-01"); [exact H3 | discriminate |].
    rewrite <- E01. by apply formatDate_iso_day. }
  clear E20 E22 E01 Ew Y0 Y2 Y9 Y8 Et.
  rewrite (reconcile_built _ _ _ _
             (forEach_index_three _ _ _ _ _ _ _ Hk1 Hk2 Hk3) Hw).
  apply entry_key_Some in Hk1 as [T1 _]. apply entry_key_Some in Hk2 as [T2 _].
  cbn [map]. unfold Map_get.
  rewrite !lookup_insert_ne by discriminate. rewrite !lookup_insert_eq.
  rewrite !lookup_insert_ne by discriminate. rewrite !lookup_insert_eq.
  rewrite !lookup_insert_ne by discriminate. rewrite !lookup_empty.
  cbn [from_option].
  repeat first [ rewrite filter_cons_True by (by rewrite ?T1, ?T2)
               | rewrite filter_cons_False by (cbn; tauto) ].
  reflexivity.
Qed.

End Example.

(** C1.  The window is computed on local timestamps, not on calendar days:
    in the US Eastern zone the window of 2021-03-10 crosses the start of
    daylight-saving time, names 2021-03-14 twice and stops at 2021-03-17
    instead of 2021-03-18. *)
Theorem nineDatesFrom_across_clock_change :
  nineDatesFrom us_eastern_2021 "2021-03-10"
  = Normal ["2021-03-10"; "2021-03-11"; "2021-03-12"; "2021-03-13"; "2021-03-14";
            "2021-03-14"; "2021-03-15"; "2021-03-16"; "2021-03-17"]%string.
Proof. vm_compute. reflexivity. Qed.

(** C4.  Of two entries dated 2021-03-14 the later one wins, but the window
    of 2021-03-10 in the US Eastern zone names that date twice, and the
    entry is returned twice. *)
Theorem reconcile_across_clock_change :
  reconcile us_eastern_2021 "2021-03-10" [entry_0314; entry_0314_again]
  = Normal [Json entry_0314_again; Json entry_0314_again].
Proof. vm_compute. reflexivity. Qed.

(** Month and year roll over: a leap-year February, a non-leap one, and a
    New Year, in the UTC zone. *)
Example window_leap_february :
  nineDatesFrom utc_host "2024-02-25"
  = Normal ["2024-02-25"; "2024-02-26"; "2024-02-27"; "2024-02-28"; "2024-02-29";
            "2024-03-01"; "2024-03-02"; "2024-03-03"; "2024-03-04"]%string.
Proof. vm_compute. reflexivity. Qed.

Example window_plain_february :
  nineDatesFrom utc_host "2023-02-25"
  = Normal ["2023-02-25"; "2023-02-26"; "2023-02-27"; "2023-02-28"; "2023-03-01";
            "2023-03-02"; "2023-03-03"; "2023-03-04"; "2023-03-05"]%string.
Proof. vm_compute. reflexivity. Qed.

Example window_new_year :
  nineDatesFrom utc_host "2023-12-28"
  = Normal ["2023-12-28"; "2023-12-29"; "2023-12-30"; "2023-12-31"; "2024-01-01";
            "2024-01-02"; "2024-01-03"; "2024-01-04"; "2024-01-05"]%string.
Proof. vm_compute. reflexivity. Qed.

(** West of Greenwich the start is a local evening of the day before; with
    a steady offset the window is the same. *)
Example window_us_eastern_june :
  nineDatesFrom us_eastern_2021 "2021-06-20"
  = Normal ["2021-06-20"; "2021-06-21"; "2021-06-22"; "2021-06-23"; "2021-06-24";
            "2021-06-25"; "2021-06-26"; "2021-06-27"; "2021-06-28"]%string.
Proof. vm_compute. reflexivity. Qed.

(** Past the year 9999 the first ten characters no longer hold a day. *)
Example window_year_10000 :
  nineDatesFrom utc_host "9999-12-28"
  = Normal ["9999-12-28"; "9999-12-29"; "9999-12-30"; "9999-12-31"; "+010000-01";
            "+010000-01"; "+010000-01"; "+010000-01"; "+010000-01"]%string.
Proof. vm_compute. reflexivity. Qed.

(** A start date that does not parse makes the window throw. *)
Example window_of_garbage : nineDatesFrom utc_host "soon" = Throw RangeError.
Proof. vm_compute. reflexivity. Qed.

(** X1.  In a zone whose offset is steady over the window, the window of
    the day numbered [d0] is the nine calendar dates [d0], ..., [d0 + 8], in
    ascending order, for the years 0 to 9999. *)
Theorem window_of_nine_days (host : Host) (d0 : Z) :
  0 <= ES.YearFromDay d0 ->
  ES.YearFromDay (d0 + 8) <= 9999 ->
  offset_steady host (d0 * ES.msPerDay) ->
  nineDatesFrom host (iso_day d0)
  = Normal (map (fun i => iso_day (d0 + i)) [0; 1; 2; 3; 4; 5; 6; 7; 8]).
Proof. intros Hlo Hhi Hst. by apply nineDatesFrom_steady. Qed.

Lemma utc_steady t0 : offset_steady utc_host t0.
Proof. intros i Hi. reflexivity. Qed.

Lemma window_of_nine_days_witness :
  nineDatesFrom utc_host (iso_day 19778)
  = Normal (map (fun i => iso_day (19778 + i)) [0; 1; 2; 3; 4; 5; 6; 7; 8]).
Proof.
  apply (window_of_nine_days utc_host 19778).
  - vm_compute. discriminate.
  - vm_compute. discriminate.
  - apply utc_steady.
Defined.

(** ** Instances at sample inputs *)

Lemma formatDate_idempotent_witness :
  formatDate utc_host (Json (JNum (integer 1624190400000))) = Normal "2021-06-20"%string
  /\ canonical "2021-06-20" = true
  /\ formatDate utc_host (Json (JStr "2021-06-20")) = Normal "2021-06-20"%string.
Proof.
  assert (H1 : formatDate utc_host (Json (JNum (integer 1624190400000)))
               = Normal "2021-06-20"%string)
    by (vm_compute; reflexivity).
  assert (H2 : canonical "2021-06-20" = true) by (vm_compute; reflexivity).
  exact (conj H1 (conj H2 (formatDate_idempotent utc_host _ _ H1 H2))).
Defined.

Lemma reconcile_within_window_witness :
  reconcile utc_host "2021-06-20" [entry_0701; entry_0622; entry_0620]
  = Normal [Json entry_0620; Json entry_0622]
  /\ (length [Json entry_0620; Json entry_0622] <= 9)%nat
  /\ (exists w, nineDatesFrom utc_host "2021-06-20" = Normal w
        /\ forall r, r ∈ [Json entry_0620; Json entry_0622] ->
             exists e k, r = Json e /\ e ∈ [entry_0701; entry_0622; entry_0620]
               /\ entry_key utc_host e = Normal (Some k) /\ k ∈ w
               /\ (forall t, Z.abs t <= 8640000000000000 ->
                     get_date e = Json (JStr (date_key t)) -> date_key t ∈ w))
  /\ ([entry_0701; entry_0622; entry_0620] = [] ->
      [Json entry_0620; Json entry_0622] = []).
Proof.
  assert (H : reconcile utc_host "2021-06-20" [entry_0701; entry_0622; entry_0620]
              = Normal [Json entry_0620; Json entry_0622])
    by (vm_compute; reflexivity).
  exact (conj H (reconcile_within_window utc_host _ _ _ H)).
Defined.

Lemma reconcile_order_independent_witness :
  [entry_0622; entry_0620] ≡ₚ [entry_0620; entry_0622]
  /\ NoDup (feed_keys utc_host [entry_0622; entry_0620])
  /\ Forall (fun e => entry_key utc_host e <> Throw TypeError) [entry_0622; entry_0620]
  /\ reconcile utc_host "2021-06-20" [entry_0622; entry_0620]
     = reconcile utc_host "2021-06-20" [entry_0620; entry_0622].
Proof.
  assert (Hk : Forall (fun e => entry_key utc_host e <> Throw TypeError)
                      [entry_0622; entry_0620]).
  { repeat apply Forall_cons_2; [| |apply Forall_nil_2].
    - assert (entry_key utc_host entry_0622 = Normal (Some "2021-06-22"%string)) as ->
        by (vm_compute; reflexivity).
      intros Heq. discriminate Heq.
    - assert (entry_key utc_host entry_0620 = Normal (Some "2021-06-20"%string)) as ->
        by (vm_compute; reflexivity).
      intros Heq. discriminate Heq. }
  assert (Hp : [entry_0622; entry_0620] ≡ₚ [entry_0620; entry_0622]) by apply perm_swap.
  assert (Hn : NoDup (feed_keys utc_host [entry_0622; entry_0620])).
  { assert (feed_keys utc_host [entry_0622; entry_0620]
            = ["2021-06-22"; "2021-06-20"]%string) as -> by (vm_compute; reflexivity).
    apply NoDup_cons. split; [|apply NoDup_singleton].
    intros Hin. apply list_elem_of_singleton in Hin. discriminate Hin. }
  exact (conj Hp (conj Hn (conj Hk
           (proj1 (proj2 (reconcile_order_independent utc_host "2021-06-20" _ _ Hp Hn))
                  Hk)))).
Defined.

Lemma reconcile_last_write_wins_witness :
  reconcile utc_host "2021-06-20" ([entry_0622] ++ entry_0622_again :: [entry_0620])
  = Normal [Json entry_0620; Json entry_0622_again]
  /\ nineDatesFrom utc_host "2021-06-20" = Normal window_0620
  /\ entry_key utc_host entry_0622_again = Normal (Some "2021-06-22"%string)
  /\ Forall (fun e' => entry_key utc_host e' <> Normal (Some "2021-06-22"%string))
            [entry_0620]
  /\ length (filter (fun d => d = "2021-06-22"%string) window_0620) = 1%nat
  /\ filter (fun r => has_key utc_host "2021-06-22" r)
            [Json entry_0620; Json entry_0622_again]
     = [Json entry_0622_again].
Proof.
  assert (H1 : reconcile utc_host "2021-06-20"
                 ([entry_0622] ++ entry_0622_again :: [entry_0620])
               = Normal [Json entry_0620; Json entry_0622_again])
    by (vm_compute; reflexivity).
  assert (H2 : nineDatesFrom utc_host "2021-06-20" = Normal window_0620)
    by (vm_compute; reflexivity).
  assert (H3 : entry_key utc_host entry_0622_again = Normal (Some "2021-06-22"%string))
    by (vm_compute; reflexivity).
  assert (H4 : Forall (fun e' => entry_key utc_host e' <> Normal (Some "2021-06-22"%string))
                 [entry_0620]).
  { apply Forall_cons. split; [|apply Forall_nil_2].
    assert (entry_key utc_host entry_0620 = Normal (Some "2021-06-20"%string)) as ->
      by (vm_compute; reflexivity).
    intros Heq. discriminate Heq. }
  assert (H5 : length (filter (fun d => d = "2021-06-22"%string) window_0620) = 1%nat)
    by (vm_compute; reflexivity).
  exact (conj H1 (conj H2 (conj H3 (conj H4 (conj H5
           (reconcile_last_write_wins utc_host _ _ _ _ _ _ _ H1 H2 H3 H4 H5)))))).
Defined.


Lemma example_2021_06_20_witness :
  offset_steady utc_host 1624147200000
  /\ nineDatesFrom utc_host "2021-06-20" = Normal window_0620
  /\ reconcile utc_host "2021-06-20" [entry_0620; entry_0622; entry_0701]
     = Normal [Json entry_0620; Json entry_0622].
Proof.
  split; [apply utc_steady|].
  apply (example_2021_06_20 utc_host entry_0620 entry_0622 entry_0701);
    [apply utc_steady | reflexivity..].
Defined.

Lemma handleFetch_reenables_button_witness :
  startDateInput sample_page = Some "2021-06-20"%string
  /\ (exists p1, outstanding (handleFetch utc_host sample_Date_toString sample_page
                               FetchFailed) = Some p1
                 /\ disabled <$> getImageBtn p1 = Some true)
  /\ disabled <$> getImageBtn (settled (handleFetch utc_host sample_Date_toString
                                          sample_page FetchFailed))
     = Some false.
Proof.
  split; [reflexivity|].
  apply (handleFetch_reenables_button utc_host sample_Date_toString sample_page
           FetchFailed "2021-06-20" true
           {| disabled := false; has_loading_class := false |});
    [reflexivity | discriminate | reflexivity | reflexivity].
Defined.

(** A whole run: the button is disabled during the request, and the two
    entries of the window are rendered, their dates normalised. *)
Example handleFetch_sample_run :
  handleFetch utc_host sample_Date_toString sample_page
    (Response 200 (BodyJson (JArr [entry_0701; entry_0622; entry_0620])))
  = {| outstanding :=
         Some {| startDateInput := Some "2021-06-20"%string;
                 loadingEl := Some false;
                 getImageBtn := Some {| disabled := true; has_loading_class := true |};
                 galleryEl := Some Untouched;
                 alerts := [] |};
       settled :=
         {| startDateInput := Some "2021-06-20"%string;
            loadingEl := Some true;
            getImageBtn := Some {| disabled := false; has_loading_class := false |};
            galleryEl := Some (Cards [Json entry_0620; Json entry_0622]);
            alerts := [] |} |}.
Proof. vm_compute. reflexivity. Qed.

(** C5.  A successful response does not come back element by element: one
    element without a date, or one that is [null], and the loader returns
    nothing of the array, the well-formed element included, which it returns
    when it comes alone; and a date of the year 10000 is not written in the
    shape [YYYY-MM-DD]. *)
Theorem fetchClassFeed_gives_up_whole_feed :
  fetchClassFeed utc_host (Response 200 (BodyJson (JArr [entry_0620; entry_undated])))
  = Normal []
  /\ fetchClassFeed utc_host (Response 200 (BodyJson (JArr [entry_0620; JNull])))
     = Normal []
  /\ fetchClassFeed utc_host (Response 200 (BodyJson (JArr [entry_0620])))
     = Normal [entry_0620]
  /\ fetchClassFeed utc_host
       (Response 200
          (BodyJson (JArr [JObj [("date"%string, JNum (integer 253402300800000))]])))
     = Normal [JObj [("date"%string, JStr "+010000-01")]].
Proof. repeat split; vm_compute; reflexivity. Qed.

(** C6.  One entry with an impossible month, and the entry beside it is
    lost with it: the loader returns nothing of the response that holds
    both, the reconciler is given an empty feed, and the gallery shows the
    placeholder; without the misdated entry the well-formed one is loaded
    and shown. *)
Theorem misdated_entry_hides_the_others :
  fetchClassFeed utc_host (Response 200 (BodyJson (JArr [entry_0620; entry_month_13])))
  = Normal []
  /\ settled (handleFetch utc_host sample_Date_toString sample_page
                (Response 200 (BodyJson (JArr [entry_0620; entry_month_13]))))
     = {| startDateInput := Some "2021-06-20"%string;
          loadingEl := Some true;
          getImageBtn := Some {| disabled := false; has_loading_class := false |};
          galleryEl := Some Placeholder;
          alerts := [] |}
  /\ fetchClassFeed utc_host (Response 200 (BodyJson (JArr [entry_0620])))
     = Normal [entry_0620]
  /\ settled (handleFetch utc_host sample_Date_toString sample_page
                (Response 200 (BodyJson (JArr [entry_0620]))))
     = {| startDateInput := Some "2021-06-20"%string;
          loadingEl := Some true;
          getImageBtn := Some {| disabled := false; has_loading_class := false |};
          galleryEl := Some (Cards [Json entry_0620]);
          alerts := [] |}.
Proof. repeat split; vm_compute; reflexivity. Qed.


(** * More of the script *)

(** ** The reconciler, entry by entry *)

Section ReconcilerSpec.

Context (host : Host).

Lemma index_last_filed feed m m' k :
  forEach (index_entry host) m feed = Normal m' ->
  m' !! k = match last_filed host k feed with
            | Some e => Some e
            | None => m !! k
            end.
Proof.
  unfold last_filed. revert m. induction feed as [|x feed IH]; intros m; cbn [forEach].
  - intros H%Normal_inj. by subst.
  - rewrite index_entry_key. destruct (entry_key host x) as [ok|] eqn:Hx; [|done].
    cbn [mbind completion_bind]. intros Hf. rewrite (IH _ Hf).
    destruct (decide (ok = Some k)) as [->|Hne].
    + rewrite filter_cons_True by done. rewrite last_cons.
      destruct (last (filter _ feed)); [done|]. apply lookup_insert_eq.
    + rewrite filter_cons_False by congruence.
      destruct (last (filter _ feed)); [done|].
      destruct ok as [k'|]; [|done]. apply lookup_insert_ne. congruence.
Qed.

(** X4.  What the reconciler returns, when it returns: for each date of the
    window, in the window's order, the last entry of the feed filed under
    that date, dates without an entry left out. *)
Theorem reconcile_characterised (startIso : string) (feed : list json)
    (res : list jsval) :
  reconcile host startIso feed = Normal res ->
  exists w, nineDatesFrom host startIso = Normal w
    /\ res = Json <$> omap (fun k => last_filed host k feed) w.
Proof.
  intros H. apply reconcile_Normal in H as (m & w & Hm & Hw & ->).
  exists w. split; [done|]. f_equal. apply list_omap_ext.
  apply Forall_Forall2_diag, Forall_forall. intros k _.
  rewrite (index_last_filed _ _ _ k Hm), lookup_empty.
  by destruct (last_filed host k feed).
Qed.

End ReconcilerSpec.

(** ** What a run of the handler leaves on the page *)

Section HandlerOutcomes.

Context (host : Host) (Date_toString : timevalue -> string).

Lemma setLoading_rest show p :
  galleryEl (setLoading show p) = galleryEl p
  /\ alerts (setLoading show p) = alerts p
  /\ startDateInput (setLoading show p) = startDateInput p.
Proof. unfold setLoading. by destruct (loadingEl p), (getImageBtn p). Qed.

Lemma reconcile_length startIso feed res :
  reconcile host startIso feed = Normal res -> (length res <= 9)%nat.
Proof.
  intros H. apply reconcile_Normal in H as (m & w & Hm & Hw & ->).
  rewrite length_fmap. pose proof (length_omap_le (m !!.) w) as Hl.
  apply length_nineDatesFrom in Hw. lia.
Qed.

(** The cards are appended as long as they can be made. *)
Lemma append_cards_all tiles shown :
  Forall (fun r => exists h, card_markup Date_toString r = Normal h) tiles ->
  append_cards Date_toString tiles shown = (shown ++ tiles, None).
Proof.
  intros H. revert shown. induction H as [|r tiles [h Hr] _ IH]; intros shown.
  - by rewrite app_nil_r.
  - cbn [append_cards]. rewrite Hr, IH. by rewrite <- app_assoc.
Qed.

Lemma append_cards_stops good bad rest shown err :
  Forall (fun r => exists h, card_markup Date_toString r = Normal h) good ->
  card_markup Date_toString bad = Throw err ->
  append_cards Date_toString (good ++ bad :: rest) shown = (shown ++ good, Some err).
Proof.
  intros H Hbad. revert shown. induction H as [|r good [h Hr] _ IH]; intros shown.
  - cbn [app append_cards]. by rewrite Hbad, app_nil_r.
  - cbn [app append_cards]. rewrite Hr, IH. by rewrite <- app_assoc.
Qed.

(** The page the handler leaves when the reconciler returns. *)
Lemma handleFetch_rendered p o s feed res :
  startDateInput p = Some s -> s <> ""%string ->
  fetchClassFeed host o = Normal feed ->
  reconcile host s feed = Normal res ->
  settled (handleFetch host Date_toString p o)
  = setLoading false
      (match snd (renderGallery Date_toString res (setLoading true p)) with
       | Some err =>
           alert "An error occurred while fetching images. See the console for details."
                 (fst (renderGallery Date_toString res (setLoading true p)))
       | None => fst (renderGallery Date_toString res (setLoading true p))
       end).
Proof.
  intros Hs Hne Hf Hr. rewrite (handleFetch_run host Date_toString p o s Hs Hne).
  cbv zeta. rewrite Hf. cbn [mbind completion_bind]. by rewrite Hr.
Qed.

(** X5.  When the reconciler returns, the gallery shows its whole result,
    nothing trimmed by [slice(0, 9)], or the placeholder when the result is
    empty, and no alert is raised, provided the card of every entry can be
    made; when the values of an entry cannot be converted to strings, the
    gallery is left with the cards of the entries before it and the alert is
    raised. *)
Theorem handleFetch_shows_result (p : Page) (o : fetch_outcome) (s : string)
    (g : gallery) (feed : list json) (res : list jsval) :
  startDateInput p = Some s -> s <> ""%string ->
  galleryEl p = Some g ->
  fetchClassFeed host o = Normal feed ->
  reconcile host s feed = Normal res ->
  (Forall (fun r => exists h, card_markup Date_toString r = Normal h) res ->
   galleryEl (settled (handleFetch host Date_toString p o))
   = Some (match res with [] => Placeholder | _ => Cards res end)
   /\ alerts (settled (handleFetch host Date_toString p o)) = alerts p)
  /\ (forall shown bad rest err,
        res = shown ++ bad :: rest ->
        Forall (fun r => exists h, card_markup Date_toString r = Normal h) shown ->
        card_markup Date_toString bad = Throw err ->
        galleryEl (settled (handleFetch host Date_toString p o)) = Some (Cards shown)
        /\ alerts (settled (handleFetch host Date_toString p o))
           = alerts p
               ++ ["An error occurred while fetching images. See the console for details."%string]).
Proof.
  intros Hs Hne Hg Hf Hr. rewrite (handleFetch_rendered p o s feed res Hs Hne Hf Hr).
  destruct (setLoading_rest true p) as (Hg1 & Ha1 & _).
  pose proof (reconcile_length _ _ _ Hr) as Hlen.
  unfold renderGallery. rewrite Hg1, Hg, (take_ge res) by done. split.
  - intros Hall. destruct res as [|r res].
    + cbn [fst snd]. destruct (setLoading_rest false (set_gallery Placeholder (setLoading true p)))
        as (-> & -> & _). by rewrite <- Ha1.
    + rewrite (append_cards_all _ [] Hall). cbn [fst snd app].
      destruct (setLoading_rest false (set_gallery (Cards (r :: res)) (setLoading true p)))
        as (-> & -> & _). by rewrite <- Ha1.
  - intros shown bad rest err -> Hshown Hbad.
    rewrite (append_cards_stops shown bad rest [] err Hshown Hbad).
    destruct shown; cbn [app fst snd];
      match goal with
      | |- context [setLoading false ?q] =>
          destruct (setLoading_rest false q) as (-> & -> & _)
      end; cbn [alert set_gallery galleryEl alerts]; by rewrite Ha1.
Qed.

(** X6.  When the date of the start or of an entry fails to normalise, or
    the page has no gallery, the handler raises its one alert and leaves the
    gallery as it was. *)
Theorem handleFetch_alerts_on_error (p : Page) (o : fetch_outcome) (s : string)
    (feed : list json) :
  startDateInput p = Some s -> s <> ""%string ->
  fetchClassFeed host o = Normal feed ->
  (exists err, reconcile host s feed = Throw err) \/ galleryEl p = None ->
  galleryEl (settled (handleFetch host Date_toString p o)) = galleryEl p
  /\ alerts (settled (handleFetch host Date_toString p o))
     = alerts p
         ++ ["An error occurred while fetching images. See the console for details."%string].
Proof.
  intros Hs Hne Hf Herr. rewrite (handleFetch_run host Date_toString p o s Hs Hne).
  cbv zeta. rewrite Hf. cbn [mbind completion_bind settled].
  destruct (setLoading_rest true p) as (Hg1 & Ha1 & _).
  assert (Hbody : exists err,
            match reconcile host s feed with
            | Normal results => renderGallery Date_toString results (setLoading true p)
            | Throw err => (setLoading true p, Some err)
            end = (setLoading true p, Some err)).
  { destruct Herr as [[err Herr] | Hnone].
    - exists err. by rewrite Herr.
    - destruct (reconcile host s feed) as [res|err]; [|by exists err].
      exists TypeError. unfold renderGallery. by rewrite Hg1, Hnone. }
  destruct Hbody as [err ->]. cbn [fst snd].
  destruct (setLoading_rest false
              (alert "An error occurred while fetching images. See the console for details."
                     (setLoading true p))) as (-> & -> & _).
  cbn [alert galleryEl alerts]. by rewrite Hg1, Ha1.
Qed.

Lemma reconcile_empty_feed s w :
  nineDatesFrom host s = Normal w -> reconcile host s [] = Normal [].
Proof.
  intros Hw. unfold reconcile. cbn [forEach mbind completion_bind]. rewrite Hw.
  cbn [mbind completion_bind]. f_equal.
  clear Hw. induction w as [|k w IH]; [done|].
  cbn [map]. unfold Map_get at 1. rewrite lookup_empty. cbn [from_option].
  by rewrite filter_cons_False by (cbn; tauto).
Qed.

(** X7.  A fetch that fails is not told apart from a feed without images:
    when the loader comes back empty, as it does for every failure, the
    gallery shows the placeholder and no alert is raised. *)
Theorem handleFetch_failed_fetch_is_silent (p : Page) (o : fetch_outcome) (s : string)
    (g : gallery) (w : list string) :
  startDateInput p = Some s -> s <> ""%string ->
  galleryEl p = Some g ->
  nineDatesFrom host s = Normal w ->
  fetchClassFeed host o = Normal [] ->
  galleryEl (settled (handleFetch host Date_toString p o)) = Some Placeholder
  /\ alerts (settled (handleFetch host Date_toString p o)) = alerts p.
Proof.
  intros Hs Hne Hg Hw Hf.
  rewrite (handleFetch_rendered p o s [] [] Hs Hne Hf (reconcile_empty_feed s w Hw)).
  destruct (setLoading_rest true p) as (Hg1 & Ha1 & _).
  unfold renderGallery. rewrite Hg1, Hg. cbn [fst snd].
  destruct (setLoading_rest false (set_gallery Placeholder (setLoading true p)))
    as (-> & -> & _).
  cbn [set_gallery galleryEl alerts]. by rewrite Ha1.
Qed.

End HandlerOutcomes.

(** ** The default start and the range asked of the other source *)

Section Ranges.

Context (host : Host).

Lemma setDate_getDate_back t0 i :
  setDate host (Some t0) (n ← getDate host (Some t0); Some (n - i))
  = ES.TimeClip (UTC host (LocalTime host t0 - i * ES.msPerDay)).
Proof.
  cbn [getDate setDate mbind option_bind].
  replace (ES.DateFromTime (LocalTime host t0) - i)
    with (ES.DateFromTime (LocalTime host t0) + - i) by lia.
  rewrite ESFacts.MakeDay_shift, ESFacts.MakeDate_shift. do 2 f_equal. lia.
Qed.

Lemma canonical_time_clipped t :
  0 <= ES.YearFromDay (ES.Day t) <= 9999 -> ES.TimeClip t = Some t.
Proof.
  intros Hy. apply canonical_year_days in Hy. apply TimeClip_in_range.
  unfold ES.Day, ES.msPerDay in Hy. Z.div_mod_to_equations. lia.
Qed.

Lemma formatDate_canonical t :
  0 <= ES.YearFromDay (ES.Day t) <= 9999 ->
  formatDate host (DateObj (Some t)) = Normal (iso_day (ES.Day t)).
Proof. intros Hy. by rewrite formatDate_Date, date_key_canonical. Qed.

Lemma Day_back t i : ES.Day (t - i * ES.msPerDay) = ES.Day t - i.
Proof. unfold ES.Day, ES.msPerDay. Z.div_mod_to_equations. lia. Qed.

(** X8.  The default window ends today: when the clock reads [now], in a
    zone whose offset is steady over the days concerned and for the years 0
    to 9999, the start date [init] fills in is the UTC date of [now] less
    eight days, and the last date of its window is the UTC date of [now]. *)
Theorem default_window_ends_today (now : Z) :
  0 <= ES.YearFromDay (ES.Day now - 8) ->
  ES.YearFromDay (ES.Day now) <= 9999 ->
  LocalTZA host (LocalTime host now - 8 * ES.msPerDay) false = LocalTZA host now true ->
  offset_steady host ((ES.Day now - 8) * ES.msPerDay) ->
  default_start host now = Normal (iso_day (ES.Day now - 8))
  /\ (exists w, nineDatesFrom host (iso_day (ES.Day now - 8)) = Normal w
                /\ last w = Some (iso_day (ES.Day now)))
  /\ formatDate host (DateObj (Some now)) = Normal (iso_day (ES.Day now)).
Proof.
  intros Hlo Hhi Hback Hst.
  pose proof (YearFromDay_mono (ES.Day now - 8) (ES.Day now) ltac:(lia)) as Hm.
  assert (Hnow : 0 <= ES.YearFromDay (ES.Day now) <= 9999) by lia.
  assert (Hthen : 0 <= ES.YearFromDay (ES.Day (now - 8 * ES.msPerDay)) <= 9999)
    by (rewrite Day_back; lia).
  split; [|split].
  - unfold default_start. cbn [new_Date mbind option_bind].
    rewrite (canonical_time_clipped now Hnow). cbn [mbind completion_bind].
    rewrite setDate_getDate_back.
    unfold UTC. rewrite Hback. unfold LocalTime.
    replace (now + LocalTZA host now true - 8 * ES.msPerDay - LocalTZA host now true)
      with (now - 8 * ES.msPerDay) by lia.
    rewrite (canonical_time_clipped _ Hthen), (formatDate_canonical _ Hthen).
    by rewrite Day_back.
  - eexists. split.
    + apply nineDatesFrom_steady; [done| |done].
      replace (ES.Day now - 8 + 8) with (ES.Day now) by lia. lia.
    + change (seqZ 0 9) with [0; 1; 2; 3; 4; 5; 6; 7; 8]. cbn [map last].
      do 2 f_equal. lia.
  - by apply formatDate_canonical.
Qed.

End Ranges.

Lemma default_window_ends_today_witness :
  default_start utc_host 1624190400000 = Normal (iso_day (ES.Day 1624190400000 - 8))
  /\ (exists w, nineDatesFrom utc_host (iso_day (ES.Day 1624190400000 - 8)) = Normal w
                /\ last w = Some (iso_day (ES.Day 1624190400000)))
  /\ formatDate utc_host (DateObj (Some 1624190400000))
     = Normal (iso_day (ES.Day 1624190400000)).
Proof.
  apply (default_window_ends_today utc_host 1624190400000).
  - vm_compute. discriminate.
  - vm_compute. discriminate.
  - reflexivity.
  - intros i Hi. reflexivity.
Defined.

Section ApodRange.

Context (host : Host).

Lemma new_Date_copy v t0 :
  new_Date host v = Normal (Some t0) ->
  new_Date host (DateObj (Some t0)) = Normal (Some t0).
Proof.
  intros H. cbn [new_Date mbind option_bind]. f_equal.
  apply TimeClip_in_range. by eapply new_Date_clipped.
Qed.

Lemma apod_range_valid s t0 :
  new_Date host (Json (JStr s)) = Normal (Some t0) ->
  apod_range host s
  = end_date ← formatDate host
                 (DateObj (ES.TimeClip (UTC host (LocalTime host t0 + 8 * ES.msPerDay))));
    Normal (date_key t0, end_date).
Proof.
  intros Hs. unfold apod_range. rewrite Hs. cbn [mbind completion_bind].
  rewrite (new_Date_copy _ _ Hs). cbn [mbind completion_bind].
  by rewrite setDate_getDate, formatDate_Date.
Qed.

(** X9.  The range [fetchApodRange] asks for ends where the window ends: its
    [end_date] is the last date of the window of the same start, whatever
    the zone, and with a steady offset the range is the day [d0] to the day
    [d0 + 8]; a start that does not parse throws before any request is
    made. *)
Theorem apod_range_matches_window :
  (forall s, new_Date host (Json (JStr s)) = Normal None ->
     apod_range host s = Throw RangeError)
  /\ (forall s w, nineDatesFrom host s = Normal w ->
        exists start_date end_date,
          apod_range host s = Normal (start_date, end_date)
          /\ last w = Some end_date)
  /\ (forall d0,
        0 <= ES.YearFromDay d0 -> ES.YearFromDay (d0 + 8) <= 9999 ->
        offset_steady host (d0 * ES.msPerDay) ->
        apod_range host (iso_day d0) = Normal (iso_day d0, iso_day (d0 + 8))).
Proof.
  assert (Hgen : forall s w, nineDatesFrom host s = Normal w ->
            exists t0 end_date,
              new_Date host (Json (JStr s)) = Normal (Some t0)
              /\ apod_range host s = Normal (date_key t0, end_date)
              /\ last w = Some end_date).
  { intros s w Hw.
    destruct (Date_parse host s ≫= ES.TimeClip) as [t0|] eqn:Hs';
      [|by rewrite (nineDatesFrom_invalid host s (f_equal Normal Hs')) in Hw].
    assert (Hs : new_Date host (Json (JStr s)) = Normal (Some t0))
      by (by rewrite new_Date_string, Hs').
    rewrite (nineDatesFrom_loop host s t0 Hs) in Hw.
    change (seqZ 0 9) with [0; 1; 2; 3; 4; 5; 6; 7; 8] in Hw.
    apply map_throwing_Forall2 in Hw.
    repeat match goal with
           | H : Forall2 _ (_ :: _) _ |- _ =>
               apply Forall2_cons_inv_l in H as (? & ? & ? & H & ->)
           | H : Forall2 _ [] _ |- _ => apply Forall2_nil_inv_l in H as ->
           end.
    match goal with
    | H : formatDate host (DateObj (ES.TimeClip (UTC host (_ + 8 * _)))) = Normal ?y |- _ =>
        exists t0, y; split; [done|]; split; [|done];
        rewrite (apod_range_valid s t0 Hs), H; done
    end. }
  split; [|split].
  - intros s Hs. unfold apod_range. by rewrite Hs.
  - intros s w Hw. destruct (Hgen s w Hw) as (t0 & e & _ & Ha & Hl). eauto.
  - intros d0 Hlo Hhi Hst.
    pose proof (nineDatesFrom_steady host d0 Hlo Hhi Hst) as Hw.
    destruct (Hgen _ _ Hw) as (t0 & e & Ht0 & Ha & Hl).
    assert (Hy0 : 0 <= ES.YearFromDay d0 <= 9999).
    { pose proof (YearFromDay_mono d0 (d0 + 8) ltac:(lia)). lia. }
    rewrite new_Date_iso_day in Ht0 by done. injection Ht0 as <-.
    change (seqZ 0 9) with [0; 1; 2; 3; 4; 5; 6; 7; 8] in Hl. cbn [map last] in Hl.
    injection Hl as <-. rewrite Ha. do 2 f_equal.
    rewrite date_key_canonical, ESFacts.Day_of_midnight; [done|].
    unfold ES.YearFromTime. by rewrite ESFacts.Day_of_midnight.
Qed.

End ApodRange.

(** Across the start of daylight-saving time the range asked for is a day
    short, as the window is. *)
Example apod_range_across_clock_change :
  apod_range us_eastern_2021 "2021-03-10" = Normal ("2021-03-10", "2021-03-17")%string.
Proof. vm_compute. reflexivity. Qed.

(** ** Escaped text *)

Lemma replace_all_app c r a b :
  replace_all c r (a ++ b) = replace_all c r a ++ replace_all c r b.
Proof.
  induction a as [|x a IH]; [done|].
  cbn [app replace_all]. by rewrite IH, app_assoc.
Qed.

(** The three replacements of [escapeHtml], made one after the other,
    amount to escaping each character on its own: the ampersands of the
    entities written first are not escaped again. *)
Lemma escape_chain cs :
  replace_all ">" (chars "&gt;")
    (replace_all "<" (chars "&lt;") (replace_all "&" (chars "&amp;") cs))
  = flat_map escape_char cs.
Proof.
  induction cs as [|x cs IH]; [done|].
  cbn [replace_all flat_map]. rewrite !replace_all_app, IH. f_equal.
  unfold escape_char.
  destruct (Ascii.eqb_spec x "&") as [->|Hamp]; [reflexivity|].
  cbn [replace_all app].
  destruct (Ascii.eqb_spec x "<") as [->|Hlt]; [reflexivity|].
  cbn [replace_all app].
  by destruct (Ascii.eqb_spec x ">") as [->|Hgt].
Qed.

Lemma escapeHtml_string Date_toString s :
  escapeHtml Date_toString (Json (JStr s)) = Normal (str (flat_map escape_char (chars s))).
Proof.
  unfold escapeHtml. cbn [truthy truthy_json String_of to_string].
  destruct (String.eqb_spec s "") as [->|_]; [reflexivity|].
  cbn [negb mbind completion_bind]. by rewrite escape_chain.
Qed.

(** [String] throws on JSON data without a primitive only. *)
Lemma String_of_Throw Date_toString v err :
  String_of Date_toString v = Throw err ->
  err = TypeError /\ exists j, v = Json j /\ to_string j = Throw TypeError.
Proof.
  destruct v as [|j|tv]; cbn [String_of]; [done| |done].
  intros H. pose proof (to_string_Throw _ _ H) as ->. split; [done|]. by exists j.
Qed.

Lemma escapeHtml_cases Date_toString v :
  (exists cs, escapeHtml Date_toString v = Normal (str (flat_map escape_char cs)))
  \/ (escapeHtml Date_toString v = Throw TypeError
      /\ exists j, v = Json j /\ to_string j = Throw TypeError).
Proof.
  unfold escapeHtml. destruct (truthy v).
  - destruct (String_of Date_toString v) as [t|err] eqn:Ht.
    + left. eexists. cbn [mbind completion_bind]. by rewrite escape_chain.
    + right. apply String_of_Throw in Ht as [-> Hj]. done.
  - left. by exists [].
Qed.

Lemma escape_char_no_angle x c :
  c ∈ escape_char x -> c <> "<"%char /\ c <> ">"%char.
Proof.
  unfold escape_char.
  destruct (Ascii.eqb_spec x "&"); [|destruct (Ascii.eqb_spec x "<");
    [|destruct (Ascii.eqb_spec x ">")]]; cbn [chars list_ascii_of_string];
    intros Hin; repeat (apply elem_of_cons in Hin as [->|Hin]; [done|]);
    try (by apply elem_of_nil in Hin).
Qed.

(** A word without ampersand before the first ampersand of a text. *)
Lemma ampersand_after_word wd pre post rest :
  "&"%char ∉ wd ->
  pre ++ "&"%char :: post = wd ++ rest ->
  exists pre', pre = wd ++ pre' /\ pre' ++ "&"%char :: post = rest.
Proof.
  revert pre. induction wd as [|c wd IH]; intros pre Hnot Heq.
  - by exists pre.
  - apply not_elem_of_cons in Hnot as [Hc Hnot].
    destruct pre as [|p pre]; cbn [app] in Heq; injection Heq as Hp Heq; [done|]. subst p.
    destruct (IH pre Hnot Heq) as (pre' & -> & Hrest). by exists pre'.
Qed.

Lemma escaped_ampersands cs pre post :
  flat_map escape_char cs = pre ++ "&"%char :: post -> begins_entity post = true.
Proof.
  revert pre. induction cs as [|x cs IH]; intros pre; cbn [flat_map].
  - by destruct pre.
  - assert (Hword : forall wd, "&"%char ∉ wd ->
              ("&"%char :: wd) ++ flat_map escape_char cs = pre ++ "&"%char :: post ->
              is_prefix wd post = true \/
              exists pre', flat_map escape_char cs = pre' ++ "&"%char :: post).
    { intros wd Hnot Heq. destruct pre as [|p pre]; cbn [app] in Heq.
      - injection Heq as <-. left. clear. induction wd as [|c wd IH']; [done|].
        cbn [app is_prefix]. by rewrite Ascii.eqb_refl.
      - injection Heq as _ Heq. symmetry in Heq.
        destruct (ampersand_after_word wd pre post _ Hnot Heq) as (pre' & _ & Hrest).
        right. by exists pre'. }
    unfold escape_char.
    destruct (Ascii.eqb_spec x "&") as [->|Hamp];
      [|destruct (Ascii.eqb_spec x "<") as [->|Hlt];
        [|destruct (Ascii.eqb_spec x ">") as [->|Hgt]]].
    + intros Heq. destruct (Hword (chars "amp;")) as [Hp|[pre' Hp]]; [|exact Heq| |by eapply IH].
      * cbn. intros Hin. repeat (apply elem_of_cons in Hin as [Hin|Hin]; [done|]).
        by apply elem_of_nil in Hin.
      * unfold begins_entity. by rewrite Hp.
    + intros Heq. destruct (Hword (chars "lt;")) as [Hp|[pre' Hp]]; [|exact Heq| |by eapply IH].
      * cbn. intros Hin. repeat (apply elem_of_cons in Hin as [Hin|Hin]; [done|]).
        by apply elem_of_nil in Hin.
      * unfold begins_entity. by rewrite Hp, orb_true_r.
    + intros Heq. destruct (Hword (chars "gt;")) as [Hp|[pre' Hp]]; [|exact Heq| |by eapply IH].
      * cbn. intros Hin. repeat (apply elem_of_cons in Hin as [Hin|Hin]; [done|]).
        by apply elem_of_nil in Hin.
      * unfold begins_entity. by rewrite Hp, !orb_true_r.
    + cbn [app]. intros Heq. destruct pre as [|p pre]; cbn [app] in Heq.
      * injection Heq as -> _. done.
      * injection Heq as _ Heq. by eapply IH.
Qed.

(** X10.  What [escapeHtml] returns holds no [<] and no [>], and each of its
    ampersands begins one of the entities [&amp;], [&lt;], [&gt;]: inserted
    as text, it cannot open or close a tag.  It returns for every argument
    but JSON data without a primitive (an object, or an array that holds
    one, with a [toString] member of its own), on which [String] throws a
    [TypeError]. *)
Theorem escapeHtml_is_text (Date_toString : timevalue -> string) (v : jsval) :
  (forall out, escapeHtml Date_toString v = Normal out ->
     ("<"%char ∉ chars out)
     /\ (">"%char ∉ chars out)
     /\ (forall pre post,
           chars out = pre ++ "&"%char :: post -> begins_entity post = true))
  /\ (forall err, escapeHtml Date_toString v = Throw err ->
        err = TypeError /\ exists j, v = Json j /\ to_string j = Throw TypeError)
  /\ ((forall j, v = Json j -> exists s, to_string j = Normal s) ->
      exists out, escapeHtml Date_toString v = Normal out).
Proof.
  destruct (escapeHtml_cases Date_toString v) as [[cs Hv] | [Hv Hj]]; rewrite Hv.
  - split; [|split; [done|by eexists]].
    intros out [= <-]. rewrite chars_str.
    assert (Hangle : forall c, c ∈ flat_map escape_char cs ->
                       c <> "<"%char /\ c <> ">"%char).
    { intros c Hin. apply list_elem_of_In, in_flat_map in Hin as (x & _ & Hin).
      apply list_elem_of_In in Hin. by eapply escape_char_no_angle. }
    split; [|split].
    + intros Hin. by destruct (Hangle _ Hin).
    + intros Hin. by destruct (Hangle _ Hin).
    + intros pre post. apply escaped_ampersands.
  - split; [done|]. split.
    + intros err [= <-]. done.
    + intros Hall. destruct Hj as (j & -> & Hs).
      destruct (Hall j eq_refl) as [s Hs']. congruence.
Qed.

Lemma escape_injective s1 s2 :
  flat_map escape_char s1 = flat_map escape_char s2 -> s1 = s2.
Proof.
  revert s2. induction s1 as [|x s1 IH]; intros [|y s2]; cbn [flat_map]; [done|..].
  - unfold escape_char. repeat case_match; discriminate.
  - unfold escape_char. repeat case_match; discriminate.
  - unfold escape_char.
    destruct (Ascii.eqb_spec x "&") as [->|Hxa];
      [|destruct (Ascii.eqb_spec x "<") as [->|Hxl];
        [|destruct (Ascii.eqb_spec x ">") as [->|Hxg]]];
    (destruct (Ascii.eqb_spec y "&") as [->|Hya];
      [|destruct (Ascii.eqb_spec y "<") as [->|Hyl];
        [|destruct (Ascii.eqb_spec y ">") as [->|Hyg]]]);
    cbn [chars list_ascii_of_string app]; intros Heq;
    try discriminate Heq;
    try (injection Heq as Heq; f_equal; by apply IH);
    try (injection Heq as Hc Heq; congruence).
    injection Heq as -> Heq. f_equal. by apply IH.
Qed.

Lemma length_escaped cs : (length cs <= length (flat_map escape_char cs))%nat.
Proof.
  induction cs as [|x cs IH]; [done|].
  cbn [flat_map]. rewrite length_app. cbn [length].
  assert (1 <= length (escape_char x))%nat
    by (unfold escape_char; repeat case_match; cbn; lia).
  lia.
Qed.

Lemma escaped_unchanged cs :
  flat_map escape_char cs = cs <-> Forall plain_char cs.
Proof.
  induction cs as [|x cs IH]; [by split; [constructor|]|].
  cbn [flat_map]. unfold escape_char at 1.
  pose proof (length_escaped cs) as Hlen.
  destruct (Ascii.eqb_spec x "&") as [->|Hxa];
    [|destruct (Ascii.eqb_spec x "<") as [->|Hxl];
      [|destruct (Ascii.eqb_spec x ">") as [->|Hxg]]].
  - split.
    + intros Heq. apply (f_equal length) in Heq.
      cbn [chars list_ascii_of_string app length] in Heq. lia.
    + intros H. apply Forall_cons in H as [(Hc & _) _]. done.
  - split.
    + intros Heq. apply (f_equal length) in Heq.
      cbn [chars list_ascii_of_string app length] in Heq. lia.
    + intros H. apply Forall_cons in H as [(_ & Hc & _) _]. done.
  - split.
    + intros Heq. apply (f_equal length) in Heq.
      cbn [chars list_ascii_of_string app length] in Heq. lia.
    + intros H. apply Forall_cons in H as [(_ & _ & Hc) _]. done.
  - cbn [app]. split.
    + intros Heq. injection Heq as Heq. constructor; [done | by apply IH].
    + intros H. apply Forall_cons in H as [_ H]. f_equal. by apply IH.
Qed.

(** X11.  [escapeHtml] loses nothing: two strings escaped alike are the same
    string. *)
Theorem escapeHtml_injective (Date_toString : timevalue -> string) (s1 s2 : string) :
  escapeHtml Date_toString (Json (JStr s1)) = escapeHtml Date_toString (Json (JStr s2)) ->
  s1 = s2.
Proof.
  rewrite !escapeHtml_string. intros Heq%Normal_inj.
  apply (f_equal chars) in Heq. rewrite !chars_str in Heq.
  apply escape_injective in Heq.
  apply (f_equal str) in Heq. by rewrite !str_chars in Heq.
Qed.

(** X12.  [escapeHtml] returns a string as it is exactly when the string
    holds none of [&], [<], [>]; the quotes, in particular, are not
    escaped. *)
Theorem escapeHtml_leaves_plain_text (Date_toString : timevalue -> string) (s : string) :
  escapeHtml Date_toString (Json (JStr s)) = Normal s <-> Forall plain_char (chars s).
Proof.
  rewrite escapeHtml_string, <- escaped_unchanged. split.
  - intros Heq%Normal_inj. apply (f_equal chars) in Heq. by rewrite chars_str in Heq.
  - intros Heq. by rewrite Heq, str_chars.
Qed.

Lemma escapeHtml_injective_witness :
  escapeHtml sample_Date_toString (Json (JStr "a<b & c"))
  = escapeHtml sample_Date_toString (Json (JStr "a<b & c"))
  /\ "a<b & c"%string = "a<b & c"%string.
Proof.
  split; [reflexivity|].
  apply (escapeHtml_injective sample_Date_toString). reflexivity.
Defined.

(** ** Splitting at a separator *)

Lemma is_prefix_app sep b : is_prefix sep (sep ++ b) = true.
Proof.
  induction sep as [|c sep IH]; [done|].
  cbn [app is_prefix]. by rewrite Ascii.eqb_refl.
Qed.

Lemma split_go_skip sep cur x b :
  split_go sep (length x) cur (x ++ b) = split_go sep 0 cur b.
Proof.
  induction x as [|c x IH]; [done|]. cbn [length app split_go].
  destruct b as [|d b]; [|apply IH].
  rewrite app_nil_r in *. destruct x; [done | apply IH].
Qed.

Lemma split_go_nonempty sep skip cur s : split_go sep skip cur s <> [].
Proof.
  revert skip cur. induction s as [|c s IH]; intros skip cur; cbn [split_go]; [done|].
  destruct skip; [|apply IH]. destruct (is_prefix sep (c :: s)); [done | apply IH].
Qed.

Lemma no_early_tail sep x a tl : no_early sep (x :: a) tl -> no_early sep a tl.
Proof. intros H a1 a2 -> Hne. apply (H (x :: a1) a2); done. Qed.

(** The first piece runs to the first occurrence of the separator. *)
Lemma split_go_first sep cur a b :
  sep <> [] -> no_early sep a (sep ++ b) ->
  split_go sep 0 cur (a ++ sep ++ b) = (rev cur ++ a) :: split_go sep 0 [] b.
Proof.
  intros Hsep. revert cur. induction a as [|x a IH]; intros cur Hno.
  - cbn [app]. rewrite app_nil_r. destruct sep as [|c sep]; [done|].
    cbn [app split_go]. change (c :: sep ++ b) with ((c :: sep) ++ b).
    rewrite is_prefix_app.
    replace (length (c :: sep) - 1)%nat with (length sep) by (cbn [length]; lia).
    by rewrite split_go_skip.
  - cbn [app split_go].
    change (x :: a ++ sep ++ b) with ((x :: a) ++ sep ++ b).
    rewrite (Hno [] (x :: a)) by done.
    rewrite IH by by eapply no_early_tail.
    cbn [rev]. by rewrite <- app_assoc.
Qed.

(** A text without the separator is one piece. *)
Lemma split_go_none sep cur a :
  no_early sep a [] -> split_go sep 0 cur a = [rev cur ++ a].
Proof.
  revert cur. induction a as [|x a IH]; intros cur Hno.
  - cbn. by rewrite app_nil_r.
  - cbn [split_go]. pose proof (Hno [] (x :: a) eq_refl ltac:(done)) as Hp.
    rewrite app_nil_r in Hp. rewrite Hp.
    rewrite IH by by eapply no_early_tail.
    cbn [rev]. by rewrite <- app_assoc.
Qed.

(** Where the separator occurs there are at least two pieces. *)
Lemma split_go_includes sep cur s :
  sep <> [] -> includes_chars sep s = true ->
  exists p0 p1 rest, split_go sep 0 cur s = p0 :: p1 :: rest.
Proof.
  intros Hsep. revert cur. induction s as [|c s IH]; intros cur Hinc.
  - destruct sep; [done|]. discriminate Hinc.
  - cbn [split_go]. cbn [includes_chars] in Hinc.
    destruct (is_prefix sep (c :: s)).
    + destruct (split_go sep (length sep - 1) [] s) as [|p1 rest] eqn:Hgo.
      * by apply split_go_nonempty in Hgo.
      * by exists (rev cur), p1, rest.
    + apply IH. done.
Qed.

Lemma elem_of_rev {A} (x : A) l : x ∈ rev l <-> x ∈ l.
Proof. rewrite !list_elem_of_In. symmetry. apply in_rev. Qed.

(** The pieces cut at a one-character separator do not hold it. *)
Lemma split_char_pieces c cur s :
  c ∉ cur -> Forall (fun piece => c ∉ piece) (split_go [c] 0 cur s).
Proof.
  revert cur. induction s as [|x s IH]; intros cur Hcur.
  - cbn [split_go]. constructor; [|constructor]. by rewrite elem_of_rev.
  - cbn [split_go is_prefix length Nat.sub].
    destruct (Ascii.eqb_spec c x) as [<-|Hne]; cbn [andb].
    + constructor; [by rewrite elem_of_rev|]. apply IH. apply not_elem_of_nil.
    + apply IH. by apply not_elem_of_cons.
Qed.

Lemma no_early_char c a tl :
  c ∉ a -> no_early [c] a tl.
Proof.
  intros Hc a1 a2 -> Hne. destruct a2 as [|x a2]; [done|].
  cbn [app is_prefix]. destruct (Ascii.eqb_spec c x) as [<-|]; [|done].
  exfalso. apply Hc. apply elem_of_app. right. left.
Qed.

Lemma includes_chars_false_cons sub x s :
  includes_chars sub (x :: s) = false ->
  is_prefix sub (x :: s) = false /\ includes_chars sub s = false.
Proof. cbn [includes_chars]. by intros [? ?]%orb_false_iff. Qed.

(** For a separator of two characters: a text that does not hold it, before
    an occurrence of it, holds no earlier occurrence. *)
Lemma no_early_two c1 c2 a b :
  c1 <> c2 ->
  includes_chars [c1; c2] a = false -> no_early [c1; c2] a ([c1; c2] ++ b).
Proof.
  intros Hc. induction a as [|x a IH]; intros Hinc a1 a2 Heq Hne.
  - by destruct a1, a2.
  - apply includes_chars_false_cons in Hinc as [Hp Hinc].
    destruct a1 as [|y a1]; cbn [app] in Heq.
    + subst a2. cbn [app is_prefix] in *.
      destruct (Ascii.eqb_spec c1 x) as [<-|]; [|done]. cbn [andb] in *.
      destruct a as [|z a]; cbn [app].
      * by destruct (Ascii.eqb_spec c2 c1) as [->|].
      * by destruct (Ascii.eqb c2 z).
    + injection Heq as -> ->. by apply (IH Hinc a1 a2).
Qed.

Lemma no_early_two_end c1 c2 a :
  includes_chars [c1; c2] a = false -> no_early [c1; c2] a [].
Proof.
  induction a as [|x a IH]; intros Hinc a1 a2 Heq Hne.
  - by destruct a1, a2.
  - apply includes_chars_false_cons in Hinc as [Hp Hinc].
    destruct a1 as [|y a1]; cbn [app] in Heq.
    + subst a2. by rewrite app_nil_r.
    + injection Heq as -> ->. by apply (IH Hinc a1 a2).
Qed.

Lemma no_early_two_gen c1 c2 a tl :
  is_prefix [c2] tl = false ->
  includes_chars [c1; c2] a = false -> no_early [c1; c2] a tl.
Proof.
  intros Htl. induction a as [|x a IH]; intros Hinc a1 a2 Heq Hne.
  - by destruct a1, a2.
  - apply includes_chars_false_cons in Hinc as [Hp Hinc].
    destruct a1 as [|y a1]; cbn [app] in Heq.
    + subst a2. cbn [app is_prefix] in *.
      destruct (Ascii.eqb_spec c1 x) as [<-|]; [|done]. cbn [andb] in *.
      destruct a as [|z a]; cbn [app].
      * destruct tl as [|t tl]; [done|]. exact Htl.
      * by destruct (Ascii.eqb c2 z).
    + injection Heq as -> ->. by apply (IH Hinc a1 a2).
Qed.

(** What is already read goes before the first piece. *)
Lemma split_go_cur sep cur s :
  split_go sep 0 cur s
  = match split_go sep 0 [] s with
    | p :: r => (rev cur ++ p) :: r
    | [] => []
    end.
Proof.
  revert cur. induction s as [|c s IH]; intros cur.
  - cbn. by rewrite app_nil_r.
  - cbn [split_go]. destruct (is_prefix sep (c :: s)).
    + cbn [rev app]. by rewrite app_nil_r.
    + rewrite (IH (c :: cur)), (IH [c]).
      destruct (split_go sep 0 [] s); [done|].
      cbn [rev app]. by rewrite <- app_assoc.
Qed.

(** The first piece begins with a text that holds no early occurrence. *)
Lemma split_go_begins sep a tl :
  no_early sep a tl ->
  exists p r, split_go sep 0 [] (a ++ tl) = (a ++ p) :: r
              /\ split_go sep 0 [] tl = p :: r.
Proof.
  induction a as [|x a IH]; intros Hno.
  - cbn [app]. destruct (split_go sep 0 [] tl) as [|p r] eqn:Hgo.
    + by apply split_go_nonempty in Hgo.
    + by exists p, r.
  - destruct (IH (no_early_tail _ _ _ _ Hno)) as (p & r & Hgo & Htl).
    exists p, r. split; [|done]. cbn [app split_go].
    change (x :: a ++ tl) with ((x :: a) ++ tl). rewrite (Hno [] (x :: a)) by done.
    by rewrite split_go_cur, Hgo.
Qed.

Lemma includes_chars_app sep a b : includes_chars sep (a ++ sep ++ b) = true.
Proof.
  induction a as [|x a IH].
  - cbn [app]. destruct sep as [|c sep]; [by destruct b|].
    cbn [app includes_chars is_prefix].
    by rewrite Ascii.eqb_refl, (is_prefix_app sep b).
  - cbn [app includes_chars]. by rewrite IH, orb_true_r.
Qed.

Lemma chars_append a b : chars (a +:+ b) = chars a ++ chars b.
Proof.
  unfold chars. induction a as [|c a IH]; [done|].
  simpl. by rewrite IH.
Qed.

Lemma last_split_char c cur pre id_ :
  c ∉ id_ -> last (split_go [c] 0 cur (pre ++ c :: id_)) = Some id_.
Proof.
  intros Hid. revert cur. induction pre as [|x pre IH]; intros cur.
  - cbn [app split_go is_prefix length Nat.sub]. rewrite Ascii.eqb_refl. cbn [andb].
    rewrite (split_go_none [c] [] id_) by by apply no_early_char. done.
  - cbn [app split_go is_prefix length Nat.sub].
    destruct (Ascii.eqb c x); cbn [andb]; [|apply IH].
    rewrite last_cons, IH. done.
Qed.

(** X13.  The video id is always found: reading it never throws and never
    gives [undefined]; taken after ["v="] it holds no [&], and taken from
    the end of the address it holds no [/]. *)
Theorem video_id_returns (url : string) :
  exists id_, video_id url = Normal (Some id_)
    /\ (includes "v=" url = true -> "&"%char ∉ chars id_)
    /\ (includes "v=" url = false -> "/"%char ∉ chars id_).
Proof.
  unfold video_id, split, split_chars. destruct (includes "v=" url) eqn:Hinc.
  - unfold includes in Hinc.
    destruct (split_go_includes (chars "v=") [] (chars url) ltac:(done) Hinc)
      as (p0 & p1 & rest & ->).
    cbn [fmap list_fmap lookup list_lookup]. rewrite chars_str.
    pose proof (split_char_pieces "&" [] p1 (not_elem_of_nil _)) as Hall.
    change (chars "&") with ["&"%char].
    destruct (split_go ["&"%char] 0 [] p1) as [|q0 qs] eqn:Hgo.
    + by apply split_go_nonempty in Hgo.
    + apply Forall_cons in Hall as [Hq _].
      exists (str q0). cbn [fmap list_fmap lookup list_lookup].
      rewrite chars_str. done.
  - pose proof (split_char_pieces "/" [] (chars url) (not_elem_of_nil _)) as Hall.
    change (chars "/") with ["/"%char]. rewrite fmap_last.
    destruct (last (split_go ["/"%char] 0 [] (chars url))) as [q|] eqn:Hlast.
    + exists (str q). rewrite chars_str. split; [done|]. split; [done|]. intros _.
      apply last_Some_elem_of in Hlast. by eapply Forall_forall in Hall.
    + apply last_None in Hlast. by apply split_go_nonempty in Hlast.
Qed.

(** X14.  From a watch address the id comes back: when the address is a
    text without ["v="], then ["v="], then an id that holds neither ["v="]
    nor [&], then nothing or more parameters after an [&], the id read is
    that id. *)
Theorem video_id_of_watch_url (pre id_ rest : string) :
  includes "v=" pre = false ->
  includes "v=" id_ = false ->
  "&"%char ∉ chars id_ ->
  rest = ""%string \/ (exists r, rest = ("&" +:+ r)%string) ->
  video_id (pre +:+ "v=" +:+ id_ +:+ rest) = Normal (Some id_).
Proof.
  intros Hpre Hid Hamp Hrest. unfold includes in Hpre, Hid.
  assert (Hchars : chars (pre +:+ "v=" +:+ id_ +:+ rest)
                   = chars pre ++ chars "v=" ++ (chars id_ ++ chars rest))
    by by rewrite !chars_append.
  unfold video_id, includes, split, split_chars. rewrite Hchars, includes_chars_app.
  rewrite split_go_first; [|done|by apply no_early_two].
  cbn [app rev fmap list_fmap lookup list_lookup].
  assert (Hno : no_early (chars "v=") (chars id_) (chars rest)).
  { apply no_early_two_gen; [|done].
    destruct Hrest as [->|[r ->]]; [done|]. by rewrite chars_append. }
  destruct (split_go_begins _ _ _ Hno) as (p & r' & -> & Htl).
  cbn [fmap list_fmap lookup list_lookup]. rewrite chars_str.
  change (chars "&") with ["&"%char]. f_equal.
  destruct Hrest as [->|[r ->]].
  - cbn in Htl. injection Htl as <- <-. rewrite app_nil_r.
    rewrite (split_go_none ["&"%char]) by by apply no_early_char.
    cbn [rev app fmap list_fmap lookup list_lookup]. by rewrite str_chars.
  - rewrite chars_append in Htl. change (chars "&") with ["&"%char] in Htl.
    cbn [app split_go is_prefix] in Htl. cbn [Ascii.eqb Bool.eqb andb] in Htl.
    rewrite split_go_cur in Htl.
    destruct (split_go (chars "v=") 0 [] (chars r)) as [|p2 r2] eqn:Hgo;
      [by apply split_go_nonempty in Hgo|].
    injection Htl as <- <-. cbn [rev app].
    change (chars id_ ++ "&"%char :: p2) with (chars id_ ++ ["&"%char] ++ p2).
    rewrite split_go_first; [|done|by apply no_early_char].
    cbn [rev app fmap list_fmap lookup list_lookup]. by rewrite str_chars.
Qed.

(** X15.  From a short address the id comes back: when the address holds no
    ["v="] and ends with a [/] and an id without [/], the id read is that
    id. *)
Theorem video_id_of_short_url (pre id_ : string) :
  includes "v=" (pre +:+ "/" +:+ id_) = false ->
  "/"%char ∉ chars id_ ->
  video_id (pre +:+ "/" +:+ id_) = Normal (Some id_).
Proof.
  intros Hinc Hid. unfold video_id. rewrite Hinc.
  unfold split, split_chars. rewrite fmap_last, !chars_append.
  change (chars "/") with ["/"%char]. cbn [app].
  rewrite last_split_char by done. cbn. by rewrite str_chars.
Qed.

Lemma video_id_of_watch_url_witness :
  video_id "https://www.youtube.com/watch?v=dQw4w9WgXcQ&t=42s"
  = Normal (Some "dQw4w9WgXcQ"%string).
Proof.
  apply (video_id_of_watch_url "https://www.youtube.com/watch?" "dQw4w9WgXcQ" "&t=42s").
  - reflexivity.
  - reflexivity.
  - intros Hin. vm_compute in Hin.
    repeat (apply elem_of_cons in Hin as [Hin|Hin]; [discriminate Hin|]).
    by apply elem_of_nil in Hin.
  - right. by exists "t=42s"%string.
Defined.

Lemma video_id_of_short_url_witness :
  video_id "https://youtu.be/dQw4w9WgXcQ" = Normal (Some "dQw4w9WgXcQ"%string).
Proof.
  apply (video_id_of_short_url "https://youtu.be" "dQw4w9WgXcQ").
  - reflexivity.
  - intros Hin. vm_compute in Hin.
    repeat (apply elem_of_cons in Hin as [Hin|Hin]; [discriminate Hin|]).
    by apply elem_of_nil in Hin.
Defined.

(** ** The address and the markup of the embed *)

Lemma hex_digit_unreserved n : (n < 16)%nat -> unreserved (hex_digit n) = true.
Proof.
  intros Hn. do 16 (destruct n as [|n]; [reflexivity|]). lia.
Qed.

Lemma encode_byte_safe c x :
  x ∈ encode_byte c -> unreserved x = true \/ x = "%"%char.
Proof.
  unfold encode_byte. destruct (unreserved c) eqn:Hc.
  - intros ->%list_elem_of_singleton. by left.
  - pose proof (nat_ascii_bounded c) as Hb.
    intros Hin. apply elem_of_cons in Hin as [->|Hin]; [by right|].
    apply elem_of_cons in Hin as [->|Hin].
    + left. apply hex_digit_unreserved. apply Nat.Div0.div_lt_upper_bound. lia.
    + apply list_elem_of_singleton in Hin as ->. left.
      apply hex_digit_unreserved. apply Nat.mod_upper_bound. lia.
Qed.

Lemma encodeURIComponent_safe_chars (s out : string) :
  encodeURIComponent s = Normal out ->
  Forall (fun x => unreserved x = true \/ x = "%"%char) (chars out).
Proof.
  unfold encodeURIComponent. destruct (lone_surrogate (chars s)); [done|].
  intros [= <-]. rewrite chars_str.
  apply Forall_forall. intros x Hin.
  apply list_elem_of_In, in_flat_map in Hin as (c & _ & Hin).
  apply list_elem_of_In in Hin. by eapply encode_byte_safe.
Qed.

(** The lead byte of a surrogate is not an unreserved character. *)
Lemma unreserved_not_lead a b : unreserved a = true -> surrogate_bytes a b = false.
Proof.
  intros Ha. unfold surrogate_bytes.
  destruct (Nat.eqb_spec (nat_of_ascii a) 237) as [Heq|]; [|done].
  unfold unreserved in Ha. rewrite Heq in Ha.
  rewrite <- (ascii_nat_embedding a), Heq in Ha. discriminate Ha.
Qed.

Lemma unreserved_no_surrogate cs :
  Forall (fun x => unreserved x = true) cs -> lone_surrogate cs = false.
Proof.
  induction 1 as [|a cs Ha _ IH]; [done|].
  cbn [lone_surrogate]. rewrite IH, orb_false_r.
  destruct cs as [|b cs]; [done|]. by apply unreserved_not_lead.
Qed.

(** X16.  What [encodeURIComponent] returns is made of unreserved
    characters and [%] alone, so it holds no quote, no space and none of
    [<], [>], [&]; a string of unreserved characters is returned as it is;
    and the only exception is the [URIError] thrown on a string that holds a
    surrogate without its pair. *)
Theorem encodeURIComponent_is_safe (s : string) :
  (forall out, encodeURIComponent s = Normal out ->
     Forall (fun x => unreserved x = true \/ x = "%"%char) (chars out))
  /\ (Forall (fun x => unreserved x = true) (chars s) -> encodeURIComponent s = Normal s)
  /\ (forall err, encodeURIComponent s = Throw err ->
        err = URIError /\ lone_surrogate (chars s) = true)
  /\ (lone_surrogate (chars s) = false -> exists out, encodeURIComponent s = Normal out).
Proof.
  split; [apply encodeURIComponent_safe_chars|].
  unfold encodeURIComponent. split; [|split].
  - intros Hall. rewrite unreserved_no_surrogate by done.
    rewrite <- (str_chars s) at 2. do 2 f_equal.
    induction Hall as [|c cs Hc _ IH]; [done|].
    cbn [flat_map]. unfold encode_byte at 1. by rewrite Hc, IH.
  - intros err. destruct (lone_surrogate (chars s)); [|done]. by intros [= <-].
  - intros ->. by eexists.
Qed.

Lemma filter_absent (c : ascii) l : c ∉ l -> filter (fun x => x = c) l = [].
Proof.
  intros Hc. induction l as [|x l IH]; [done|].
  apply not_elem_of_cons in Hc as [Hx Hl].
  rewrite filter_cons_False by congruence. by apply IH.
Qed.

Lemma count_char_append c a b :
  count_char c (a +:+ b) = (count_char c a + count_char c b)%nat.
Proof. unfold count_char. by rewrite chars_append, filter_app, length_app. Qed.

Lemma count_char_quoted c s :
  c <> quote_char -> count_char c (quoted s) = count_char c s.
Proof.
  intros Hc. unfold count_char, quoted.
  change (chars (String quote_char (s +:+ String quote_char "")))
    with (quote_char :: chars (s +:+ String quote_char "")).
  rewrite filter_cons_False by congruence. rewrite chars_append, filter_app.
  change (chars (String quote_char "")) with [quote_char].
  rewrite (filter_cons_False _ quote_char) by congruence.
  rewrite filter_nil, app_nil_r. done.
Qed.

Lemma count_char_encoded c s out :
  unreserved c = false -> c <> "%"%char ->
  encodeURIComponent s = Normal out -> count_char c out = 0%nat.
Proof.
  intros Hc Hp Hs. unfold count_char. rewrite filter_absent; [done|].
  intros Hin. pose proof (encodeURIComponent_safe_chars s out Hs) as Hall.
  eapply Forall_forall in Hall; [|exact Hin]. destruct Hall; congruence.
Qed.

Lemma video_id_found (url : string) :
  exists id_, video_id url = Normal (Some id_).
Proof.
  unfold video_id, split, split_chars. destruct (includes "v=" url) eqn:Hinc.
  - unfold includes in Hinc.
    destruct (split_go_includes (chars "v=") [] (chars url) ltac:(done) Hinc)
      as (p0 & p1 & rest & ->).
    cbn [fmap list_fmap lookup list_lookup]. rewrite chars_str.
    destruct (split_go (chars "&") 0 [] p1) as [|q0 qs] eqn:Hgo.
    + by apply split_go_nonempty in Hgo.
    + by exists (str q0).
  - rewrite fmap_last.
    destruct (last (split_go (chars "/") 0 [] (chars url))) as [q|] eqn:Hlast.
    + by exists (str q).
    + apply last_None in Hlast. by apply split_go_nonempty in Hlast.
Qed.

(** *** The pieces of a split lie in the string *)

Lemma lone_surrogate_app_r a b :
  lone_surrogate b = true -> lone_surrogate (a ++ b) = true.
Proof.
  intros Hb. induction a as [|x a IH]; [done|].
  cbn [app lone_surrogate]. by rewrite IH, orb_true_r.
Qed.

Lemma lone_surrogate_app_l a b :
  lone_surrogate a = true -> lone_surrogate (a ++ b) = true.
Proof.
  induction a as [|x a IH]; [done|]. cbn [app lone_surrogate].
  intros [Hx|Ha]%orb_true_iff.
  - destruct a as [|y a]; [done|]. cbn [app]. by rewrite Hx.
  - by rewrite IH, orb_true_r.
Qed.

Lemma lone_surrogate_within pre piece post :
  lone_surrogate piece = true -> lone_surrogate (pre ++ piece ++ post) = true.
Proof. intros H. by apply lone_surrogate_app_r, lone_surrogate_app_l. Qed.

Lemma split_go_within sep skip cur s piece :
  skip = 0%nat \/ cur = [] ->
  piece ∈ split_go sep skip cur s ->
  exists pre post, rev cur ++ s = pre ++ piece ++ post.
Proof.
  revert skip cur. induction s as [|c s IH]; intros skip cur Hinv; cbn [split_go].
  - intros ->%list_elem_of_singleton. exists [], []. by rewrite !app_nil_r.
  - destruct skip as [|k].
    + destruct (is_prefix sep (c :: s)).
      * intros [->|Hin]%elem_of_cons.
        -- by exists [], (c :: s).
        -- destruct (IH _ [] (or_intror eq_refl) Hin) as (pre & post & Heq).
           cbn [rev app] in Heq. exists (rev cur ++ c :: pre), post.
           rewrite Heq. by rewrite <- !app_assoc.
      * intros Hin. destruct (IH _ (c :: cur) (or_introl eq_refl) Hin) as (pre & post & Heq).
        exists pre, post. rewrite <- Heq. cbn [rev]. by rewrite <- app_assoc.
    + destruct Hinv as [? | ->]; [done|]. intros Hin.
      destruct (IH _ [] (or_intror eq_refl) Hin) as (pre & post & Heq).
      cbn [rev app] in *. exists (c :: pre), post. by rewrite Heq.
Qed.

Lemma split_within sep s piece :
  piece ∈ split sep s -> exists pre post, chars s = pre ++ chars piece ++ post.
Proof.
  unfold split, split_chars. intros (p & -> & Hin)%list_elem_of_fmap.
  rewrite chars_str. by apply (split_go_within _ _ [] _ _ (or_introl eq_refl)) in Hin.
Qed.

(** The id is a part of the address. *)
Lemma video_id_within url id_ :
  video_id url = Normal (Some id_) ->
  exists pre post, chars url = pre ++ chars id_ ++ post.
Proof.
  unfold video_id. destruct (includes "v=" url).
  - destruct (split "v=" url !! 1%nat) as [piece|] eqn:Hp; [|done].
    intros [= Hid]. apply list_elem_of_lookup_2 in Hp, Hid.
    apply split_within in Hp as (pre & post & ->).
    apply split_within in Hid as (pre' & post' & ->).
    exists (pre ++ pre'), (post' ++ post). by rewrite <- !app_assoc.
  - intros [= Hid]. apply last_Some_elem_of in Hid. by eapply split_within.
Qed.

(** *** The markup *)

Lemma count_char_escaped_angle Date_toString v c out :
  c = "<"%char \/ c = ">"%char ->
  escapeHtml Date_toString v = Normal out -> count_char c out = 0%nat.
Proof.
  intros Hc Hv. destruct (escapeHtml_cases Date_toString v) as [[cs Hcs] | [Hcs _]];
    [|congruence].
  rewrite Hcs in Hv. apply Normal_inj in Hv as <-.
  unfold count_char. rewrite chars_str, filter_absent; [done|].
  intros Hin. apply list_elem_of_In, in_flat_map in Hin as (x & _ & Hx).
  apply list_elem_of_In in Hx. apply escape_char_no_angle in Hx as [? ?].
  destruct Hc; congruence.
Qed.

Lemma count_quote_quoted s :
  count_char quote_char (quoted s) = (2 + count_char quote_char s)%nat.
Proof.
  unfold count_char, quoted.
  change (chars (String quote_char (s +:+ String quote_char "")))
    with (quote_char :: chars (s +:+ String quote_char "")).
  rewrite filter_cons_True by done. rewrite chars_append, filter_app.
  change (chars (String quote_char "")) with [quote_char].
  rewrite (filter_cons_True _ quote_char) by done.
  rewrite filter_nil. cbn [length]. rewrite length_app. cbn [length]. lia.
Qed.

Lemma count_quote_escaped s :
  count_char quote_char (str (flat_map escape_char (chars s)))
  = count_char quote_char s.
Proof.
  unfold count_char. rewrite chars_str. f_equal.
  induction (chars s) as [|x cs IH]; [done|].
  cbn [flat_map]. rewrite filter_app, IH. unfold escape_char.
  destruct (Ascii.eqb_spec x "&") as [->|_]; [done|].
  destruct (Ascii.eqb_spec x "<") as [->|_]; [done|].
  destruct (Ascii.eqb_spec x ">") as [->|_]; [done|].
  destruct (decide (x = quote_char)) as [->|Hx].
  - by rewrite !filter_cons_True.
  - by rewrite !(filter_cons_False _ x) by done.
Qed.

(** What the markup of the embed throws: a [URIError], for an address whose
    id holds a surrogate without its pair. *)
Lemma embed_markup_Throw Date_toString url err :
  embed_markup Date_toString url = Throw err ->
  err = URIError /\ lone_surrogate (chars url) = true
  /\ negb (String.eqb url "")
     && (includes "youtube.com" url || includes "youtu.be" url) = true.
Proof.
  unfold embed_markup.
  destruct (negb (String.eqb url "")
            && (includes "youtube.com" url || includes "youtu.be" url)).
  - destruct (video_id_found url) as [id_ Hid]. rewrite Hid.
    cbn [mbind completion_bind from_option id].
    unfold encodeURIComponent. destruct (lone_surrogate (chars id_)) eqn:Hl; [|done].
    cbn [mbind completion_bind]. intros [= <-]. split; [done|]. split; [|done].
    apply video_id_within in Hid as (pre & post & ->). by apply lone_surrogate_within.
  - by rewrite escapeHtml_string.
Qed.

Lemma embed_markup_returns Date_toString url :
  lone_surrogate (chars url) = false ->
  exists m, embed_markup Date_toString url = Normal m.
Proof.
  intros Hl. destruct (embed_markup Date_toString url) as [m|err] eqn:Hm; [by exists m|].
  apply embed_markup_Throw in Hm as (_ & Hl' & _). congruence.
Qed.

(** X17.  Whenever the markup of the embed is produced, it holds exactly
    the two tags written in the template, two [<] and two [>], whatever the
    address is.  The player's markup holds exactly the eight quotes of its
    four attributes; the link's markup holds its six and, unescaped, every
    quote of the address.  The markup is produced for every address that
    holds no surrogate without its pair; the only exception is the
    [URIError] of [encodeURIComponent], for an address that holds one and
    names the player's site. *)
Theorem embed_markup_tags (Date_toString : timevalue -> string) (url : string) :
  (forall m, embed_markup Date_toString url = Normal m ->
     count_char "<" m = 2%nat
     /\ count_char ">" m = 2%nat
     /\ count_char quote_char m
        = if negb (String.eqb url "")
             && (includes "youtube.com" url || includes "youtu.be" url)
          then 8%nat else (6 + count_char quote_char url)%nat)
  /\ (forall err, embed_markup Date_toString url = Throw err ->
        err = URIError /\ lone_surrogate (chars url) = true
        /\ negb (String.eqb url "")
           && (includes "youtube.com" url || includes "youtu.be" url) = true)
  /\ (lone_surrogate (chars url) = false ->
      exists m, embed_markup Date_toString url = Normal m).
Proof.
  split; [|split; [apply embed_markup_Throw | apply embed_markup_returns]].
  intros m. unfold embed_markup.
  destruct (negb (String.eqb url "")
            && (includes "youtube.com" url || includes "youtu.be" url)).
  - destruct (video_id_found url) as [id_ ->].
    cbn [mbind completion_bind from_option id].
    destruct (encodeURIComponent id_) as [enc|] eqn:Henc; [|done].
    cbn [mbind completion_bind]. intros [= <-].
    rewrite !count_char_append, !count_char_quoted, !count_char_append by done.
    rewrite !(count_char_encoded _ id_ enc) by done.
    split; [reflexivity|]. split; [reflexivity|].
    rewrite !count_quote_quoted, !count_char_append.
    rewrite (count_char_encoded _ id_ enc) by done.
    reflexivity.
  - rewrite escapeHtml_string. cbn [mbind completion_bind]. intros [= <-].
    unfold link_markup.
    rewrite !count_char_append, !count_char_quoted by done.
    rewrite (count_char_escaped_angle Date_toString (Json (JStr url)) "<" _
               (or_introl eq_refl) (escapeHtml_string Date_toString url)).
    rewrite (count_char_escaped_angle Date_toString (Json (JStr url)) ">" _
               (or_intror eq_refl) (escapeHtml_string Date_toString url)).
    split; [reflexivity|]. split; [reflexivity|].
    rewrite !count_quote_quoted, count_quote_escaped.
    vm_compute (count_char quote_char "<a href=").
    vm_compute (count_char quote_char " target=").
    vm_compute (count_char quote_char " rel=").
    vm_compute (count_char quote_char ">Open video in new tab</a>").
    vm_compute (count_char quote_char "_blank").
    vm_compute (count_char quote_char "noopener").
    lia.
Qed.

(** An address that ends in a surrogate without its pair has no embed. *)
Example embed_markup_of_surrogate :
  embed_markup sample_Date_toString surrogate_address = Throw URIError.
Proof. vm_compute. reflexivity. Qed.

(** ** The fact of the day *)

Lemma fact_index_range (r : Q) :
  (0 <= r)%Q -> (r < 1)%Q -> 0 <= fact_index r < Z.of_nat (length FACTS).
Proof.
  intros H0 H1. unfold fact_index.
  set (n := Z.of_nat (length FACTS)).
  assert (Hn : 0 < n) by (vm_compute; reflexivity).
  split.
  - change 0 with (Qfloor 0). apply Qfloor_resp_le.
    apply Qmult_le_0_compat; [done|]. unfold Qle; cbn. lia.
  - rewrite Zlt_Qlt. eapply Qle_lt_trans; [apply Qfloor_le|].
    rewrite <- (Qmult_1_l (inject_Z n)) at 2.
    apply Qmult_lt_compat_r; [|done]. unfold Qlt; cbn. lia.
Qed.

(** X18.  Every draw shows a fact of the list: for a draw of [[0, 1)] the
    index computed is within the list, so the box never reads
    ["undefined"]; a page without the box is left alone. *)
Theorem showRandomFact_shows_a_fact (r : Q) (old : string) :
  (0 <= r)%Q -> (r < 1)%Q ->
  (exists f, f ∈ FACTS /\ showRandomFact r (Some old) = Some ("💡 " +:+ f)%string)
  /\ showRandomFact r None = None.
Proof.
  intros H0 H1. split; [|done].
  destruct (fact_index_range r H0 H1) as [Hlo Hhi].
  unfold showRandomFact, fact_at.
  destruct (Z.leb_spec 0 (fact_index r)) as [_|]; [|lia].
  destruct (FACTS !! Z.to_nat (fact_index r)) as [f|] eqn:Hf.
  - exists f. split; [by eapply list_elem_of_lookup_2|done].
  - apply lookup_ge_None in Hf. lia.
Qed.

Lemma showRandomFact_shows_a_fact_witness :
  (exists f, f ∈ FACTS
     /\ showRandomFact (1 # 2) (Some ""%string) = Some ("💡 " +:+ f)%string)
  /\ showRandomFact (1 # 2) None = None.
Proof.
  apply (showRandomFact_shows_a_fact (1 # 2) ""); [discriminate | reflexivity].
Defined.

(** ** Sample runs *)

Lemma reconcile_characterised_witness :
  reconcile utc_host "2021-06-20" [entry_0622; entry_0701; entry_0622_again; entry_0620]
  = Normal [Json entry_0620; Json entry_0622_again]
  /\ exists w, nineDatesFrom utc_host "2021-06-20" = Normal w
       /\ [Json entry_0620; Json entry_0622_again]
          = Json <$> omap (fun k => last_filed utc_host k
                             [entry_0622; entry_0701; entry_0622_again; entry_0620]) w.
Proof.
  assert (H : reconcile utc_host "2021-06-20"
                [entry_0622; entry_0701; entry_0622_again; entry_0620]
              = Normal [Json entry_0620; Json entry_0622_again])
    by (vm_compute; reflexivity).
  exact (conj H (reconcile_characterised utc_host _ _ _ H)).
Defined.

Lemma handleFetch_shows_result_witness :
  fetchClassFeed utc_host (Response 200 (BodyJson (JArr [entry_0701; entry_0620])))
  = Normal [entry_0701; entry_0620]
  /\ reconcile utc_host "2021-06-20" [entry_0701; entry_0620] = Normal [Json entry_0620]
  /\ Forall (fun r => exists h, card_markup sample_Date_toString r = Normal h)
            [Json entry_0620]
  /\ galleryEl (settled (handleFetch utc_host sample_Date_toString sample_page
                           (Response 200 (BodyJson (JArr [entry_0701; entry_0620])))))
     = Some (Cards [Json entry_0620])
  /\ alerts (settled (handleFetch utc_host sample_Date_toString sample_page
                        (Response 200 (BodyJson (JArr [entry_0701; entry_0620])))))
     = alerts sample_page.
Proof.
  assert (Hf : fetchClassFeed utc_host
                 (Response 200 (BodyJson (JArr [entry_0701; entry_0620])))
               = Normal [entry_0701; entry_0620]) by (vm_compute; reflexivity).
  assert (Hr : reconcile utc_host "2021-06-20" [entry_0701; entry_0620]
               = Normal [Json entry_0620]) by (vm_compute; reflexivity).
  assert (Hc : Forall (fun r => exists h, card_markup sample_Date_toString r = Normal h)
                      [Json entry_0620]).
  { apply Forall_cons_2; [|apply Forall_nil_2]. eexists. vm_compute. reflexivity. }
  refine (conj Hf (conj Hr (conj Hc _))).
  apply (proj1 (handleFetch_shows_result utc_host sample_Date_toString sample_page _
                  "2021-06-20" Untouched [entry_0701; entry_0620] [Json entry_0620]
                  eq_refl ltac:(discriminate) eq_refl Hf Hr) Hc).
Defined.

(** An entry whose title cannot be converted to a string: its card is not
    made, the cards after it neither, and the alert is raised over the card
    made before. *)
Example handleFetch_untitled_run :
  settled (handleFetch utc_host sample_Date_toString sample_page
             (Response 200 (BodyJson (JArr [entry_0620; entry_untitled; entry_0622]))))
  = {| startDateInput := Some "2021-06-20"%string;
       loadingEl := Some true;
       getImageBtn := Some {| disabled := false; has_loading_class := false |};
       galleryEl := Some (Cards [Json entry_0620]);
       alerts :=
         ["An error occurred while fetching images. See the console for details."%string]
    |}.
Proof. vm_compute. reflexivity. Qed.

Lemma handleFetch_alerts_on_error_witness :
  galleryEl (settled (handleFetch utc_host sample_Date_toString page_without_gallery
                        FetchFailed))
  = galleryEl page_without_gallery
  /\ alerts (settled (handleFetch utc_host sample_Date_toString page_without_gallery
                        FetchFailed))
     = alerts page_without_gallery
         ++ ["An error occurred while fetching images. See the console for details."%string].
Proof.
  apply (handleFetch_alerts_on_error utc_host sample_Date_toString page_without_gallery
           FetchFailed "2021-06-20" []);
    [reflexivity | discriminate | reflexivity | right; reflexivity].
Defined.

Lemma handleFetch_failed_fetch_is_silent_witness :
  galleryEl (settled (handleFetch utc_host sample_Date_toString sample_page FetchFailed))
  = Some Placeholder
  /\ alerts (settled (handleFetch utc_host sample_Date_toString sample_page FetchFailed))
     = alerts sample_page.
Proof.
  apply (handleFetch_failed_fetch_is_silent utc_host sample_Date_toString sample_page
           FetchFailed "2021-06-20" Untouched window_0620);
    [reflexivity | discriminate | reflexivity | vm_compute; reflexivity | reflexivity].
Defined.

(** ** The modal *)

Section ModalFacts.

Context (Date_toString : timevalue -> string).

(** What the markup of the embed throws: a [TypeError] on an address that
    is truthy and not a string, a [URIError] on a string that holds a
    surrogate without its pair. *)
Lemma embed_innerHTML_Throw (url : jsval) err :
  embed_innerHTML Date_toString url = Throw err ->
  (err = TypeError /\ truthy url = true /\ forall s, url <> Json (JStr s))
  \/ (err = URIError /\ exists s, url = Json (JStr s) /\ lone_surrogate (chars s) = true).
Proof.
  assert (Hesc : forall v : jsval,
            (href ← escapeHtml Date_toString v; Normal (link_markup href)) = Throw err ->
            err = TypeError /\ truthy v = true).
  { intros v. unfold escapeHtml. destruct (truthy v); [|done].
    destruct (String_of Date_toString v) as [t|e] eqn:Ht; [done|].
    cbn [mbind completion_bind]. intros [= <-].
    by apply String_of_Throw in Ht as [-> _]. }
  assert (Hother : forall v : jsval,
            (forall s, v <> Json (JStr s)) ->
            (if truthy v then Throw TypeError
             else href ← escapeHtml Date_toString v; Normal (link_markup href))
            = Throw err ->
            err = TypeError /\ truthy v = true /\ forall s, v <> Json (JStr s)).
  { intros v Hv. destruct (truthy v) eqn:Htr.
    - intros [= <-]. by repeat split.
    - intros [_ H]%Hesc. congruence. }
  unfold embed_innerHTML. destruct url as [|j|tv].
  - intros H. left. by apply Hother.
  - destruct j as [|b|x|s|a|fields];
      try (intros H; left; by apply Hother).
    + intros (-> & Hl & _)%embed_markup_Throw. right. split; [done|]. by exists s.
    + destruct (array_includes "youtube.com" a || array_includes "youtu.be" a).
      * intros [= <-]. by left.
      * intros [-> H]%Hesc. by left.
  - intros H. left. by apply Hother.
Qed.

Lemma tail_short {A} (l : list A) : (length l <= 1)%nat -> tail l = [].
Proof. destruct l as [|x [|y l]]; cbn; [done..|lia]. Qed.

Lemma assign_Normal s set next (m : Modal) :
  assign (Normal s) set next m = next (set s m).
Proof. reflexivity. Qed.

(** The last statements of [openModal], lines 173-177: what they leave. *)
Lemma texts_shown c1 c2 c3 m :
  let r := assign c1 set_title_text
             (assign c2 set_date_text
                (assign c3 set_explanation_text
                   (fun m => (set_body_overflow "hidden" (set_modal_hidden false m), None))))
             m in
  embeds (fst r) = embeds m
  /\ image_display (fst r) = image_display m
  /\ (snd r = None <->
      (exists s, c1 = Normal s) /\ (exists s, c2 = Normal s) /\ (exists s, c3 = Normal s))
  /\ (snd r = None ->
      modal_hidden (fst r) = false /\ body_overflow (fst r) = "hidden"%string
      /\ c1 = Normal (title_text (fst r)))
  /\ (forall err, snd r = Some err ->
        modal_hidden (fst r) = modal_hidden m /\ body_overflow (fst r) = body_overflow m
        /\ (c1 = Throw err \/ c2 = Throw err \/ c3 = Throw err)).
Proof.
  destruct c1 as [s1|e1], c2 as [s2|e2], c3 as [s3|e3]; cbn;
    (repeat split; try done; try (by eexists);
     try (by intros (? & ? & [? [=]]));
     try (by intros ([? [=]] & _));
     try (by intros (_ & [? [=]] & _));
     try (intros err [= <-]; repeat split; auto);
     try match goal with H : Some _ = Some _ |- _ => injection H as <-; auto end).
Qed.

(** [openModal], by what the statements before the last ones leave. *)
Lemma openModal_eq (it : item) (m : Modal) :
  openModal Date_toString it (Some m)
  = let text v := String_of Date_toString (or_else v (Json (JStr ""))) in
    let texts :=
      assign (text (item_title it)) set_title_text
        (assign (text (item_date it)) set_date_text
           (assign (text (item_explanation it)) set_explanation_text
              (fun m => (set_body_overflow "hidden" (set_modal_hidden false m), None)))) in
    let m0 := set_embeds (tail (embeds m)) m in
    let r :=
      if is_video (item_media_type it) then
        assign (embed_innerHTML Date_toString (item_url it))
               (fun markup m => set_embeds (embeds m ++ [markup]) m)
               texts (set_image_display "none" m0)
      else
        assign (text (item_url it)) (fun s => set_image_src (str (usv (chars s))))
               (assign (text (item_title it)) set_image_alt texts)
               (set_image_display "" m0) in
    (Some (fst r), snd r).
Proof.
  unfold openModal. cbv zeta.
  by destruct (if is_video (item_media_type it) then _ else _).
Qed.

(** What a call of [openModal] leaves, whether it returns or throws. *)
Lemma openModal_outcome (it : item) (m : Modal) :
  exists m', fst (openModal Date_toString it (Some m)) = Some m'
    /\ ((length (embeds m) <= 1)%nat -> tidy m')
    /\ (snd (openModal Date_toString it (Some m)) = None ->
        modal_hidden m' = false /\ body_overflow m' = "hidden"%string
        /\ String_of Date_toString (or_else (item_title it) (Json (JStr "")))
           = Normal (title_text m')
        /\ ((length (embeds m) <= 1)%nat ->
            length (embeds m') = if is_video (item_media_type it) then 1%nat else 0%nat))
    /\ (forall err, snd (openModal Date_toString it (Some m)) = Some err ->
          modal_hidden m' = modal_hidden m /\ body_overflow m' = body_overflow m
          /\ (err = TypeError \/ err = URIError)
          /\ (err = URIError ->
              is_video (item_media_type it) = true
              /\ (exists s, item_url it = Json (JStr s) /\ lone_surrogate (chars s) = true)
              /\ embeds m' = tail (embeds m)
              /\ image_display m' = "none"%string
              /\ title_text m' = title_text m
              /\ date_text m' = date_text m
              /\ explanation_text m' = explanation_text m)).
Proof.
  rewrite openModal_eq. cbv zeta. cbn [fst snd]. eexists. split; [reflexivity|].
  set (c1 := String_of Date_toString (or_else (item_title it) (Json (JStr "")))).
  set (c2 := String_of Date_toString (or_else (item_date it) (Json (JStr "")))).
  set (c3 := String_of Date_toString (or_else (item_explanation it) (Json (JStr "")))).
  set (cu := String_of Date_toString (or_else (item_url it) (Json (JStr "")))).
  assert (Htype : forall (c : completion string) v err,
            c = String_of Date_toString v -> c = Throw err -> err = TypeError).
  { intros c v err -> H. by apply String_of_Throw in H as [-> _]. }
  assert (H123 : forall err, c1 = Throw err \/ c2 = Throw err \/ c3 = Throw err ->
                   err = TypeError).
  { intros err [H|[H|H]]; eapply Htype; try exact H; reflexivity. }
  destruct (is_video (item_media_type it)).
  - destruct (embed_innerHTML Date_toString (item_url it)) as [mk|e] eqn:He;
      cbn [assign].
    + match goal with
      | |- context [assign c1 set_title_text ?k ?m1] =>
          pose proof (texts_shown c1 c2 c3 m1) as Hts; cbv zeta in Hts;
          set (r := assign c1 set_title_text k m1) in *;
          destruct Hts as (Hemb & Hdisp & _ & Hok & Hfail)
      end.
      cbn [set_embeds set_image_display embeds image_display modal_hidden body_overflow]
        in Hemb, Hdisp, Hfail.
      split; [|split].
      * intros Hlen. unfold tidy. rewrite Hemb, Hdisp, (tail_short _ Hlen).
        cbn. split; [lia | by right].
      * intros Hnone. destruct (Hok Hnone) as (Hh & Ho & Ht). repeat split; try done.
        intros Hlen. by rewrite Hemb, (tail_short _ Hlen).
      * intros err Herr. destruct (Hfail err Herr) as (Hh & Ho & Hc).
        pose proof (H123 err Hc) as ->.
        split; [done|]. split; [done|]. split; [by left|]. intros Hx. discriminate Hx.
    + cbn [fst snd set_embeds set_image_display embeds image_display modal_hidden
        body_overflow title_text date_text explanation_text].
      split; [|split; [done|]].
      * intros Hlen. unfold tidy. cbn. rewrite (tail_short _ Hlen). cbn. split; [lia | by left].
      * intros err [= <-]. split; [done|]. split; [done|].
        apply embed_innerHTML_Throw in He as [(-> & _) | (-> & s & Hs & Hl)].
        -- split; [by left|]. intros Hx. discriminate Hx.
        -- split; [by right|]. intros _. repeat split; try done. by exists s.
  - destruct cu as [su|eu] eqn:Hu; cbn [assign].
    + destruct c1 as [s1|e1] eqn:H1;
        [rewrite (assign_Normal s1 set_image_alt) | cbn [assign]].
      * match goal with
        | |- context [assign (Normal s1) set_title_text ?k ?m1] =>
            pose proof (texts_shown (Normal s1) c2 c3 m1) as Hts; cbv zeta in Hts;
            set (r := assign (Normal s1) set_title_text k m1) in *;
            destruct Hts as (Hemb & Hdisp & _ & Hok & Hfail)
        end.
        cbn [set_embeds set_image_display set_image_src set_image_alt embeds
          image_display modal_hidden body_overflow] in Hemb, Hdisp, Hfail.
        split; [|split].
        -- intros Hlen. unfold tidy. rewrite Hemb, (tail_short _ Hlen).
           split; [cbn; lia | by left].
        -- intros Hnone. destruct (Hok Hnone) as (Hh & Ho & Ht). repeat split; try done.
           intros Hlen. by rewrite Hemb, (tail_short _ Hlen).
        -- intros err Herr. destruct (Hfail err Herr) as (Hh & Ho & Hc).
           assert (err = TypeError) as ->.
           { destruct Hc as [Hc|Hc]; [discriminate Hc|]. apply H123. by right. }
           split; [done|]. split; [done|]. split; [by left|]. intros Hx. discriminate Hx.
      * cbn [fst snd set_embeds set_image_display set_image_src embeds image_display
          modal_hidden body_overflow].
        split; [|split; [done|]].
        -- intros Hlen. unfold tidy. cbn. rewrite (tail_short _ Hlen). split; [cbn; lia | by left].
        -- intros err [= <-]. split; [done|]. split; [done|].
           rewrite (H123 e1 (or_introl eq_refl)).
           split; [by left|]. intros Hx. discriminate Hx.
    + cbn [fst snd set_embeds set_image_display embeds image_display modal_hidden
        body_overflow].
      split; [|split; [done|]].
      * intros Hlen. unfold tidy. cbn. rewrite (tail_short _ Hlen). split; [cbn; lia | by left].
      * intros err [= <-]. split; [done|]. split; [done|].
        rewrite (Htype cu _ eu eq_refl Hu).
        split; [by left|]. intros Hx. discriminate Hx.
Qed.

Lemma openModal_tidy (it : item) (m m' : Modal) :
  (length (embeds m) <= 1)%nat ->
  fst (openModal Date_toString it (Some m)) = Some m' -> tidy m'.
Proof.
  intros Hlen. destruct (openModal_outcome it m) as (m1 & -> & Ht & _).
  intros [= <-]. by apply Ht.
Qed.

Lemma closeModal_tidy (m m' : Modal) :
  (length (embeds m) <= 1)%nat -> closeModal (Some m) = Some m' -> tidy m'.
Proof.
  intros Hlen. unfold closeModal. intros [= <-]. unfold tidy. cbn.
  rewrite (tail_short _ Hlen). split; [cbn; lia | by left].
Qed.

Lemma thumb_click_tidy (entry : json) (m m' : Modal) :
  tidy m -> thumb_click Date_toString entry (Some m) = Some m' -> tidy m'.
Proof.
  intros Hm. unfold thumb_click.
  destruct (card_markup Date_toString (Json entry)); [|by intros [= <-]].
  destruct (card_item Date_toString (Json entry)) as [it|]; [|by intros [= <-]].
  apply openModal_tidy. by destruct Hm.
Qed.

Lemma listen_tidy (ev : event) (m m' : Modal) :
  tidy m -> listen Date_toString ev (Some m) = Some m' -> tidy m'.
Proof.
  intros Hm. pose proof Hm as (Hlen & _).
  assert (Hclose : forall k mo, (forall x, mo = Some x -> tidy x) ->
            (if escape_closes k mo then closeModal mo else mo) = Some m' -> tidy m').
  { intros k mo Hmo. destruct (escape_closes k mo); [|by apply Hmo].
    destruct mo as [x|]; [|done]. apply closeModal_tidy. by apply Hmo. }
  destruct ev as [entry|key entry| |[]|key]; cbn [listen].
  - by apply thumb_click_tidy.
  - apply Hclose. intros x. destruct (String.eqb key "Enter" || String.eqb key " ").
    + by apply thumb_click_tidy.
    + by intros [= <-].
  - by apply closeModal_tidy.
  - by apply closeModal_tidy.
  - by intros [= <-].
  - apply Hclose. by intros x [= <-].
Qed.

Lemma thumb_click_absent (entry : json) : thumb_click Date_toString entry None = None.
Proof. unfold thumb_click. by repeat case_match. Qed.

Lemma listen_absent (ev : event) : listen Date_toString ev None = None.
Proof.
  destruct ev as [entry|key entry| |[]|key]; cbn [listen closeModal];
    rewrite ?thumb_click_absent; try done;
    unfold escape_closes; rewrite ?andb_false_r; by repeat case_match.
Qed.

Lemma after_absent (evs : list event) : after Date_toString evs None = None.
Proof.
  unfold after. induction evs as [|ev evs IH]; [done|].
  cbn [foldl]. by rewrite listen_absent.
Qed.

Lemma after_tidy (evs : list event) (m m' : Modal) :
  tidy m -> after Date_toString evs (Some m) = Some m' -> tidy m'.
Proof.
  unfold after. revert m. induction evs as [|ev evs IH]; intros m Hm; cbn [foldl].
  - by intros [= <-].
  - destruct (listen Date_toString ev (Some m)) as [m1|] eqn:H1.
    + apply IH. by eapply listen_tidy.
    + fold (after Date_toString evs None). by rewrite after_absent.
Qed.

(** X19.  Whatever is clicked and pressed, in whatever order, on a page
    whose modal starts without an embed: the modal never holds more than
    one embed, and never an embed beside a displayed image, also when a call
    of [openModal] ends on an exception. *)
Theorem modal_stays_tidy (m0 : Modal) (evs : list event) (m : Modal) :
  embeds m0 = [] ->
  after Date_toString evs (Some m0) = Some m ->
  (length (embeds m) <= 1)%nat
  /\ (embeds m = [] \/ image_display m = "none"%string).
Proof.
  intros H0. apply after_tidy. unfold tidy. rewrite H0. cbn. auto.
Qed.

(** When a call of [openModal] returns. *)
Lemma openModal_returns (it : item) (m : Modal) :
  snd (openModal Date_toString it (Some m)) = None <->
      (if is_video (item_media_type it)
       then exists mk, embed_innerHTML Date_toString (item_url it) = Normal mk
       else exists s, String_of Date_toString (or_else (item_url it) (Json (JStr "")))
                      = Normal s)
      /\ (exists s, String_of Date_toString (or_else (item_title it) (Json (JStr "")))
                    = Normal s)
      /\ (exists s, String_of Date_toString (or_else (item_date it) (Json (JStr "")))
                    = Normal s)
      /\ (exists s, String_of Date_toString (or_else (item_explanation it) (Json (JStr "")))
                    = Normal s).
Proof.
  rewrite openModal_eq. cbv zeta. cbn [snd].
  destruct (is_video (item_media_type it)).
  - destruct (embed_innerHTML Date_toString (item_url it)) as [mk|e]; cbn [assign].
    + match goal with
      | |- context [assign ?c1 set_title_text (assign ?c2 _ (assign ?c3 _ _)) ?m1] =>
          destruct (texts_shown c1 c2 c3 m1) as (_ & _ & Hiff & _)
      end.
      cbv zeta in Hiff. rewrite Hiff. split; [intros H; split; [by eexists|done]|].
      by intros [_ H].
    + cbn [snd]. split; [done|]. by intros [[? [=]] _].
  - destruct (String_of Date_toString (or_else (item_url it) (Json (JStr ""))))
      as [su|eu]; cbn [assign].
    + destruct (String_of Date_toString (or_else (item_title it) (Json (JStr ""))))
        as [s1|e1] eqn:H1;
        [rewrite (assign_Normal s1 set_image_alt) | cbn [assign]].
      *  match goal with
         | |- context [assign ?c1 set_title_text (assign ?c2 _ (assign ?c3 _ _)) ?m1] =>
             destruct (texts_shown c1 c2 c3 m1) as (_ & _ & Hiff & _)
         end.
         cbv zeta in Hiff. rewrite Hiff. split; [intros H; split; [by eexists|done]|].
         by intros [_ H].
      *  cbn [snd]. split; [done|]. by intros (_ & [? [=]] & _).
    + cbn [snd]. split; [done|]. by intros [[? [=]] _].
Qed.

(** X21.  [openModal] throws nothing but a [TypeError] and a [URIError], and
    a call that throws never shows the modal: [hidden] and the scrolling of
    the page are left as they were.  The [URIError] comes from a video whose
    address holds a surrogate without its pair; the image is then hidden,
    the embed of before removed, and the texts are those of the item opened
    before.  The call returns exactly when every value it converts to a
    string, and the markup of the embed for a video, can be made. *)
Theorem openModal_failure (it : item) (m : Modal) :
  (forall err, snd (openModal Date_toString it (Some m)) = Some err ->
     (err = TypeError \/ err = URIError)
     /\ exists m', fst (openModal Date_toString it (Some m)) = Some m'
          /\ modal_hidden m' = modal_hidden m
          /\ body_overflow m' = body_overflow m)
  /\ (snd (openModal Date_toString it (Some m)) = Some URIError ->
      is_video (item_media_type it) = true
      /\ (exists s, item_url it = Json (JStr s) /\ lone_surrogate (chars s) = true)
      /\ exists m', fst (openModal Date_toString it (Some m)) = Some m'
           /\ embeds m' = tail (embeds m)
           /\ image_display m' = "none"%string
           /\ title_text m' = title_text m
           /\ date_text m' = date_text m
           /\ explanation_text m' = explanation_text m)
  /\ (snd (openModal Date_toString it (Some m)) = None <->
      (if is_video (item_media_type it)
       then exists mk, embed_innerHTML Date_toString (item_url it) = Normal mk
       else exists s, String_of Date_toString (or_else (item_url it) (Json (JStr "")))
                      = Normal s)
      /\ (exists s, String_of Date_toString (or_else (item_title it) (Json (JStr "")))
                    = Normal s)
      /\ (exists s, String_of Date_toString (or_else (item_date it) (Json (JStr "")))
                    = Normal s)
      /\ (exists s, String_of Date_toString (or_else (item_explanation it) (Json (JStr "")))
                    = Normal s)).
Proof.
  destruct (openModal_outcome it m) as (m' & Hfst & _ & _ & Hfail).
  split; [|split].
  - intros err Herr. destruct (Hfail err Herr) as (Hh & Ho & He & _).
    split; [done|]. by exists m'.
  - intros Herr. destruct (Hfail _ Herr) as (_ & _ & _ & Hu).
    destruct (Hu eq_refl) as (Hv & Hs & He & Hd & Ht & Hdt & Hex).
    split; [done|]. split; [done|]. by exists m'.
  - apply openModal_returns.
Qed.

(** *** The cards *)

Lemma card_item_Json (entry : json) :
  entry <> JNull ->
  card_item Date_toString (Json entry)
  = title ←
      (if truthy (member "title" entry) then Normal (member "title" entry)
       else
         s ← String_of Date_toString (or_else (member "date" entry) (Json (JStr "")));
         Normal (Json (JStr ("Image " +:+ s))));
    Normal {| item_media_type := member "media_type" entry;
              item_url := or_else (member "url" entry) (Json (JStr ""));
              item_title := title;
              item_date := member "date" entry;
              item_explanation := or_else (member "explanation" entry) (Json (JStr "")) |}.
Proof.
  intros Hne. unfold card_item.
  assert (Hm : forall k, member_of k (Json entry) = Normal (member k entry))
    by (intros k; by destruct entry).
  rewrite !Hm. cbn [mbind completion_bind].
  destruct (truthy (member "title" entry)); [done|].
  by destruct (String_of Date_toString (or_else (member "date" entry) (Json (JStr "")))).
Qed.

Lemma String_of_or_else (v : jsval) :
  (exists s, String_of Date_toString v = Normal s) ->
  exists s, String_of Date_toString (or_else v (Json (JStr ""))) = Normal s.
Proof. intros H. unfold or_else. destruct (truthy v); [done|by eexists]. Qed.

(** X20.  A card opens the modal whenever the values of its entry can be
    converted to strings and its address, when it has one, is a string that
    holds no surrogate without its pair: the card is made, [openModal]
    throws nothing and leaves the modal shown with the page's scrolling
    stopped, under the very title of the card, which is never falsy; the
    modal holds one embed for a video and none for an image. *)
Theorem card_opens_modal (entry : json) (m : Modal) :
  entry <> JNull ->
  (truthy (member "url" entry) = true ->
   exists s, member "url" entry = Json (JStr s) /\ lone_surrogate (chars s) = false) ->
  (forall k, k ∈ ["title"; "date"; "explanation"]%string ->
             exists s, String_of Date_toString (member k entry) = Normal s) ->
  (length (embeds m) <= 1)%nat ->
  exists it m',
    card_item Date_toString (Json entry) = Normal it
    /\ (exists h, card_markup Date_toString (Json entry) = Normal h)
    /\ openModal Date_toString it (Some m) = (Some m', None)
    /\ thumb_click Date_toString entry (Some m) = Some m'
    /\ modal_hidden m' = false
    /\ body_overflow m' = "hidden"%string
    /\ truthy (item_title it) = true
    /\ String_of Date_toString (item_title it) = Normal (title_text m')
    /\ length (embeds m')
       = if is_video (member "media_type" entry) then 1%nat else 0%nat.
Proof.
  intros Hne Hurl Hconv Hlen.
  assert (Ht : exists s, String_of Date_toString (member "title" entry) = Normal s)
    by (apply Hconv; repeat constructor).
  assert (Hd : exists s, String_of Date_toString (member "date" entry) = Normal s)
    by (apply Hconv; repeat constructor).
  assert (He : exists s, String_of Date_toString (member "explanation" entry) = Normal s)
    by (apply Hconv; repeat constructor).
  destruct (String_of_or_else _ Hd) as [sd Hsd].
  (* the title of the card *)
  assert (Htitle : exists title st,
            card_item Date_toString (Json entry)
            = Normal {| item_media_type := member "media_type" entry;
                        item_url := or_else (member "url" entry) (Json (JStr ""));
                        item_title := title;
                        item_date := member "date" entry;
                        item_explanation :=
                          or_else (member "explanation" entry) (Json (JStr "")) |}
            /\ truthy title = true
            /\ String_of Date_toString title = Normal st).
  { rewrite (card_item_Json entry Hne).
    destruct (truthy (member "title" entry)) eqn:Htt.
    - destruct Ht as [st Hst]. by exists (member "title" entry), st.
    - rewrite Hsd. cbn [mbind completion_bind]. by eexists _, _. }
  destruct Htitle as (title & st & Hitem & Htruthy & Hst).
  set (it := {| item_media_type := member "media_type" entry;
                item_url := or_else (member "url" entry) (Json (JStr ""));
                item_title := title;
                item_date := member "date" entry;
                item_explanation :=
                  or_else (member "explanation" entry) (Json (JStr "")) |}) in *.
  (* the address of the card *)
  assert (Hu : exists s, item_url it = Json (JStr s) /\ lone_surrogate (chars s) = false).
  { cbn [it item_url]. unfold or_else.
    destruct (truthy (member "url" entry)); [by apply Hurl | by exists ""%string]. }
  destruct Hu as (su & Hsu & Hlone).
  (* the markup of the card *)
  assert (Hmarkup : exists h, card_markup Date_toString (Json entry) = Normal h).
  { assert (Hesc : exists t, escapeHtml Date_toString title = Normal t).
    { unfold escapeHtml. rewrite Htruthy, Hst. by eexists. }
    destruct Hesc as [t Hesc].
    unfold card_markup. rewrite Hitem. cbn [mbind completion_bind].
    change (item_title it) with title.
    change (item_date it) with (member "date" entry).
    rewrite Hsu, Hesc, Hsd. cbn [mbind completion_bind String_of to_string].
    by eexists. }
  (* the call *)
  assert (Hcall : snd (openModal Date_toString it (Some m)) = None).
  { apply openModal_returns. split; [|split; [|split]].
    - rewrite Hsu. destruct (is_video (item_media_type it)).
      + cbn [embed_innerHTML]. by apply embed_markup_returns.
      + apply String_of_or_else. by eexists.
    - cbn [it item_title]. unfold or_else. rewrite Htruthy. by exists st.
    - by exists sd.
    - cbn [it item_explanation]. apply String_of_or_else. by apply String_of_or_else. }
  destruct (openModal_outcome it m) as (m' & Hfst & _ & Hok & _).
  destruct (Hok Hcall) as (Hh & Ho & Htt & Hn).
  exists it, m'. split; [done|]. split; [done|].
  split; [by rewrite (surjective_pairing (openModal _ _ _)), Hfst, Hcall|].
  split.
  { unfold thumb_click. destruct Hmarkup as [h ->]. by rewrite Hitem. }
  split; [done|]. split; [done|]. split; [done|]. split.
  - rewrite <- Htt. cbn [it item_title]. unfold or_else. by rewrite Htruthy.
  - by apply Hn.
Qed.

End ModalFacts.

(** A sequence of events: a video is opened, an image over it, and the
    modal is closed with the Escape key. *)
Lemma modal_stays_tidy_witness :
  after sample_Date_toString
    [ThumbClick entry_video; ThumbKeyDown "Enter" entry_picture; KeyDown "Escape"]
    (Some closed_modal)
  = Some {| modal_hidden := true;
            image_display := "";
            image_src := "";
            image_alt := "Solstice";
            title_text := "Solstice";
            date_text := "2021-06-20";
            explanation_text := "";
            embeds := [];
            body_overflow := "" |}
  /\ (length (@nil string) <= 1)%nat
  /\ (@nil string = [] \/ ""%string = "none"%string).
Proof.
  split; [vm_compute; reflexivity|].
  apply (modal_stays_tidy sample_Date_toString closed_modal
           [ThumbClick entry_video; ThumbKeyDown "Enter" entry_picture; KeyDown "Escape"]
           {| modal_hidden := true;
              image_display := "";
              image_src := "";
              image_alt := "Solstice";
              title_text := "Solstice";
              date_text := "2021-06-20";
              explanation_text := "";
              embeds := [];
              body_overflow := "" |});
    [reflexivity | vm_compute; reflexivity].
Defined.

Lemma card_opens_modal_witness :
  exists it m',
    card_item sample_Date_toString (Json entry_video) = Normal it
    /\ (exists h, card_markup sample_Date_toString (Json entry_video) = Normal h)
    /\ openModal sample_Date_toString it (Some closed_modal) = (Some m', None)
    /\ thumb_click sample_Date_toString entry_video (Some closed_modal) = Some m'
    /\ modal_hidden m' = false
    /\ body_overflow m' = "hidden"%string
    /\ truthy (item_title it) = true
    /\ String_of sample_Date_toString (item_title it) = Normal (title_text m')
    /\ length (embeds m') = 1%nat.
Proof.
  apply (card_opens_modal sample_Date_toString entry_video closed_modal).
  - discriminate.
  - intros _. eexists. split; reflexivity.
  - intros k Hk. repeat (apply elem_of_cons in Hk as [->|Hk]; [by eexists|]).
    by apply elem_of_nil in Hk.
  - cbn. lia.
Defined.

(** A video whose explanation cannot be converted to a string: the embed is
    put in the modal, and the call ends before the modal is shown. *)
Example modal_hidden_with_embed :
  after sample_Date_toString [ThumbClick entry_video_unexplained] (Some closed_modal)
  = Some {| modal_hidden := true;
            image_display := "none";
            image_src := "";
            image_alt := "";
            title_text := "Eclipse";
            date_text := "2021-06-24";
            explanation_text := "";
            embeds := [str (chars "<iframe width=" ++ quote_char :: chars "100%"
                            ++ quote_char :: chars " height=" ++ quote_char :: chars "480"
                            ++ quote_char :: chars " src=" ++ quote_char
                            :: chars "https://www.youtube.com/embed/abc123"
                            ++ quote_char :: chars " frameborder=" ++ quote_char
                            :: chars "0" ++ quote_char
                            :: chars " allowfullscreen></iframe>")];
            body_overflow := "" |}.
Proof. vm_compute. reflexivity. Qed.

(** A video whose address ends in a surrogate without its pair, and one
    whose address is a number: the image is hidden and the modal stays
    closed. *)
Example modal_after_failed_video :
  openModal sample_Date_toString
    {| item_media_type := Json (JStr "video");
       item_url := Json (JStr surrogate_address);
       item_title := Json (JStr "Image 2021-06-23");
       item_date := Json (JStr "2021-06-23");
       item_explanation := Json (JStr "") |}
    (Some closed_modal)
  = (Some (set_image_display "none" closed_modal), Some URIError)
  /\ after sample_Date_toString [ThumbClick entry_video_surrogate] (Some closed_modal)
     = Some (set_image_display "none" closed_modal)
  /\ after sample_Date_toString [ThumbClick entry_video_numbered] (Some closed_modal)
     = Some (set_image_display "none" closed_modal).
Proof. repeat split; vm_compute; reflexivity. Qed.
